(** * A shallow embedding of the Strava API wrapper (strava.py)

    The wrapper is a lazy object graph over a read-only HTTP/JSON service:
    [Athlete] lists [Ride]s, a [Ride] lazily owns a [RideDetail], a
    [RideStream] and a list of [Segment]s, and a [Segment] lazily owns a
    [SegmentDetail].  Every method is embedded as a computation in a state
    and exception monad: the state is the log of requests issued so far and
    the heap of instances (so that identity, aliasing and memoisation are
    visible), and the result is either a value or a raised exception. *)

From Stdlib Require Import ZArith String List Floats DecimalString Lia.
From stdpp Require Import gmap strings list.

Set Warnings "-register-all".

Open Scope string_scope.
Open Scope list_scope.
Open Scope Z_scope.

(** ** Decoded JSON values

    What [json.loads] returns: [None], booleans, integers, floats, strings,
    lists and dictionaries keyed by strings. *)

Inductive value :=
| VNone
| VBool (b : bool)
| VInt (z : Z)
| VFloat (f : float)
| VStr (s : string)
| VList (l : list value)
| VDict (d : gmap string value).

(** ** Exceptions *)

Inductive exn :=
| APIError (msg : string)
| HTTPError (msg : string)
| URLError (msg : string)
| UnicodeDecodeError (msg : string)
| ValueError (msg : string)
| KeyError (key : string)
| TypeError
| AttributeError (name : string)
| OverflowError
| RecursionError (msg : string).

Inductive res (A : Type) :=
| Ret (a : A)
| Raise (e : exn).

Arguments Ret {A} a.
Arguments Raise {A} e.

(** ** The service and the interpreter's builtins

    One request is [urlopen] followed by [rsp.read().decode('utf-8')] and
    [json.loads]; each of the three can raise, and the last one can return a
    value.  The HTTP transport and the JSON decoder are external to the
    wrapper, so a response is given by where the pipeline stops.
    [json.loads] raises a [ValueError] on a body that is not JSON, and can
    raise others: the [RecursionError] (a [RuntimeError] before Python 3.5)
    of a body nested deeper than the interpreter's recursion limit. *)

Inductive response :=
| UrlopenRaises (e : exn)
| DecodeRaises (e : exn)
| LoadsRaises (e : exn)
| Loads (v : value).

(** [urlopen] answers a URL knowing the requests already served (most recent
    first), as a call-tracking transport double does.  [py_str v] is
    ["%s" % v], [py_repr k] is [repr] of a string (it is [str] of a
    [KeyError]), [py_eq] is [==] on decoded values and [today] is the
    proleptic Gregorian ordinal of [date.today()]. *)

Class Env := {
  urlopen : list string -> string -> response;
  py_str : value -> string;
  py_repr : string -> string;
  py_eq : value -> value -> bool;
  today : Z
}.

(** ** Instances and the heap

    An attribute that [__init__] assigns after a step that can raise is an
    [option]: [None] is "not assigned yet".  An instance enters the heap
    when its constructor binds its first attribute. *)

Definition ref := nat.

Record AthleteObj := mkAthlete {
  Athlete_id : value;
  Athlete_url : string
}.

Record RideObj := mkRide {
  Ride_id : value;
  Ride_name : value;
  Ride_detail : option ref;
  Ride_segments : list ref;
  Ride_stream : option ref
}.

Record RideStreamObj := mkRideStream {
  RideStream_id : value;
  RideStream_attr : option value
}.

Record RideDetailObj := mkRideDetail {
  RideDetail_id : value;
  RideDetail_attr : option value
}.

Record SegmentObj := mkSegment {
  Segment_id : value;
  Segment_segment : option value;
  Segment_time : option value;
  Segment_detail : option (option ref)
}.

Record SegmentDetailObj := mkSegmentDetail {
  SegmentDetail_id : value;
  SegmentDetail_effort_attr : option value;
  SegmentDetail_segment_attr : option value
}.

Inductive obj :=
| OAthlete (o : AthleteObj)
| ORide (o : RideObj)
| ORideStream (o : RideStreamObj)
| ORideDetail (o : RideDetailObj)
| OSegment (o : SegmentObj)
| OSegmentDetail (o : SegmentDetailObj).

Record state := mkState {
  requests : list string;
  heap : list obj
}.

(** ** The monad of methods *)

Definition M (A : Type) : Type := state -> res A * state.

Definition ret {A} (a : A) : M A := fun s => (Ret a, s).

Definition raise {A} (e : exn) : M A := fun s => (Raise e, s).

Definition bind {A B} (c : M A) (k : A -> M B) : M B :=
  fun s =>
    match c s with
    | (Ret a, s') => k a s'
    | (Raise e, s') => (Raise e, s')
    end.

Notation "x <- c ;; k" := (bind c (fun x => k))
  (at level 100, c at next level, right associativity).
Notation "c ;;; k" := (bind c (fun _ => k))
  (at level 100, right associativity).

Definition lift {A} (r : res A) : M A := fun s => (r, s).

(** [for x in xs: acc = body(x, acc)] *)
Fixpoint for_each {A B} (xs : list A) (body : A -> B -> M B) (acc : B) : M B :=
  match xs with
  | [] => ret acc
  | x :: xs' => acc' <- body x acc ;; for_each xs' body acc'
  end.

Definition alloc (o : obj) : M ref :=
  fun s => (Ret (length (heap s)), mkState (requests s) (heap s ++ [o])).

Definition store (r : ref) (o : obj) : M unit :=
  fun s => (Ret tt, mkState (requests s) (<[r := o]> (heap s))).

(** Reading an attribute that is not bound raises [AttributeError]; so does
    a method applied to an instance of another class. *)
Definition attr {A} (name : string) (a : option A) : M A :=
  match a with
  | Some x => ret x
  | None => raise (AttributeError name)
  end.

Definition get_athlete (r : ref) : M AthleteObj :=
  fun s => match heap s !! r with
           | Some (OAthlete o) => (Ret o, s)
           | _ => (Raise (AttributeError "_url"), s)
           end.

Definition get_ride (r : ref) : M RideObj :=
  fun s => match heap s !! r with
           | Some (ORide o) => (Ret o, s)
           | _ => (Raise (AttributeError "_detail"), s)
           end.

Definition get_stream (r : ref) : M RideStreamObj :=
  fun s => match heap s !! r with
           | Some (ORideStream o) => (Ret o, s)
           | _ => (Raise (AttributeError "_attr"), s)
           end.

Definition get_detail (r : ref) : M RideDetailObj :=
  fun s => match heap s !! r with
           | Some (ORideDetail o) => (Ret o, s)
           | _ => (Raise (AttributeError "_attr"), s)
           end.

Definition get_segment (r : ref) : M SegmentObj :=
  fun s => match heap s !! r with
           | Some (OSegment o) => (Ret o, s)
           | _ => (Raise (AttributeError "_segment"), s)
           end.

Definition get_segment_detail (r : ref) : M SegmentDetailObj :=
  fun s => match heap s !! r with
           | Some (OSegmentDetail o) => (Ret o, s)
           | _ => (Raise (AttributeError "_effort_attr"), s)
           end.

(** ** Python operations on decoded values *)

(** [v[k]] for a string [k]: only a dictionary can be subscripted by a
    string; a missing key is a [KeyError], any other receiver a
    [TypeError]. *)
Definition getitem (v : value) (k : string) : res value :=
  match v with
  | VDict d => match d !! k with
               | Some x => Ret x
               | None => Raise (KeyError k)
               end
  | _ => Raise TypeError
  end.

(** [k in v] for a string [k]: key membership in a dictionary, element
    membership in a list, substring test on a string, [TypeError] on a value
    that is not a container. *)
Definition contains `{Env} (v : value) (k : string) : res bool :=
  match v with
  | VDict d => Ret (bool_decide (is_Some (d !! k)))
  | VList l => Ret (existsb (fun x => py_eq x (VStr k)) l)
  | VStr s => Ret (match String.index 0 k s with Some _ => true | None => false end)
  | _ => Raise TypeError
  end.

(** The elements [for x in v] visits: the elements of a list, the keys of a
    dictionary (the wrapper subscripts each element by a string, which a
    key does not support, so their order does not show), the characters of
    a string. *)
Fixpoint chars (s : string) : list value :=
  match s with
  | EmptyString => []
  | String c s' => VStr (String c EmptyString) :: chars s'
  end.

Definition iter (v : value) : res (list value) :=
  match v with
  | VList l => Ret l
  | VDict d => Ret (VStr <$> (map_to_list d).*1)
  | VStr s => Ret (chars s)
  | _ => Raise TypeError
  end.

(** ** StravaObject *)

Definition BASE_API : string := "http://www.strava.com/api/v1".

Module StravaObject.
Section methods.
Context `{Env}.

(** [except (ValueError, KeyError) as e]: [str(e)] of an exception the
    clause catches.  [UnicodeDecodeError] is a subclass of [ValueError]. *)
Definition parsing_failed (e : exn) : option string :=
  match e with
  | ValueError m | UnicodeDecodeError m => Some m
  | KeyError k => Some (py_repr k)
  | _ => None
  end.

(** [load(url, key=None)]: one request.  Only [HTTPError] from [urlopen] and
    [ValueError] or [KeyError] from decoding and subscripting are turned
    into [APIError]. *)
Definition load (url : string) (key : option string) : M value :=
  fun s =>
    let s' := mkState ((BASE_API +:+ url) :: requests s) (heap s) in
    match urlopen (requests s) (BASE_API +:+ url) with
    | UrlopenRaises (HTTPError e) =>
        (Raise (APIError (url +:+ ": request failed: " +:+ e)), s')
    | UrlopenRaises e => (Raise e, s')
    | DecodeRaises e => (Raise e, s')
    | LoadsRaises e =>
        match parsing_failed e with
        | Some m => (Raise (APIError (url +:+ ": parsing response failed: " +:+ m)), s')
        | None => (Raise e, s')
        end
    | Loads v =>
        match key with
        | None => (Ret v, s')
        | Some k =>
            match getitem v k with
            | Raise (KeyError k') =>
                (Raise (APIError (url +:+ ": parsing response failed: " +:+ py_repr k')), s')
            | r => (r, s')
            end
        end
    end.

End methods.
End StravaObject.

(** ** RideStream *)

Module RideStream.
Section methods.
Context `{Env}.

Definition set_attr (self : ref) (a : value) : M unit :=
  o <- get_stream self ;;
  store self (ORideStream (mkRideStream (RideStream_id o) (Some a))).

Definition new (oid : value) : M ref :=
  self <- alloc (ORideStream (mkRideStream oid None)) ;;
  a <- StravaObject.load ("/streams/" +:+ py_str oid) None ;;
  set_attr self a ;;;
  ret self.

(** Not every rider has hardware to track every data point: an empty list
    is returned when the requested key is not in the stream. *)
Definition try_get_values (self : ref) (key : string) : M value :=
  o <- get_stream self ;;
  a <- attr "_attr" (RideStream_attr o) ;;
  b <- lift (contains a key) ;;
  if (b : bool) then lift (getitem a key) else ret (VList []).

Definition altitude (self : ref) : M value := try_get_values self "altitude".
Definition altitude_original (self : ref) : M value := try_get_values self "altitiude_original".
Definition cadence (self : ref) : M value := try_get_values self "cadence".
Definition distance (self : ref) : M value := try_get_values self "distance".
Definition grade_smooth (self : ref) : M value := try_get_values self "grade_smooth".
Definition heartrate (self : ref) : M value := try_get_values self "heartrate".
Definition latlng (self : ref) : M value := try_get_values self "latlng".
Definition moving (self : ref) : M value := try_get_values self "moving".
Definition outlier (self : ref) : M value := try_get_values self "outlier".
Definition resting (self : ref) : M value := try_get_values self "resting".
Definition temp (self : ref) : M value := try_get_values self "temp".
Definition time (self : ref) : M value := try_get_values self "time".
Definition total_elevation (self : ref) : M value := try_get_values self "total_elevation".
Definition watts_calc (self : ref) : M value := try_get_values self "watts_calc".
Definition velocity_smooth (self : ref) : M value := try_get_values self "velocity_smooth".

Definition raw_data (self : ref) : M value :=
  o <- get_stream self ;;
  attr "_attr" (RideStream_attr o).

End methods.
End RideStream.

(** ** RideDetail *)

Module RideDetail.
Section methods.
Context `{Env}.

Definition set_attr (self : ref) (a : value) : M unit :=
  o <- get_detail self ;;
  store self (ORideDetail (mkRideDetail (RideDetail_id o) (Some a))).

Definition new (oid : value) : M ref :=
  self <- alloc (ORideDetail (mkRideDetail oid None)) ;;
  a <- StravaObject.load ("/rides/" +:+ py_str oid) (Some "ride") ;;
  set_attr self a ;;;
  ret self.

Definition _attr (self : ref) : M value :=
  o <- get_detail self ;;
  attr "_attr" (RideDetail_attr o).

Definition athlete (self : ref) : M value :=
  a <- _attr self ;; x <- lift (getitem a "athlete") ;; lift (getitem x "name").

Definition athlete_id (self : ref) : M value :=
  a <- _attr self ;; x <- lift (getitem a "athlete") ;; lift (getitem x "id").

Definition bike (self : ref) : M value :=
  a <- _attr self ;; x <- lift (getitem a "bike") ;; lift (getitem x "name").

Definition bike_id (self : ref) : M value :=
  a <- _attr self ;; x <- lift (getitem a "bike") ;; lift (getitem x "id").

Definition location (self : ref) : M value :=
  a <- _attr self ;; lift (getitem a "location").

Definition distance (self : ref) : M value :=
  a <- _attr self ;; lift (getitem a "distance").

Definition moving_time (self : ref) : M value :=
  a <- _attr self ;; lift (getitem a "movingTime").

End methods.
End RideDetail.

(** ** SegmentDetail *)

Module SegmentDetail.
Section methods.
Context `{Env}.

Definition set_effort_attr (self : ref) (a : value) : M unit :=
  o <- get_segment_detail self ;;
  store self (OSegmentDetail
    (mkSegmentDetail (SegmentDetail_id o) (Some a) (SegmentDetail_segment_attr o))).

Definition set_segment_attr (self : ref) (a : value) : M unit :=
  o <- get_segment_detail self ;;
  store self (OSegmentDetail
    (mkSegmentDetail (SegmentDetail_id o) (SegmentDetail_effort_attr o) (Some a))).

Definition new (segment_id effort_id : value) : M ref :=
  self <- alloc (OSegmentDetail (mkSegmentDetail segment_id None None)) ;;
  e <- StravaObject.load ("/efforts/" +:+ py_str effort_id) (Some "effort") ;;
  set_effort_attr self e ;;;
  g <- StravaObject.load ("/segments/" +:+ py_str segment_id) (Some "segment") ;;
  set_segment_attr self g ;;;
  ret self.

Definition _effort_attr (self : ref) : M value :=
  o <- get_segment_detail self ;;
  attr "_effort_attr" (SegmentDetail_effort_attr o).

Definition _segment_attr (self : ref) : M value :=
  o <- get_segment_detail self ;;
  attr "_segment_attr" (SegmentDetail_segment_attr o).

Definition distance (self : ref) : M value :=
  a <- _segment_attr self ;; lift (getitem a "distance").

Definition elapsed_time (self : ref) : M value :=
  a <- _effort_attr self ;; lift (getitem a "elapsedTime").

Definition moving_time (self : ref) : M value :=
  a <- _effort_attr self ;; lift (getitem a "movingTime").

Definition average_speed (self : ref) : M value :=
  a <- _effort_attr self ;; lift (getitem a "averageSpeed").

Definition maximum_speed (self : ref) : M value :=
  a <- _effort_attr self ;; lift (getitem a "maximumSpeed").

Definition average_watts (self : ref) : M value :=
  a <- _effort_attr self ;; lift (getitem a "averageWatts").

Definition average_grade (self : ref) : M value :=
  a <- _segment_attr self ;; lift (getitem a "averageGrade").

Definition climb_category (self : ref) : M value :=
  a <- _segment_attr self ;; lift (getitem a "climbCategory").

Definition elevations (self : ref) : M (value * value * value) :=
  a <- _segment_attr self ;; lo <- lift (getitem a "elevationLow") ;;
  b <- _segment_attr self ;; hi <- lift (getitem b "elevationHigh") ;;
  c <- _segment_attr self ;; gain <- lift (getitem c "elevationGain") ;;
  ret (lo, hi, gain).

End methods.
End SegmentDetail.

(** ** Segment *)

Module Segment.
Section methods.
Context `{Env}.

Definition set_segment (self : ref) (a : value) : M unit :=
  o <- get_segment self ;;
  store self (OSegment (mkSegment (Segment_id o) (Some a) (Segment_time o) (Segment_detail o))).

Definition set_time (self : ref) (a : value) : M unit :=
  o <- get_segment self ;;
  store self (OSegment (mkSegment (Segment_id o) (Segment_segment o) (Some a) (Segment_detail o))).

Definition set_detail (self : ref) (d : option ref) : M unit :=
  o <- get_segment self ;;
  store self (OSegment (mkSegment (Segment_id o) (Segment_segment o) (Segment_time o) (Some d))).

(** [Segment(attr)] for an entry [attr] of a ride's effort listing. *)
Definition new (a : value) : M ref :=
  oid <- lift (getitem a "id") ;;
  self <- alloc (OSegment (mkSegment oid None None None)) ;;
  g <- lift (getitem a "segment") ;;
  set_segment self g ;;;
  t <- lift (getitem a "elapsed_time") ;;
  set_time self t ;;;
  set_detail self None ;;;
  ret self.

Definition id (self : ref) : M value :=
  o <- get_segment self ;; ret (Segment_id o).

Definition time (self : ref) : M value :=
  o <- get_segment self ;; attr "_time" (Segment_time o).

Definition name (self : ref) : M value :=
  o <- get_segment self ;;
  g <- attr "_segment" (Segment_segment o) ;;
  lift (getitem g "name").

Definition detail (self : ref) : M ref :=
  o <- get_segment self ;;
  d <- attr "_detail" (Segment_detail o) ;;
  match d with
  | Some r => ret r
  | None =>
      g <- attr "_segment" (Segment_segment o) ;;
      route <- lift (getitem g "id") ;;
      effort <- id self ;;
      r <- SegmentDetail.new route effort ;;
      set_detail self (Some r) ;;;
      ret r
  end.

End methods.
End Segment.

(** ** Ride *)

Module Ride.
Section methods.
Context `{Env}.

Definition new (oid name : value) : M ref :=
  alloc (ORide (mkRide oid name None [] None)).

Definition id (self : ref) : M value :=
  o <- get_ride self ;; ret (Ride_id o).

Definition name (self : ref) : M value :=
  o <- get_ride self ;; ret (Ride_name o).

Definition set_detail (self : ref) (d : ref) : M unit :=
  o <- get_ride self ;;
  store self (ORide (mkRide (Ride_id o) (Ride_name o) (Some d) (Ride_segments o) (Ride_stream o))).

Definition set_stream (self : ref) (d : ref) : M unit :=
  o <- get_ride self ;;
  store self (ORide (mkRide (Ride_id o) (Ride_name o) (Ride_detail o) (Ride_segments o) (Some d))).

(** [self._segments.append(g)] *)
Definition append_segment (self : ref) (g : ref) : M unit :=
  o <- get_ride self ;;
  store self (ORide (mkRide (Ride_id o) (Ride_name o) (Ride_detail o) (Ride_segments o ++ [g]) (Ride_stream o))).

Definition detail (self : ref) : M ref :=
  o <- get_ride self ;;
  match Ride_detail o with
  | Some d => ret d
  | None =>
      oid <- id self ;;
      d <- RideDetail.new oid ;;
      set_detail self d ;;;
      ret d
  end.

Definition stream (self : ref) : M ref :=
  o <- get_ride self ;;
  match Ride_stream o with
  | Some d => ret d
  | None =>
      oid <- id self ;;
      d <- RideStream.new oid ;;
      set_stream self d ;;;
      ret d
  end.

Definition segments (self : ref) : M (list ref) :=
  o <- get_ride self ;;
  match Ride_segments o with
  | [] =>
      oid <- id self ;;
      listing <- StravaObject.load ("/rides/" +:+ py_str oid +:+ "/efforts") (Some "efforts") ;;
      efforts <- lift (iter listing) ;;
      for_each efforts (fun effort _ => g <- Segment.new effort ;; append_segment self g) tt
  | _ :: _ => ret tt
  end ;;;
  o' <- get_ride self ;;
  ret (Ride_segments o').

End methods.
End Ride.

(** ** Athlete *)

(** [0.0 + v] and [acc + v]: an integer is converted (and may be too large
    for a float), a boolean counts as 0 or 1, anything that is not a number
    is a [TypeError]. *)
Definition float_of_Z (z : Z) : res float :=
  match binary_normalize prec emax z 0 false with
  | S754_infinity _ => Raise OverflowError
  | x => Ret (SF2Prim x)
  end.

Definition to_float (v : value) : res float :=
  match v with
  | VInt z => float_of_Z z
  | VBool b => Ret (if b then 1%float else 0%float)
  | VFloat f => Ret f
  | _ => Raise TypeError
  end.

Definition float_add (acc : float) (v : value) : res float :=
  match to_float v with
  | Ret x => Ret (acc + x)%float
  | Raise e => Raise e
  end.

(** [stats[k] += v] on a [defaultdict(float)]. *)
Definition iadd (stats : gmap string float) (k : string) (v : value) : res (gmap string float) :=
  match float_add (default 0%float (stats !! k)) v with
  | Ret x => Ret (<[k := x]> stats)
  | Raise e => Raise e
  end.

(** Dates are proleptic Gregorian ordinals, from [date.min] to [date.max]. *)
Definition timedelta (days : Z) : res Z :=
  if (Z.abs days <=? 999999999) then Ret days else Raise OverflowError.

Definition date_sub (d delta : Z) : res Z :=
  if (1 <=? d - delta) && (d - delta <=? 3652059) then Ret (d - delta) else Raise OverflowError.

Definition decimal (z : Z) : string := NilZero.string_of_int (Z.to_int z).

Fixpoint zeros (n : nat) : string :=
  match n with
  | O => ""
  | S n' => "0" +:+ zeros n'
  end.

Definition zfill (width : nat) (s : string) : string :=
  zeros (width - String.length s) +:+ s.

(** Year, month and day of an ordinal (1 is 0001-01-01). *)
Definition ymd (ordinal : Z) : Z * Z * Z :=
  let z := ordinal + 305 in
  let era := z / 146097 in
  let doe := z - era * 146097 in
  let yoe := (doe - doe / 1460 + doe / 36524 - doe / 146096) / 365 in
  let doy := doe - (365 * yoe + yoe / 4 - yoe / 100) in
  let mp := (5 * doy + 2) / 153 in
  let d := doy - (153 * mp + 2) / 5 + 1 in
  let m := if mp <? 10 then mp + 3 else mp - 9 in
  let y := yoe + era * 400 + (if m <=? 2 then 1 else 0) in
  (y, m, d).

(** [date.isoformat()]: YYYY-MM-DD. *)
Definition isoformat (ordinal : Z) : string :=
  let '(y, m, d) := ymd ordinal in
  zfill 4 (decimal y) +:+ "-" +:+ zfill 2 (decimal m) +:+ "-" +:+ zfill 2 (decimal d).

Module Athlete.
Section methods.
Context `{Env}.

Definition new (oid : value) : M ref :=
  alloc (OAthlete (mkAthlete oid ("/rides?athleteId=" +:+ py_str oid))).

Definition id (self : ref) : M value :=
  o <- get_athlete self ;; ret (Athlete_id o).

Definition rides (self : ref) (start_date : option Z) : M (list ref) :=
  o <- get_athlete self ;;
  let url := match start_date with
             | Some d => Athlete_url o +:+ "&startDate=" +:+ isoformat d
             | None => Athlete_url o
             end in
  listing <- StravaObject.load url (Some "rides") ;;
  entries <- lift (iter listing) ;;
  for_each entries
    (fun ride out =>
       oid <- lift (getitem ride "id") ;;
       name <- lift (getitem ride "name") ;;
       r <- Ride.new oid name ;;
       ret (out ++ [r]))
    [].

(** [next((ride for ride in rides if ride.id == ride_id), None)] *)
Fixpoint first_match (rs : list ref) (ride_id : value) : M (option ref) :=
  match rs with
  | [] => ret None
  | r :: rs' =>
      i <- Ride.id r ;;
      if py_eq i ride_id then ret (Some r) else first_match rs' ride_id
  end.

Definition ride (self : ref) (ride_id : value) : M (option ref) :=
  rs <- rides self None ;;
  first_match rs ride_id.

(** Number of rides, time and distance for the past [days] days. *)
Definition ride_stats (self : ref) (days : Z) : M (gmap string float) :=
  delta <- lift (timedelta days) ;;
  start <- lift (date_sub today delta) ;;
  rs <- rides self (Some start) ;;
  for_each rs
    (fun ride stats =>
       stats <- lift (iadd stats "rides" (VInt 1)) ;;
       d <- Ride.detail ride ;;
       t <- RideDetail.moving_time d ;;
       stats <- lift (iadd stats "moving_time" t) ;;
       d <- Ride.detail ride ;;
       x <- RideDetail.distance d ;;
       stats <- lift (iadd stats "distance" x) ;;
       ret stats)
    ∅.

End methods.
End Athlete.

(** ** Transport doubles

    A concrete environment for running the wrapper: [str_scalar],
    [repr_plain] and [eq_scalar] are [str], [repr] and [==] on [None],
    booleans, integers and strings without quotes or escapes, which is all
    the examples below format or compare. *)

Definition str_scalar (v : value) : string :=
  match v with
  | VNone => "None"
  | VBool true => "True"
  | VBool false => "False"
  | VInt z => decimal z
  | VStr s => s
  | VFloat _ | VList _ | VDict _ => "?"
  end.

Definition repr_plain (k : string) : string := "'" +:+ k +:+ "'".

Definition eq_scalar (a b : value) : bool :=
  match a, b with
  | VNone, VNone => true
  | VBool x, VBool y => Bool.eqb x y
  | VBool x, VInt z | VInt z, VBool x => Z.eqb z (if x then 1 else 0)
  | VInt x, VInt y => Z.eqb x y
  | VStr x, VStr y => String.eqb x y
  | _, _ => false
  end.

Definition double (net : list string -> string -> response) (now : Z) : Env :=
  {| urlopen := net; py_str := str_scalar; py_repr := repr_plain;
     py_eq := eq_scalar; today := now |}.

Definition not_found : response :=
  UrlopenRaises (HTTPError "HTTP Error 404: Not Found").

(** A service with a fixed answer per path. *)
Fixpoint canned (table : list (string * response)) (log : list string) (url : string)
  : response :=
  match table with
  | [] => not_found
  | (path, r) :: table' =>
      if String.eqb (BASE_API +:+ path) url then r else canned table' log url
  end.

(** A service that answers the n-th request with the n-th response. *)
Definition scripted (script : list response) (log : list string) (url : string)
  : response :=
  nth (length log) script not_found.

(** A JSON object given by its members. *)
Definition dict (kvs : list (string * value)) : value := VDict (list_to_map kvs).

Definition empty_state : state := mkState [] [].

(** ** Vocabulary of the properties

    Derived notions the statements below are written with. *)

(** The value at a path of nested keys of a decoded record; the first key
    that is missing from its mapping is a [KeyError], and there is no
    default. *)
Fixpoint project (v : value) (path : list string) : res value :=
  match path with
  | [] => Ret v
  | k :: path' =>
      match v with
      | VDict d => match d !! k with
                   | Some x => project x path'
                   | None => Raise (KeyError k)
                   end
      | _ => Raise TypeError
      end
  end.

(** What [load(url, key)] gives when [log] lists the requests served so
    far. *)
Definition fetch `{Env} (url : string) (key : option string) (log : list string) : res value :=
  fst (StravaObject.load url key (mkState log [])).

(** Running a computation [n] times in a row. *)
Fixpoint repeatedly {A} (n : nat) (c : M A) : M (list A) :=
  match n with
  | O => ret []
  | S n' => x <- c ;; xs <- repeatedly n' c ;; ret (x :: xs)
  end.

(** A computation that issues no request. *)
Definition quiet {A} (c : M A) : Prop := forall s, requests (snd (c s)) = requests s.

(** The instances an instance refers to. *)
Definition refs (o : obj) : list ref :=
  match o with
  | ORide r => option_list (Ride_detail r) ++ Ride_segments r ++ option_list (Ride_stream r)
  | OSegment g => match Segment_detail g with
                  | Some (Some d) => [d]
                  | _ => []
                  end
  | _ => []
  end.

(** Every reference held in the heap points into the heap. *)
Definition closed (h : list obj) : bool :=
  forallb (fun o => forallb (fun r => r <? length h)%nat (refs o)) h.

(** The instance [Ride(id, name)] starts as. *)
Definition fresh_ride (p : value * value) : obj := ORide (mkRide p.1 p.2 None [] None).

(** A listing entry with its "id" and "name". *)
Definition entry_of (e : value) (p : value * value) : Prop :=
  getitem e "id" = Ret p.1 /\ getitem e "name" = Ret p.2.

(** Position of the first element that satisfies [f]. *)
Fixpoint first_index {A} (f : A -> bool) (l : list A) : option nat :=
  match l with
  | [] => None
  | x :: l' => if f x then Some O else option_map S (first_index f l')
  end.

(** The body of the loop of [Athlete.rides]. *)
Definition rides_body (ride : value) (out : list ref) : M (list ref) :=
  oid <- lift (getitem ride "id") ;;
  name <- lift (getitem ride "name") ;;
  r <- Ride.new oid name ;;
  ret (out ++ [r]).

(** [v] is a JSON object. *)
Definition is_mapping (v : value) : bool :=
  match v with
  | VDict _ => true
  | _ => false
  end.

(** The mapping [v] has no key [k]. *)
Definition lacks (k : string) (v : value) : bool :=
  match v with
  | VDict d => match d !! k with
               | Some _ => false
               | None => true
               end
  | _ => false
  end.

(** Entries of the ride listing and of the effort listing that miss one of
    the keys the wrapper reads. *)
Definition bad_ride_entry (e : value) : bool := lacks "id" e || lacks "name" e.

Definition bad_effort_entry (e : value) : bool :=
  lacks "id" e || lacks "segment" e || lacks "elapsed_time" e.

(** The body of the loop of [Ride.segments]. *)
Definition segments_body (self : ref) (effort : value) (_ : unit) : M unit :=
  g <- Segment.new effort ;; Ride.append_segment self g.

(** [acc + x + ... + x], with [n] float additions from left to right. *)
Fixpoint add_times (n : nat) (x acc : float) : float :=
  match n with
  | O => acc
  | S n' => add_times n' x (acc + x)%float
  end.

(** Reading a key of a [defaultdict(float)]. *)
Definition read (stats : gmap string float) (k : string) : float :=
  default 0%float (stats !! k).

(** The body of the loop of [Athlete.ride_stats]. *)
Definition stats_body `{Env} (ride : ref) (stats : gmap string float)
  : M (gmap string float) :=
  stats <- lift (iadd stats "rides" (VInt 1)) ;;
  d <- Ride.detail ride ;;
  t <- RideDetail.moving_time d ;;
  stats <- lift (iadd stats "moving_time" t) ;;
  d <- Ride.detail ride ;;
  x <- RideDetail.distance d ;;
  stats <- lift (iadd stats "distance" x) ;;
  ret stats.

(** The URL of the detail of a listed ride. *)
Definition detail_url `{Env} (p : value * value) : string :=
  BASE_API +:+ "/rides/" +:+ py_str p.1.

(** Every ride of [ins] has a detail record with moving time [mt] and
    distance [dist], whenever it is requested. *)
Definition details_are `{Env} (ins : list (value * value)) (mt dist : value) : Prop :=
  forall log p, In p ins ->
    exists record,
      fetch ("/rides/" +:+ py_str p.1) (Some "ride") log = Ret record /\
      getitem record "movingTime" = Ret mt /\
      getitem record "distance" = Ret dist.

(** [m * 2^k] *)
Definition shift_left (k : nat) (m : positive) : positive := Nat.iter k xO m.

(** Number of bits a positive integer below 2^53 is short of 53. *)
Definition slack (p : positive) : nat := Z.to_nat (53 - Zpos (digits2_pos p)).

(** The binary64 float of a positive integer below 2^53: a 53-bit mantissa
    and the exponent that undoes the shift. *)
Definition canon (p : positive) : spec_float :=
  S754_finite false (shift_left (slack p) p) (- Z.of_nat (slack p)).

(** The float nearest to an integer, as [float(z)] rounds it. *)
Definition float_of (z : Z) : float := SF2Prim (binary_normalize prec emax z 0 false).

(** ** Sample services and instances

    Canned responses and small heaps on which the wrapper is run. *)

(** The stream response [{"altitude": [10, 20, 30]}]. *)
Definition altitude_only : value :=
  dict [("altitude", VList [VInt 10; VInt 20; VInt 30])].

(** A heap with one stream, and one with one ride detail, holding a given
    snapshot. *)
Definition one_stream (snapshot : value) : state :=
  mkState [] [ORideStream (mkRideStream (VInt 1) (Some snapshot))].

Definition well_spelled : value :=
  dict [("altitude_original", VList [VInt 1; VInt 2])].

Definition misspelled : value :=
  dict [("altitiude_original", VList [VInt 5])].

(** A ride record without the name of the bike, and with the moving time
    under "moving_time" instead of "movingTime". *)
Definition sample_ride : value :=
  dict [("athlete", dict [("id", VInt 103227); ("name", VStr "Craig")]);
        ("bike", dict [("id", VInt 4)]);
        ("location", VStr "San Francisco, CA");
        ("distance", VInt 32187);
        ("moving_time", VInt 5400)].

Definition one_detail (snapshot : value) : state :=
  mkState [] [ORideDetail (mkRideDetail (VInt 1) (Some snapshot))].

Definition connection_refused : exn :=
  URLError "<urlopen error [Errno 111] Connection refused>".

Definition no_ride_key : response := Loads (dict [("error", VStr "Invalid ride")]).

(** A body that is not JSON, and a body of nested arrays deeper than the
    recursion limit. *)
Definition not_json : response :=
  LoadsRaises (ValueError "Expecting value: line 1 column 1 (char 0)").

Definition too_deep : exn :=
  RecursionError "maximum recursion depth exceeded while decoding a JSON array from a unicode string".

(** The listing [{"rides": [{"id": 1, "name": "Loop"}]}] and ride 1. *)
Definition loop_entry : value := dict [("id", VInt 1); ("name", VStr "Loop")].

Definition loop_record : value := dict [("movingTime", VInt 5400); ("distance", VInt 32187)].

Definition loop_service : list string -> string -> response :=
  canned [("/rides?athleteId=7", Loads (dict [("rides", VList [loop_entry])]));
          ("/rides/1", Loads (dict [("ride", loop_record)]))].

Definition loop_ride : RideObj := mkRide (VInt 1) (VStr "Loop") None [] None.

Definition loop_detailed : state :=
  mkState [BASE_API +:+ "/rides/1"]
    [ORide (mkRide (VInt 1) (VStr "Loop") (Some 1%nat) [] None);
     ORideDetail (mkRideDetail (VInt 1) (Some loop_record))].

(** One effort on Hawk Hill, as a ride's effort listing embeds it. *)
Definition hawk_hill : value := dict [("id", VInt 609); ("name", VStr "Hawk Hill")].

Definition hawk_effort : value :=
  dict [("id", VInt 31); ("elapsed_time", VInt 95); ("segment", hawk_hill)].

Definition no_efforts : list string -> string -> response :=
  canned [("/rides/1/efforts", Loads (dict [("efforts", VList [])]))].

Definition one_effort : list string -> string -> response :=
  canned [("/rides/1/efforts", Loads (dict [("efforts", VList [hawk_effort])]))].

Definition efforts_url : string := BASE_API +:+ "/rides/1/efforts".

Definition loop_segmented : state :=
  mkState [efforts_url]
    [ORide (mkRide (VInt 1) (VStr "Loop") None [1%nat] None);
     OSegment (mkSegment (VInt 31) (Some hawk_hill) (Some (VInt 95)) (Some None))].

(** The effort is served, the route is not. *)
Definition effort_record : value := dict [("elapsedTime", VInt 95); ("movingTime", VInt 93)].

Definition route_missing : list string -> string -> response :=
  canned [("/efforts/31", Loads (dict [("effort", effort_record)]))].

Definition hawk_segment : SegmentObj :=
  mkSegment (VInt 31) (Some hawk_hill) (Some (VInt 95)) (Some None).

Definition route_failed : state :=
  mkState [BASE_API +:+ "/segments/609"; BASE_API +:+ "/efforts/31"]
    [OSegment hawk_segment;
     OSegmentDetail (mkSegmentDetail (VInt 609) (Some effort_record) None)].

(** [Athlete(7)] *)
Definition athlete_7 : obj := OAthlete (mkAthlete (VInt 7) "/rides?athleteId=7").

Definition listed : state :=
  mkState [BASE_API +:+ "/rides?athleteId=7"] [athlete_7; ORide loop_ride].

(** A listing whose second ride has no name, and an effort without its
    elapsed time. *)
Definition nameless_listing : value :=
  dict [("rides", VList [loop_entry; dict [("id", VInt 2)]])].

Definition untimed_efforts : value :=
  dict [("efforts", VList [dict [("id", VInt 31); ("segment", hawk_hill)]])].

Definition malformed_service : list string -> string -> response :=
  canned [("/rides?athleteId=7", Loads nameless_listing);
          ("/rides/1/efforts", Loads untimed_efforts)].

(** Six rides of a tenth of a unit each. *)
Definition tenth : float := 0x1.999999999999ap-4%float.

Definition short_ride : value :=
  dict [("ride", dict [("movingTime", VInt 60); ("distance", VFloat tenth)])].

Definition six_entries : list value :=
  map (fun i => dict [("id", VInt i); ("name", VStr "Lap")]) [1; 2; 3; 4; 5; 6].

Definition six_rides : list string -> string -> response :=
  canned (("/rides?athleteId=7&startDate=2011-12-25",
           Loads (dict [("rides", VList six_entries)]))
          :: map (fun i => ("/rides/" +:+ decimal i, Loads short_ride)) [1; 2; 3; 4; 5; 6]).

(** Two rides of an hour and thirty kilometres each. *)
Definition two_entries : list value :=
  [dict [("id", VInt 1); ("name", VStr "Out")]; dict [("id", VInt 2); ("name", VStr "Back")]].

Definition hour_ride : value := dict [("movingTime", VInt 3600); ("distance", VInt 30000)].

Definition two_rides : list string -> string -> response :=
  canned [("/rides?athleteId=7&startDate=2011-12-25", Loads (dict [("rides", VList two_entries)]));
          ("/rides/1", Loads (dict [("ride", hour_ride)]));
          ("/rides/2", Loads (dict [("ride", hour_ride)]))].

(** ** Sample data for the further properties *)

(** A service that refuses the first request and then serves ride 1. *)
Definition flaky_service : list string -> string -> response :=
  scripted [not_found; Loads (dict [("ride", loop_record)])].

(** The stream of ride 1. *)
Definition stream_service : list string -> string -> response :=
  canned [("/streams/1", Loads altitude_only)].

Definition loop_streamed : state :=
  mkState [BASE_API +:+ "/streams/1"]
    [ORide (mkRide (VInt 1) (VStr "Loop") None [] (Some 1%nat));
     ORideStream (mkRideStream (VInt 1) (Some altitude_only))].

(** [v] is [None], a boolean or a number: a value [for] cannot iterate. *)
Definition is_scalar (v : value) : bool :=
  match v with
  | VNone | VBool _ | VInt _ | VFloat _ => true
  | _ => false
  end.

(** The path [Athlete.rides] requests. *)
Definition listing_path (o : AthleteObj) (start : option Z) : string :=
  match start with
  | Some d => Athlete_url o +:+ "&startDate=" +:+ isoformat d
  | None => Athlete_url o
  end.

(** The listing is served again and again. *)
Definition listed_twice : state :=
  mkState [BASE_API +:+ "/rides?athleteId=7"; BASE_API +:+ "/rides?athleteId=7"]
    [athlete_7; ORide loop_ride; ORide loop_ride].

(** A listing that is a number, and one whose entry is a number. *)
Definition numeric_listing : list string -> string -> response :=
  canned [("/rides?athleteId=7", Loads (dict [("rides", VInt 3)]))].

Definition numeric_entry : list string -> string -> response :=
  canned [("/rides?athleteId=7", Loads (dict [("rides", VList [loop_entry; VInt 3])]))].

(** An entry of an effort listing with its "id", "segment" and
    "elapsed_time". *)
Definition effort_of (e : value) (t : value * value * value) : Prop :=
  getitem e "id" = Ret t.1.1 /\
  getitem e "segment" = Ret t.1.2 /\
  getitem e "elapsed_time" = Ret t.2.

(** The instance [Segment(entry)] ends as. *)
Definition built_segment (t : value * value * value) : obj :=
  OSegment (mkSegment t.1.1 (Some t.1.2) (Some t.2) (Some None)).

(** A ride with its list of segments replaced. *)
Definition with_segments (o : RideObj) (gs : list ref) : RideObj :=
  mkRide (Ride_id o) (Ride_name o) (Ride_detail o) gs (Ride_stream o).

(** An effort listing whose second entry has no elapsed time. *)
Definition half_good_efforts : list string -> string -> response :=
  canned [("/rides/1/efforts",
           Loads (dict [("efforts",
                         VList [hawk_effort;
                                dict [("id", VInt 32); ("segment", hawk_hill)];
                                hawk_effort])]))].

(** Both halves of the detail of the effort on Hawk Hill. *)
Definition route_record : value :=
  dict [("distance", VInt 2700); ("averageGrade", VInt 5);
        ("elevationLow", VInt 40); ("elevationHigh", VInt 180)].

Definition hawk_service : list string -> string -> response :=
  canned [("/efforts/31", Loads (dict [("effort", effort_record)]));
          ("/segments/609", Loads (dict [("segment", route_record)]))].

Definition hawk_detailed : state :=
  mkState [BASE_API +:+ "/segments/609"; BASE_API +:+ "/efforts/31"]
    [OSegment (mkSegment (VInt 31) (Some hawk_hill) (Some (VInt 95)) (Some (Some 1%nat)));
     OSegmentDetail (mkSegmentDetail (VInt 609) (Some effort_record) (Some route_record))].

(** A computation that leaves the instance at [r] as it is. *)
Definition keeps (r : ref) {A} (c : M A) : Prop :=
  forall s x, heap s !! r = Some x -> heap (snd (c s)) !! r = Some x.

(** A body that is not text. *)
Definition not_text : response :=
  DecodeRaises (UnicodeDecodeError "'utf-8' codec can't decode byte 0xff in position 0").

(** Two listed rides; the detail of the second has no moving time. *)
Definition two_loops : state :=
  mkState [] [ORide loop_ride; ORide (mkRide (VInt 2) (VStr "Back") None [] None)].

Definition second_untimed : list string -> string -> response :=
  canned [("/rides?athleteId=7&startDate=2011-12-25", Loads (dict [("rides", VList two_entries)]));
          ("/rides/1", Loads (dict [("ride", hour_ride)]));
          ("/rides/2", Loads (dict [("ride", dict [("distance", VInt 30000)])]));
          ("/rides/3", Loads (dict [("ride", hour_ride)]))].

(** A segment whose embedded route has a name and no id. *)
Definition unnamed_route : SegmentObj :=
  mkSegment (VInt 31) (Some (dict [("name", VStr "Hawk Hill")])) (Some (VInt 95)) (Some None).

(** * Properties *)

(** ** Running a method *)

Lemma bind_ret {A B} (c : M A) (k : A -> M B) (s s' : state) (a : A) :
  c s = (Ret a, s') -> bind c k s = k a s'.
Proof. intros Hc. unfold bind. now rewrite Hc. Qed.

Lemma bind_raise {A B} (c : M A) (k : A -> M B) (s s' : state) (e : exn) :
  c s = (Raise e, s') -> bind c k s = (Raise e, s').
Proof. intros Hc. unfold bind. now rewrite Hc. Qed.

Lemma bind_ret_l {A B} (a : A) (k : A -> M B) (s : state) : bind (ret a) k s = k a s.
Proof. reflexivity. Qed.

Lemma bind_lift_ret {A B} (a : A) (k : A -> M B) (s : state) :
  bind (lift (Ret a)) k s = k a s.
Proof. reflexivity. Qed.

Lemma bind_assoc {A B C} (c : M A) (k : A -> M B) (k' : B -> M C) (s : state) :
  bind (bind c k) k' s = bind c (fun a => bind (k a) k') s.
Proof. unfold bind. now destruct (c s) as [[a|e] s']. Qed.

Lemma bind_inv {A B} (c : M A) (k : A -> M B) (s s1 : state) (b : B) :
  bind c k s = (Ret b, s1) -> exists a s', c s = (Ret a, s') /\ k a s' = (Ret b, s1).
Proof.
  unfold bind. destruct (c s) as [[a|e] s']; [eauto | discriminate].
Qed.

Lemma get_ride_inv (self : ref) (o : RideObj) (s s' : state) :
  get_ride self s = (Ret o, s') -> heap s !! self = Some (ORide o) /\ s' = s.
Proof.
  unfold get_ride. destruct (heap s !! self) as [[]|]; try discriminate.
  now intros [= -> ->].
Qed.

Lemma get_stream_ok (self : ref) (o : RideStreamObj) (s : state) :
  heap s !! self = Some (ORideStream o) -> get_stream self s = (Ret o, s).
Proof. intros Hs. unfold get_stream. now rewrite Hs. Qed.

Lemma get_detail_ok (self : ref) (o : RideDetailObj) (s : state) :
  heap s !! self = Some (ORideDetail o) -> get_detail self s = (Ret o, s).
Proof. intros Hs. unfold get_detail. now rewrite Hs. Qed.

Lemma get_ride_ok (self : ref) (o : RideObj) (s : state) :
  heap s !! self = Some (ORide o) -> get_ride self s = (Ret o, s).
Proof. intros Hs. unfold get_ride. now rewrite Hs. Qed.

Lemma get_segment_ok (self : ref) (o : SegmentObj) (s : state) :
  heap s !! self = Some (OSegment o) -> get_segment self s = (Ret o, s).
Proof. intros Hs. unfold get_segment. now rewrite Hs. Qed.

Lemma get_segment_detail_ok (self : ref) (o : SegmentDetailObj) (s : state) :
  heap s !! self = Some (OSegmentDetail o) -> get_segment_detail self s = (Ret o, s).
Proof. intros Hs. unfold get_segment_detail. now rewrite Hs. Qed.

Lemma get_athlete_ok (self : ref) (o : AthleteObj) (s : state) :
  heap s !! self = Some (OAthlete o) -> get_athlete self s = (Ret o, s).
Proof. intros Hs. unfold get_athlete. now rewrite Hs. Qed.

(** ** RideStream: tolerant accessors *)

Lemma try_get_values_mapping `{Env} (self : ref) (oid : value)
    (d : gmap string value) (key : string) (s : state) :
  heap s !! self = Some (ORideStream (mkRideStream oid (Some (VDict d)))) ->
  RideStream.try_get_values self key s = (Ret (default (VList []) (d !! key)), s).
Proof.
  intros Hself. unfold RideStream.try_get_values.
  rewrite (bind_ret _ _ _ _ _ (get_stream_ok _ _ _ Hself)). simpl.
  unfold bind, lift, ret, contains, getitem. simpl.
  destruct (d !! key) as [v|] eqn:Hk; simpl; reflexivity.
Qed.

(** C2: on a stream whose snapshot is a mapping, each of the fifteen named
    accessors returns the sequence stored under the key it queries, and the
    empty list when that key is absent; it never raises and changes
    nothing. *)
Theorem stream_accessors_tolerant `{Env} (self : ref) (oid : value)
    (d : gmap string value) (s : state)
    (Hself : heap s !! self = Some (ORideStream (mkRideStream oid (Some (VDict d))))) :
  RideStream.altitude self s = (Ret (default (VList []) (d !! "altitude")), s) /\
  RideStream.altitude_original self s
    = (Ret (default (VList []) (d !! "altitiude_original")), s) /\
  RideStream.cadence self s = (Ret (default (VList []) (d !! "cadence")), s) /\
  RideStream.distance self s = (Ret (default (VList []) (d !! "distance")), s) /\
  RideStream.grade_smooth self s = (Ret (default (VList []) (d !! "grade_smooth")), s) /\
  RideStream.heartrate self s = (Ret (default (VList []) (d !! "heartrate")), s) /\
  RideStream.latlng self s = (Ret (default (VList []) (d !! "latlng")), s) /\
  RideStream.moving self s = (Ret (default (VList []) (d !! "moving")), s) /\
  RideStream.outlier self s = (Ret (default (VList []) (d !! "outlier")), s) /\
  RideStream.resting self s = (Ret (default (VList []) (d !! "resting")), s) /\
  RideStream.temp self s = (Ret (default (VList []) (d !! "temp")), s) /\
  RideStream.time self s = (Ret (default (VList []) (d !! "time")), s) /\
  RideStream.total_elevation self s
    = (Ret (default (VList []) (d !! "total_elevation")), s) /\
  RideStream.watts_calc self s = (Ret (default (VList []) (d !! "watts_calc")), s) /\
  RideStream.velocity_smooth self s
    = (Ret (default (VList []) (d !! "velocity_smooth")), s).
Proof.
  repeat split; eapply try_get_values_mapping; exact Hself.
Qed.

Lemma stream_accessors_tolerant_witness :
  heap (one_stream altitude_only) !! 0%nat
    = Some (ORideStream (mkRideStream (VInt 1) (Some altitude_only))) /\
  @RideStream.altitude (double (canned []) 1) 0%nat (one_stream altitude_only)
    = (Ret (VList [VInt 10; VInt 20; VInt 30]), one_stream altitude_only) /\
  @RideStream.cadence (double (canned []) 1) 0%nat (one_stream altitude_only)
    = (Ret (VList []), one_stream altitude_only).
Proof.
  split; [reflexivity|].
  destruct (@stream_accessors_tolerant (double (canned []) 1) 0%nat (VInt 1)
              (list_to_map [("altitude", VList [VInt 10; VInt 20; VInt 30])])
              (one_stream altitude_only) eq_refl) as (Ha & _ & Hc & _).
  split; [exact Ha | exact Hc].
Defined.

(** C8: [altitude_original] queries the key spelled "altitiude_original".
    A snapshot that has the series only under "altitude_original" reads as
    the empty list, one that has "altitiude_original" reads as that
    value. *)
Theorem altitude_original_misspelled `{Env} (self : ref) (oid : value)
    (d : gmap string value) (s : state)
    (Hself : heap s !! self = Some (ORideStream (mkRideStream oid (Some (VDict d))))) :
  (forall v, d !! "altitude_original" = Some v -> d !! "altitiude_original" = None ->
     RideStream.altitude_original self s = (Ret (VList []), s)) /\
  (forall v, d !! "altitiude_original" = Some v ->
     RideStream.altitude_original self s = (Ret v, s)).
Proof.
  unfold RideStream.altitude_original.
  rewrite (try_get_values_mapping _ _ _ _ _ Hself).
  split; intros v Hv; [intros Hn; now rewrite Hn | now rewrite Hv].
Qed.

Lemma altitude_original_misspelled_witness :
  heap (one_stream well_spelled) !! 0%nat
    = Some (ORideStream (mkRideStream (VInt 1) (Some well_spelled))) /\
  @RideStream.altitude_original (double (canned []) 1) 0%nat (one_stream well_spelled)
    = (Ret (VList []), one_stream well_spelled) /\
  @RideStream.altitude_original (double (canned []) 1) 0%nat (one_stream misspelled)
    = (Ret (VList [VInt 5]), one_stream misspelled).
Proof.
  split; [reflexivity|]. split.
  - exact (proj1 (@altitude_original_misspelled (double (canned []) 1) 0%nat (VInt 1)
                    (list_to_map [("altitude_original", VList [VInt 1; VInt 2])])
                    (one_stream well_spelled) eq_refl)
             (VList [VInt 1; VInt 2]) eq_refl eq_refl).
  - exact (proj2 (@altitude_original_misspelled (double (canned []) 1) 0%nat (VInt 1)
                    (list_to_map [("altitiude_original", VList [VInt 5])])
                    (one_stream misspelled) eq_refl)
             (VList [VInt 5]) eq_refl).
Defined.

(** ** RideDetail: strict accessors *)

Lemma ride_detail_attr_ok (self : ref) (oid a : value) (s : state) :
  heap s !! self = Some (ORideDetail (mkRideDetail oid (Some a))) ->
  RideDetail._attr self s = (Ret a, s).
Proof.
  intros Hself. unfold RideDetail._attr.
  now rewrite (bind_ret _ _ _ _ _ (get_detail_ok _ _ _ Hself)).
Qed.

Lemma project_1 (a : value) (k : string) : getitem a k = project a [k].
Proof. now destruct a. Qed.

Lemma project_2 (a : value) (k1 k2 : string) :
  match getitem a k1 with
  | Ret x => getitem x k2
  | Raise e => Raise e
  end = project a [k1; k2].
Proof.
  destruct a; simpl; try reflexivity.
  destruct (d !! k1) as [x|]; [apply project_1 | reflexivity].
Qed.

(** C9: each accessor of a ride detail projects its fixed path out of the
    snapshot ([moving_time] reads the key "movingTime"), leaves the state
    alone, and a key missing from its mapping raises [KeyError] instead of
    giving a default. *)
Theorem ride_detail_projections (self : ref) (oid a : value) (s : state)
    (Hself : heap s !! self = Some (ORideDetail (mkRideDetail oid (Some a)))) :
  (RideDetail.athlete self s = (project a ["athlete"; "name"], s) /\
   RideDetail.athlete_id self s = (project a ["athlete"; "id"], s) /\
   RideDetail.bike self s = (project a ["bike"; "name"], s) /\
   RideDetail.bike_id self s = (project a ["bike"; "id"], s) /\
   RideDetail.location self s = (project a ["location"], s) /\
   RideDetail.distance self s = (project a ["distance"], s) /\
   RideDetail.moving_time self s = (project a ["movingTime"], s)) /\
  (forall x : value, project x [] = Ret x) /\
  (forall d k x path, d !! k = Some x ->
     project (VDict d) (k :: path) = project x path) /\
  (forall d k path, d !! k = None ->
     project (VDict d) (k :: path) = Raise (KeyError k)).
Proof.
  pose proof (ride_detail_attr_ok _ _ _ _ Hself) as Ha.
  split; [|split; [reflexivity|split]].
  - unfold RideDetail.athlete, RideDetail.athlete_id, RideDetail.bike,
      RideDetail.bike_id, RideDetail.location, RideDetail.distance,
      RideDetail.moving_time.
    rewrite !(bind_ret _ _ _ _ _ Ha). unfold bind, lift.
    rewrite <- !project_2, <- !project_1.
    repeat split; try reflexivity.
    all: match goal with |- context [getitem ?a ?k] => destruct (getitem a k) end.
    all: reflexivity.
  - intros d k x path Hk. simpl. now rewrite Hk.
  - intros d k path Hk. simpl. now rewrite Hk.
Qed.

Lemma ride_detail_projections_witness :
  heap (one_detail sample_ride) !! 0%nat
    = Some (ORideDetail (mkRideDetail (VInt 1) (Some sample_ride))) /\
  RideDetail.athlete 0%nat (one_detail sample_ride)
    = (Ret (VStr "Craig"), one_detail sample_ride) /\
  RideDetail.bike 0%nat (one_detail sample_ride)
    = (Raise (KeyError "name"), one_detail sample_ride) /\
  RideDetail.moving_time 0%nat (one_detail sample_ride)
    = (Raise (KeyError "movingTime"), one_detail sample_ride).
Proof.
  split; [reflexivity|].
  destruct (ride_detail_projections 0%nat (VInt 1)
              sample_ride (one_detail sample_ride) eq_refl)
    as ((Ha & _ & Hb & _ & _ & _ & Hm) & _).
  split; [exact Ha | split; [exact Hb | exact Hm]].
Defined.

(** ** StravaObject.load: which failures become APIError *)

(** C3, as stated, fails: a network error makes [urlopen] raise a
    [URLError] that is not an [HTTPError], and [load] lets it through. *)
Lemma load_network_error_escapes :
  @StravaObject.load (double (scripted [UrlopenRaises connection_refused]) 1)
     "/rides/1" (Some "ride") empty_state
   = (Raise connection_refused, mkState [BASE_API +:+ "/rides/1"] []) /\
  (forall msg, connection_refused <> APIError msg).
Proof. split; [reflexivity | discriminate]. Qed.

(** So does the [TypeError] of subscripting a decoded body that is not a
    mapping. *)
Example load_key_of_list :
  @StravaObject.load (double (scripted [Loads (VList [])]) 1)
     "/rides/1" (Some "ride") empty_state
   = (Raise TypeError, mkState [BASE_API +:+ "/rides/1"] []).
Proof. reflexivity. Qed.

(** Nor is every failure of [json.loads] a [ValueError]: the
    [RecursionError] of a body nested too deeply passes the
    [except (ValueError, KeyError)] clause. *)
Example load_deep_body_escapes :
  @StravaObject.load (double (scripted [LoadsRaises too_deep]) 1)
     "/rides/1" (Some "ride") empty_state
   = (Raise too_deep, mkState [BASE_API +:+ "/rides/1"] []).
Proof. reflexivity. Qed.

(** C3, amended: [load] makes exactly one request and raises [APIError],
    with the requested path and the cause in its message, when [urlopen]
    raises [HTTPError], when [json.loads] raises a [ValueError] (the body
    is not JSON), and when the key is given and missing from the decoded
    mapping; otherwise it returns the decoded value (or the value under the
    key).  Every other exception propagates as it is: one of [urlopen]
    that is not an [HTTPError], and one of [json.loads] that is neither a
    [ValueError] nor a [KeyError], such as a [RecursionError]. *)
Theorem load_unified_error `{Env} (url : string) (key : option string) (s : state) :
  let r := urlopen (requests s) (BASE_API +:+ url) in
  let s' := mkState ((BASE_API +:+ url) :: requests s) (heap s) in
  (forall m, r = UrlopenRaises (HTTPError m) ->
     StravaObject.load url key s
       = (Raise (APIError (url +:+ ": request failed: " +:+ m)), s')) /\
  (forall m, r = LoadsRaises (ValueError m) ->
     StravaObject.load url key s
       = (Raise (APIError (url +:+ ": parsing response failed: " +:+ m)), s')) /\
  (forall d k, r = Loads (VDict d) -> key = Some k -> d !! k = None ->
     StravaObject.load url key s
       = (Raise (APIError (url +:+ ": parsing response failed: " +:+ py_repr k)), s')) /\
  (forall d k v, r = Loads (VDict d) -> key = Some k -> d !! k = Some v ->
     StravaObject.load url key s = (Ret v, s')) /\
  (forall v, r = Loads v -> key = None -> StravaObject.load url key s = (Ret v, s')) /\
  (forall e, r = UrlopenRaises e -> (forall m, e <> HTTPError m) ->
     StravaObject.load url key s = (Raise e, s')) /\
  (forall e, r = LoadsRaises e ->
     (forall m, e <> ValueError m) -> (forall m, e <> UnicodeDecodeError m) ->
     (forall k, e <> KeyError k) ->
     StravaObject.load url key s = (Raise e, s')) /\
  (forall m, r = LoadsRaises (RecursionError m) ->
     StravaObject.load url key s = (Raise (RecursionError m), s')).
Proof.
  intros r s'. subst r s'. unfold StravaObject.load.
  repeat split.
  - intros m ->. reflexivity.
  - intros m ->. reflexivity.
  - intros d k -> -> Hk. simpl. now rewrite Hk.
  - intros d k v -> -> Hk. simpl. now rewrite Hk.
  - intros v -> ->. reflexivity.
  - intros e -> He. destruct e; try reflexivity. now destruct (He msg).
  - intros e -> Hv Hu Hk. destruct e; try reflexivity.
    + now destruct (Hu msg).
    + now destruct (Hv msg).
    + now destruct (Hk key0).
  - intros m ->. reflexivity.
Qed.

Lemma load_unified_error_witness :
  @StravaObject.load (double (scripted [not_found]) 1) "/rides/1" (Some "ride") empty_state
    = (Raise (APIError "/rides/1: request failed: HTTP Error 404: Not Found"),
       mkState [BASE_API +:+ "/rides/1"] []) /\
  @StravaObject.load (double (scripted [not_json]) 1) "/rides/1" (Some "ride") empty_state
    = (Raise (APIError
                "/rides/1: parsing response failed: Expecting value: line 1 column 1 (char 0)"),
       mkState [BASE_API +:+ "/rides/1"] []) /\
  @StravaObject.load (double (scripted [no_ride_key]) 1) "/rides/1" (Some "ride") empty_state
    = (Raise (APIError "/rides/1: parsing response failed: 'ride'"),
       mkState [BASE_API +:+ "/rides/1"] []) /\
  @StravaObject.load (double (scripted [LoadsRaises too_deep]) 1) "/rides/1" (Some "ride")
     empty_state
    = (Raise too_deep, mkState [BASE_API +:+ "/rides/1"] []).
Proof.
  split; [|split; [|split]].
  - exact (proj1 (@load_unified_error (double (scripted [not_found]) 1)
                    "/rides/1" (Some "ride") empty_state)
             "HTTP Error 404: Not Found" eq_refl).
  - exact (proj1 (proj2 (@load_unified_error (double (scripted [not_json]) 1)
                           "/rides/1" (Some "ride") empty_state))
             "Expecting value: line 1 column 1 (char 0)" eq_refl).
  - exact (proj1 (proj2 (proj2 (@load_unified_error (double (scripted [no_ride_key]) 1)
                                  "/rides/1" (Some "ride") empty_state)))
             (list_to_map [("error", VStr "Invalid ride")]) "ride" eq_refl eq_refl eq_refl).
  - refine (proj1 (proj2 (proj2 (proj2 (proj2 (proj2 (proj2
              (@load_unified_error (double (scripted [LoadsRaises too_deep]) 1)
                 "/rides/1" (Some "ride") empty_state)))))))
             too_deep eq_refl _ _ _); discriminate.
Defined.

(** ** The heap: fresh instances *)

Lemma lookup_fresh (h : list obj) (o : obj) : (h ++ [o]) !! length h = Some o.
Proof. now apply list_lookup_middle. Qed.

Lemma store_fresh (h : list obj) (o o' : obj) :
  <[length h := o']> (h ++ [o]) = h ++ [o'].
Proof.
  rewrite insert_app_r_alt by lia. now rewrite Nat.sub_diag.
Qed.

Lemma lookup_old (h : list obj) (o x : obj) (r : ref) :
  h !! r = Some x -> (h ++ [o]) !! r = Some x.
Proof. apply lookup_app_l_Some. Qed.

(** A request changes the log and nothing else. *)
Lemma load_state `{Env} (url : string) (key : option string) (s : state) :
  snd (StravaObject.load url key s)
    = mkState ((BASE_API +:+ url) :: requests s) (heap s).
Proof.
  unfold StravaObject.load.
  destruct (urlopen (requests s) (BASE_API +:+ url)) as [e|e|e|v]; try reflexivity.
  - now destruct e.
  - now destruct (StravaObject.parsing_failed e).
  - destruct key as [k|]; [|reflexivity].
    destruct (getitem v k) as [x|e]; [reflexivity|]. now destruct e.
Qed.

Lemma load_run `{Env} (url : string) (key : option string) (s : state) :
  StravaObject.load url key s
    = (fst (StravaObject.load url key s),
       mkState ((BASE_API +:+ url) :: requests s) (heap s)).
Proof.
  pose proof (load_state url key s) as Hs.
  destruct (StravaObject.load url key s) as [r s1]. simpl in *. now subst.
Qed.

Lemma load_fetch `{Env} (url : string) (key : option string) (s : state) :
  fst (StravaObject.load url key s) = fetch url key (requests s).
Proof.
  unfold fetch, StravaObject.load. simpl.
  destruct (urlopen (requests s) (BASE_API +:+ url)) as [e|e|e|v]; try reflexivity.
  - now destruct e.
  - now destruct (StravaObject.parsing_failed e).
  - destruct key as [k|]; [|reflexivity].
    destruct (getitem v k) as [x|e]; [reflexivity|]. now destruct e.
Qed.

(** A fetch that returns has decoded a body, and returns it or the value
    under the key. *)
Lemma fetch_ret_inv `{Env} (url : string) (key : option string) (log : list string)
    (x : value) :
  fetch url key log = Ret x ->
  exists body, urlopen log (BASE_API +:+ url) = Loads body /\
    match key with
    | None => x = body
    | Some k => getitem body k = Ret x
    end.
Proof.
  unfold fetch, StravaObject.load. cbn [requests fst].
  destruct (urlopen log (BASE_API +:+ url)) as [e|e|e|v].
  - now destruct e.
  - discriminate.
  - now destruct (StravaObject.parsing_failed e).
  - intros Hx. exists v. split; [reflexivity|].
    destruct key as [k|]; [|now injection Hx].
    destruct (getitem v k) as [y|e]; [now injection Hx as ->|]. now destruct e.
Qed.

Lemma load_run_fetch `{Env} (url : string) (key : option string) (s : state) :
  StravaObject.load url key s
    = (fetch url key (requests s),
       mkState ((BASE_API +:+ url) :: requests s) (heap s)).
Proof. rewrite load_run. now rewrite load_fetch. Qed.

(** ** Ride.detail: one fetch, one instance *)

(** [RideDetail(oid)]: the new instance is the next reference; when the
    fetch raises, the instance is left without its snapshot. *)
Lemma ride_detail_new_run `{Env} (oid : value) (s : state) :
  let url := "/rides/" +:+ py_str oid in
  let log := (BASE_API +:+ url) :: requests s in
  RideDetail.new oid s =
    match fetch url (Some "ride") (requests s) with
    | Ret a =>
        (Ret (length (heap s)),
         mkState log (heap s ++ [ORideDetail (mkRideDetail oid (Some a))]))
    | Raise e =>
        (Raise e, mkState log (heap s ++ [ORideDetail (mkRideDetail oid None)]))
    end.
Proof.
  intros url log. unfold RideDetail.new, alloc. unfold bind at 1.
  unfold bind at 1. rewrite load_run_fetch. simpl.
  destruct (fetch _ _ _) as [a|e]; [|reflexivity].
  unfold RideDetail.set_attr, bind, get_detail, store, ret. simpl.
  rewrite lookup_fresh. simpl. now rewrite store_fresh.
Qed.

Lemma repeatedly_stable {A} (c : M A) (s : state) (a : A) (n : nat) :
  c s = (Ret a, s) -> repeatedly n c s = (Ret (replicate n a), s).
Proof.
  intros Hc. induction n as [|n IH]; [reflexivity|].
  simpl. rewrite (bind_ret _ _ _ _ _ Hc), (bind_ret _ _ _ _ _ IH). reflexivity.
Qed.

Lemma ride_detail_cached `{Env} (self : ref) (o : RideObj) (d : ref) (s : state) :
  heap s !! self = Some (ORide o) -> Ride_detail o = Some d ->
  Ride.detail self s = (Ret d, s).
Proof.
  intros Hself Hd. unfold Ride.detail.
  rewrite (bind_ret _ _ _ _ _ (get_ride_ok _ _ _ Hself)). now rewrite Hd.
Qed.

Lemma ride_id_ok (self : ref) (o : RideObj) (s : state) :
  heap s !! self = Some (ORide o) -> Ride.id self s = (Ret (Ride_id o), s).
Proof.
  intros Hself. unfold Ride.id.
  now rewrite (bind_ret _ _ _ _ _ (get_ride_ok _ _ _ Hself)).
Qed.

Lemma segment_id_ok (self : ref) (o : SegmentObj) (s : state) :
  heap s !! self = Some (OSegment o) -> Segment.id self s = (Ret (Segment_id o), s).
Proof.
  intros Hself. unfold Segment.id.
  now rewrite (bind_ret _ _ _ _ _ (get_segment_ok _ _ _ Hself)).
Qed.

Lemma ride_detail_first `{Env} (self : ref) (o : RideObj) (s : state) :
  heap s !! self = Some (ORide o) -> Ride_detail o = None ->
  let url := "/rides/" +:+ py_str (Ride_id o) in
  let log := (BASE_API +:+ url) :: requests s in
  let partial := ORideDetail (mkRideDetail (Ride_id o) None) in
  Ride.detail self s =
    match fetch url (Some "ride") (requests s) with
    | Ret a =>
        (Ret (length (heap s)),
         mkState log
           (<[self := ORide (mkRide (Ride_id o) (Ride_name o) (Some (length (heap s)))
                               (Ride_segments o) (Ride_stream o))]>
              (heap s ++ [ORideDetail (mkRideDetail (Ride_id o) (Some a))])))
    | Raise e => (Raise e, mkState log (heap s ++ [partial]))
    end.
Proof.
  intros Hself Hd url log partial. unfold Ride.detail.
  rewrite (bind_ret _ _ _ _ _ (get_ride_ok _ _ _ Hself)). rewrite Hd.
  rewrite (bind_ret _ _ _ _ _ (ride_id_ok _ _ _ Hself)).
  unfold bind at 1. rewrite ride_detail_new_run.
  fold url partial.
  destruct (fetch url _ _) as [a|e]; [|reflexivity].
  unfold Ride.set_detail, bind, get_ride, store, ret. simpl.
  now rewrite (lookup_old _ _ _ _ Hself).
Qed.

(** C1: once an access of [detail] has returned an instance, every later
    access returns that same instance and changes nothing, so it issues no
    request; and the access that found the field empty issued exactly one
    request, for /rides/<id>, and returned a new, fully built instance. *)
Theorem detail_fetched_once `{Env} (self : ref) (o : RideObj) (s s1 : state) (d : ref)
    (Hself : heap s !! self = Some (ORide o))
    (Hfirst : Ride.detail self s = (Ret d, s1)) :
  (forall n, repeatedly n (Ride.detail self) s1 = (Ret (replicate n d), s1)) /\
  (Ride_detail o = None ->
     requests s1 = (BASE_API +:+ "/rides/" +:+ py_str (Ride_id o)) :: requests s /\
     d = length (heap s) /\
     exists a, heap s1 !! d = Some (ORideDetail (mkRideDetail (Ride_id o) (Some a)))) /\
  (forall d', Ride_detail o = Some d' -> d = d' /\ s1 = s).
Proof.
  pose proof (lookup_lt_Some _ _ _ Hself) as Hlt.
  destruct (Ride_detail o) as [d'|] eqn:Hd.
  - rewrite (ride_detail_cached _ _ _ _ Hself Hd) in Hfirst.
    injection Hfirst as <- <-.
    split; [|split; [discriminate|]].
    + intros n. apply repeatedly_stable. now apply (ride_detail_cached _ o).
    + intros ? [= <-]. now split.
  - rewrite (ride_detail_first _ _ _ Hself Hd) in Hfirst.
    destruct (fetch _ _ _) as [a|e]; [|discriminate].
    injection Hfirst as <- <-.
    split; [|split; [|discriminate]].
    + intros n. apply repeatedly_stable.
      apply (ride_detail_cached self
               (mkRide (Ride_id o) (Ride_name o) (Some (length (heap s)))
                  (Ride_segments o) (Ride_stream o))); [|reflexivity].
      simpl. apply list_lookup_insert_eq. rewrite length_app. simpl. lia.
    + intros _. split; [reflexivity|]. split; [reflexivity|].
      exists a. simpl. rewrite list_lookup_insert_ne by lia. apply lookup_fresh.
Qed.

Lemma detail_fetched_once_witness :
  heap (mkState [] [ORide loop_ride]) !! 0%nat = Some (ORide loop_ride) /\
  @Ride.detail (double loop_service 1) 0%nat (mkState [] [ORide loop_ride])
    = (Ret 1%nat, loop_detailed) /\
  @repeatedly _ 3 (@Ride.detail (double loop_service 1) 0%nat) loop_detailed
    = (Ret [1%nat; 1%nat; 1%nat], loop_detailed) /\
  requests loop_detailed = [BASE_API +:+ "/rides/1"].
Proof.
  split; [reflexivity|]. split; [reflexivity|].
  destruct (@detail_fetched_once (double loop_service 1) 0%nat loop_ride
              (mkState [] [ORide loop_ride]) loop_detailed 1%nat eq_refl eq_refl)
    as (Hn & Hone & _).
  split; [exact (Hn 3%nat)|]. exact (proj1 (Hone eq_refl)).
Defined.

(** ** Computations that issue no request *)

Lemma quiet_ret {A} (a : A) : quiet (ret a).
Proof. now intros s. Qed.

Lemma quiet_raise {A} (e : exn) : quiet (@raise A e).
Proof. now intros s. Qed.

Lemma quiet_lift {A} (r : res A) : quiet (lift r).
Proof. now intros s. Qed.

Lemma quiet_attr {A} (name : string) (a : option A) : quiet (attr name a).
Proof. destruct a; [apply quiet_ret | apply quiet_raise]. Qed.

Lemma quiet_alloc (o : obj) : quiet (alloc o).
Proof. now intros s. Qed.

Lemma quiet_store (r : ref) (o : obj) : quiet (store r o).
Proof. now intros s. Qed.

Lemma quiet_get_ride (r : ref) : quiet (get_ride r).
Proof. intros s. unfold get_ride. now destruct (heap s !! r) as [[]|]. Qed.

Lemma quiet_get_segment (r : ref) : quiet (get_segment r).
Proof. intros s. unfold get_segment. now destruct (heap s !! r) as [[]|]. Qed.

Lemma quiet_bind {A B} (c : M A) (k : A -> M B) :
  quiet c -> (forall a, quiet (k a)) -> quiet (bind c k).
Proof.
  intros Hc Hk s. unfold bind. specialize (Hc s).
  destruct (c s) as [[a|e] s']; simpl in *; [|assumption].
  now rewrite Hk.
Qed.

Lemma quiet_after {A B} (c : M A) (k : A -> M B) (s : state) :
  (forall a, quiet (k a)) -> requests (snd (bind c k s)) = requests (snd (c s)).
Proof.
  intros Hk. unfold bind. destruct (c s) as [[a|e] s']; [apply Hk | reflexivity].
Qed.

Lemma quiet_for_each {A B} (xs : list A) (body : A -> B -> M B) (acc : B) :
  (forall x b, quiet (body x b)) -> quiet (for_each xs body acc).
Proof.
  intros Hbody. revert acc.
  induction xs as [|x xs IH]; intros acc; simpl.
  - apply quiet_ret.
  - apply quiet_bind; [apply Hbody | apply IH].
Qed.

Create HintDb quiet.

#[local] Hint Resolve quiet_ret quiet_raise quiet_lift quiet_attr quiet_alloc
  quiet_store quiet_get_ride quiet_get_segment : quiet.

Ltac quiet_steps :=
  repeat first [ apply quiet_bind; [|intros ?] | solve [auto with quiet] ].

Lemma quiet_segment_new (a : value) : quiet (Segment.new a).
Proof.
  unfold Segment.new, Segment.set_segment, Segment.set_time, Segment.set_detail.
  quiet_steps.
Qed.

Lemma quiet_append_segment (self g : ref) : quiet (Ride.append_segment self g).
Proof. unfold Ride.append_segment. quiet_steps. Qed.

(** ** Ride.segments: emptiness as the not-loaded sentinel *)

Lemma load_ok `{Env} (url k : string) (v x : value) (s : state) :
  urlopen (requests s) (BASE_API +:+ url) = Loads v -> getitem v k = Ret x ->
  StravaObject.load url (Some k) s
    = (Ret x, mkState ((BASE_API +:+ url) :: requests s) (heap s)).
Proof. intros Hr Hk. unfold StravaObject.load. now rewrite Hr, Hk. Qed.

Lemma segments_cached `{Env} (self : ref) (o : RideObj) (s : state) :
  heap s !! self = Some (ORide o) -> Ride_segments o <> [] ->
  Ride.segments self s = (Ret (Ride_segments o), s).
Proof.
  intros Hself Hne. unfold Ride.segments, bind, get_ride, ret.
  rewrite Hself. destruct (Ride_segments o) as [|g gs] eqn:Hl; [contradiction|].
  now rewrite Hself, Hl.
Qed.

Lemma segments_returns_field `{Env} (self : ref) (l : list ref) (s s1 : state) :
  Ride.segments self s = (Ret l, s1) ->
  exists o', heap s1 !! self = Some (ORide o') /\ Ride_segments o' = l.
Proof.
  unfold Ride.segments. intros Hrun.
  apply bind_inv in Hrun as (o & s0 & _ & Hrun).
  apply bind_inv in Hrun as ([] & s' & _ & Hrun).
  apply bind_inv in Hrun as (o' & s'' & Hget & Hret).
  apply get_ride_inv in Hget as [Ho' ->].
  injection Hret as <- <-. eauto.
Qed.

Lemma segments_unloaded_fetches `{Env} (self : ref) (o : RideObj) (s : state) :
  heap s !! self = Some (ORide o) -> Ride_segments o = [] ->
  requests (snd (Ride.segments self s))
    = (BASE_API +:+ "/rides/" +:+ py_str (Ride_id o) +:+ "/efforts") :: requests s.
Proof.
  intros Hself Hnil. unfold Ride.segments.
  rewrite (bind_ret _ _ _ _ _ (get_ride_ok _ _ _ Hself)), Hnil.
  rewrite quiet_after.
  2: { intros []. apply quiet_bind; [apply quiet_get_ride | intros; apply quiet_ret]. }
  rewrite (bind_ret _ _ _ _ _ (ride_id_ok _ _ _ Hself)).
  rewrite quiet_after; [now rewrite load_state|].
  intros listing. apply quiet_bind; [apply quiet_lift|].
  intros efforts. apply quiet_for_each. intros effort [].
  apply quiet_bind; [apply quiet_segment_new | intros; apply quiet_append_segment].
Qed.

(** C7: a ride whose effort listing comes back empty returns the empty
    list and stays unloaded, so the next access requests
    /rides/<id>/efforts again, whatever the service then answers; a
    non-empty result is kept, and later accesses return it without any
    request. *)
Theorem segments_empty_refetched `{Env} (self : ref) (o : RideObj) (s : state)
    (Hself : heap s !! self = Some (ORide o)) :
  let url := BASE_API +:+ "/rides/" +:+ py_str (Ride_id o) +:+ "/efforts" in
  (forall v, Ride_segments o = [] ->
     urlopen (requests s) url = Loads v -> getitem v "efforts" = Ret (VList []) ->
     Ride.segments self s = (Ret [], mkState (url :: requests s) (heap s)) /\
     requests (snd (Ride.segments self (mkState (url :: requests s) (heap s))))
       = url :: url :: requests s) /\
  (forall g gs s1, Ride.segments self s = (Ret (g :: gs), s1) ->
     forall n, repeatedly n (Ride.segments self) s1 = (Ret (replicate n (g :: gs)), s1)).
Proof.
  intros url. split.
  - intros v Hnil Hr Hk. split.
    + unfold Ride.segments.
      rewrite (bind_ret _ _ _ _ _ (get_ride_ok _ _ _ Hself)), Hnil.
      rewrite bind_assoc, (bind_ret _ _ _ _ _ (ride_id_ok _ _ _ Hself)).
      rewrite bind_assoc, (bind_ret _ _ _ _ _ (load_ok _ _ _ _ _ Hr Hk)).
      unfold bind, lift, get_ride, ret. simpl. now rewrite Hself, Hnil.
    + now rewrite (segments_unloaded_fetches self o).
  - intros g gs s1 Hrun n. apply repeatedly_stable.
    destruct (segments_returns_field _ _ _ _ Hrun) as (o' & Ho' & Hl).
    rewrite <- Hl. apply segments_cached; [assumption|]. now rewrite Hl.
Qed.

Lemma segments_empty_refetched_witness :
  heap (mkState [] [ORide loop_ride]) !! 0%nat = Some (ORide loop_ride) /\
  (@Ride.segments (double no_efforts 1) 0%nat (mkState [] [ORide loop_ride])
     = (Ret [], mkState [efforts_url] [ORide loop_ride]) /\
   requests (snd (@Ride.segments (double no_efforts 1) 0%nat
                    (mkState [efforts_url] [ORide loop_ride])))
     = [efforts_url; efforts_url]) /\
  @Ride.segments (double one_effort 1) 0%nat (mkState [] [ORide loop_ride])
    = (Ret [1%nat], loop_segmented) /\
  @repeatedly _ 2 (@Ride.segments (double one_effort 1) 0%nat) loop_segmented
    = (Ret [[1%nat]; [1%nat]], loop_segmented).
Proof.
  split; [reflexivity|]. split; [|split; [vm_compute; reflexivity|]].
  - exact (proj1 (@segments_empty_refetched (double no_efforts 1) 0%nat loop_ride
                    (mkState [] [ORide loop_ride]) eq_refl)
             (dict [("efforts", VList [])]) eq_refl eq_refl eq_refl).
  - exact (proj2 (@segments_empty_refetched (double one_effort 1) 0%nat loop_ride
                    (mkState [] [ORide loop_ride]) eq_refl)
             1%nat [] loop_segmented ltac:(vm_compute; reflexivity) 2%nat).
Defined.

(** ** SegmentDetail: two fetches or nothing *)

Lemma closed_spec (h : list obj) (r r' : ref) (o : obj) :
  closed h = true -> h !! r = Some o -> In r' (refs o) -> (r' < length h)%nat.
Proof.
  unfold closed. rewrite forallb_forall. intros Hc Hr Hin.
  assert (Ho : In o h) by (apply list_elem_of_In; eapply list_elem_of_lookup_2; eauto).
  specialize (Hc o Ho). rewrite forallb_forall in Hc.
  now apply Nat.ltb_lt, Hc.
Qed.

Lemma segment_detail_new_run `{Env} (route effort : value) (s : state) :
  let u1 := "/efforts/" +:+ py_str effort in
  let u2 := "/segments/" +:+ py_str route in
  let log1 := (BASE_API +:+ u1) :: requests s in
  let log2 := (BASE_API +:+ u2) :: log1 in
  let half a := heap s ++ [OSegmentDetail (mkSegmentDetail route a None)] in
  SegmentDetail.new route effort s =
    match fetch u1 (Some "effort") (requests s) with
    | Raise e => (Raise e, mkState log1 (half None))
    | Ret ea =>
        match fetch u2 (Some "segment") log1 with
        | Raise e => (Raise e, mkState log2 (half (Some ea)))
        | Ret sa =>
            (Ret (length (heap s)),
             mkState log2
               (heap s ++ [OSegmentDetail (mkSegmentDetail route (Some ea) (Some sa))]))
        end
    end.
Proof.
  intros u1 u2 log1 log2 half. unfold SegmentDetail.new, alloc.
  unfold bind at 1. unfold bind at 1. rewrite load_run_fetch. simpl.
  fold u1 (half None).
  destruct (fetch u1 _ _) as [ea|e]; [|reflexivity].
  unfold SegmentDetail.set_effort_attr at 1.
  unfold bind at 1. unfold bind at 1. unfold get_segment_detail at 1. simpl.
  unfold half at 1. rewrite lookup_fresh. unfold store at 1. simpl.
  unfold half at 1. rewrite store_fresh.
  unfold bind at 1. rewrite load_run_fetch. simpl. fold u2 (half (Some ea)) log1.
  destruct (fetch u2 _ _) as [sa|e]; [|reflexivity].
  unfold SegmentDetail.set_segment_attr, bind, get_segment_detail, store, ret. simpl.
  unfold half. rewrite lookup_fresh. simpl. now rewrite store_fresh.
Qed.

Lemma segment_detail_new_heap `{Env} (route effort : value) (s s1 : state) (d : ref) :
  SegmentDetail.new route effort s = (Ret d, s1) ->
  exists o, heap s1 = heap s ++ [o].
Proof.
  rewrite segment_detail_new_run.
  destruct (fetch _ _ _) as [ea|e]; [|discriminate].
  destruct (fetch _ _ _) as [sa|e]; [|discriminate].
  intros [= <- <-]. simpl. eauto.
Qed.

Lemma segment_detail_run `{Env} (self : ref) (eid g t route : value) (s : state) :
  heap s !! self = Some (OSegment (mkSegment eid (Some g) (Some t) (Some None))) ->
  getitem g "id" = Ret route ->
  Segment.detail self s =
    match SegmentDetail.new route eid s with
    | (Ret d, s1) =>
        (Ret d, mkState (requests s1)
                  (<[self := OSegment (mkSegment eid (Some g) (Some t) (Some (Some d)))]>
                     (heap s1)))
    | (Raise e, s1) => (Raise e, s1)
    end.
Proof.
  intros Hself Hroute. unfold Segment.detail.
  rewrite (bind_ret _ _ _ _ _ (get_segment_ok _ _ _ Hself)).
  cbn [attr Segment_detail Segment_segment]. rewrite !bind_ret_l.
  rewrite Hroute, bind_lift_ret.
  rewrite (bind_ret _ _ _ _ _ (segment_id_ok _ _ _ Hself)).
  cbn [Segment_id]. unfold bind at 1.
  destruct (SegmentDetail.new route eid s) as [[d|e] s1] eqn:Hnew; [|reflexivity].
  apply segment_detail_new_heap in Hnew as [o Hnew].
  unfold Segment.set_detail, bind, get_segment, store, ret.
  rewrite Hnew, (lookup_old _ _ _ _ Hself). simpl. now rewrite Hnew.
Qed.

Lemma unreferenced_fresh (h : list obj) (fresh : obj) :
  closed h = true -> refs fresh = [] ->
  forall r o, (h ++ [fresh]) !! r = Some o -> ~ In (length h) (refs o).
Proof.
  intros Hc Hfresh r o Hr Hin.
  destruct (decide (r < length h)%nat) as [Hlt|Hge].
  - rewrite lookup_app_l in Hr by assumption.
    pose proof (closed_spec _ _ _ _ Hc Hr Hin). lia.
  - apply lookup_lt_Some in Hr as Hlen. rewrite length_app in Hlen. simpl in Hlen.
    assert (r = length h) as -> by lia.
    rewrite lookup_fresh in Hr. injection Hr as <-. now rewrite Hfresh in Hin.
Qed.

(** C5: building a segment detail requests /efforts/<effort id> and then
    /segments/<route id>.  If the first fetch raises, or the first returns
    and the second raises, the constructor and [Segment.detail] raise that
    same exception; the segment keeps its detail field empty, the instances
    that existed are untouched and none of them refers to the unfinished
    instance.  If both return, the detail holds both snapshots and is
    cached in the segment. *)
Theorem segment_detail_all_or_nothing `{Env} (self : ref) (eid g t route : value)
    (s : state)
    (Hself : heap s !! self = Some (OSegment (mkSegment eid (Some g) (Some t) (Some None))))
    (Hroute : getitem g "id" = Ret route)
    (Hclosed : closed (heap s) = true) :
  let u1 := "/efforts/" +:+ py_str eid in
  let u2 := "/segments/" +:+ py_str route in
  let log1 := (BASE_API +:+ u1) :: requests s in
  let log2 := (BASE_API +:+ u2) :: log1 in
  let half a := heap s ++ [OSegmentDetail (mkSegmentDetail route a None)] in
  (forall e, fetch u1 (Some "effort") (requests s) = Raise e ->
     SegmentDetail.new route eid s = (Raise e, mkState log1 (half None)) /\
     Segment.detail self s = (Raise e, mkState log1 (half None))) /\
  (forall ea e, fetch u1 (Some "effort") (requests s) = Ret ea ->
     fetch u2 (Some "segment") log1 = Raise e ->
     SegmentDetail.new route eid s = (Raise e, mkState log2 (half (Some ea))) /\
     Segment.detail self s = (Raise e, mkState log2 (half (Some ea)))) /\
  (forall ea sa, fetch u1 (Some "effort") (requests s) = Ret ea ->
     fetch u2 (Some "segment") log1 = Ret sa ->
     Segment.detail self s =
       (Ret (length (heap s)),
        mkState log2
          (<[self := OSegment (mkSegment eid (Some g) (Some t) (Some (Some (length (heap s)))))]>
             (heap s ++ [OSegmentDetail (mkSegmentDetail route (Some ea) (Some sa))])))) /\
  (forall e s1, Segment.detail self s = (Raise e, s1) ->
     take (length (heap s)) (heap s1) = heap s /\
     heap s1 !! self = Some (OSegment (mkSegment eid (Some g) (Some t) (Some None))) /\
     forall r o, heap s1 !! r = Some o -> ~ In (length (heap s)) (refs o)).
Proof.
  cbv zeta.
  pose proof (segment_detail_run _ _ _ _ _ _ Hself Hroute) as Hrun.
  pose proof (segment_detail_new_run route eid s) as Hnew. cbv zeta in Hnew.
  rewrite Hnew in Hrun.
  assert (Hpartial : forall a log,
            let s1 := mkState log (heap s ++ [OSegmentDetail (mkSegmentDetail route a None)]) in
            take (length (heap s)) (heap s1) = heap s /\
            heap s1 !! self
              = Some (OSegment (mkSegment eid (Some g) (Some t) (Some None))) /\
            forall r o, heap s1 !! r = Some o -> ~ In (length (heap s)) (refs o)).
  { intros a log. simpl. split; [apply take_app_length|].
    split; [now apply lookup_old|]. now apply unreferenced_fresh. }
  split; [|split; [|split]].
  - intros e He. split; [rewrite Hnew | rewrite Hrun]; now rewrite He.
  - intros ea e He1 He2. split; [rewrite Hnew | rewrite Hrun]; now rewrite He1, He2.
  - intros ea sa He1 He2. rewrite Hrun, He1, He2. reflexivity.
  - intros e s1 Hraise. rewrite Hrun in Hraise.
    destruct (fetch _ (Some "effort") _) as [ea|e1].
    + destruct (fetch _ (Some "segment") _) as [sa|e2]; [discriminate|].
      injection Hraise as _ <-. apply Hpartial.
    + injection Hraise as _ <-. apply Hpartial.
Qed.

Lemma segment_detail_all_or_nothing_witness :
  heap (mkState [] [OSegment hawk_segment]) !! 0%nat = Some (OSegment hawk_segment) /\
  getitem hawk_hill "id" = Ret (VInt 609) /\
  closed (heap (mkState [] [OSegment hawk_segment])) = true /\
  @Segment.detail (double route_missing 1) 0%nat (mkState [] [OSegment hawk_segment])
    = (Raise (APIError "/segments/609: request failed: HTTP Error 404: Not Found"),
       route_failed) /\
  heap route_failed !! 0%nat = Some (OSegment hawk_segment).
Proof.
  split; [reflexivity|]. split; [reflexivity|]. split; [reflexivity|].
  pose proof (@segment_detail_all_or_nothing (double route_missing 1) 0%nat
                (VInt 31) hawk_hill (VInt 95) (VInt 609)
                (mkState [] [OSegment hawk_segment]) eq_refl eq_refl eq_refl)
    as (_ & Hsecond & _ & Hraise).
  pose proof (Hsecond effort_record
                (APIError "/segments/609: request failed: HTTP Error 404: Not Found")
                ltac:(vm_compute; reflexivity) ltac:(vm_compute; reflexivity))
    as [_ Hrun].
  split; [exact Hrun|]. exact (proj1 (proj2 (Hraise _ _ Hrun))).
Defined.

(** ** Athlete.rides and Athlete.ride *)

Lemma first_index_none {A} (f : A -> bool) (l : list A) :
  (forall x, In x l -> f x = false) -> first_index f l = None.
Proof.
  induction l as [|x l IH]; [reflexivity|]. intros Hall. simpl.
  rewrite (Hall x) by now left. rewrite IH; [reflexivity|].
  intros y Hy. apply Hall. now right.
Qed.

Lemma first_index_some {A} (f : A -> bool) (l : list A) (k : nat) (x : A) :
  l !! k = Some x -> f x = true ->
  (forall j y, (j < k)%nat -> l !! j = Some y -> f y = false) ->
  first_index f l = Some k.
Proof.
  revert k. induction l as [|y l IH]; intros k Hk Hx Hbefore; [discriminate|].
  destruct k as [|k]; simpl in *.
  - injection Hk as ->. now rewrite Hx.
  - rewrite (Hbefore O y) by (reflexivity || lia).
    rewrite (IH k Hk Hx); [reflexivity|].
    intros j z Hj Hz. apply (Hbefore (S j) z); [lia | exact Hz].
Qed.

Lemma rides_loop_ok (entries : list value) (ins : list (value * value)) :
  Forall2 entry_of entries ins ->
  forall (out : list ref) (s : state),
    for_each entries rides_body out s
      = (Ret (out ++ seq (length (heap s)) (length ins)),
         mkState (requests s) (heap s ++ map fresh_ride ins)).
Proof.
  induction 1 as [|e p entries ins [Hid Hname] _ IH]; intros out s.
  - simpl. unfold ret. rewrite !app_nil_r. now destruct s.
  - simpl. unfold rides_body at 1. rewrite Hid, bind_assoc, bind_lift_ret.
    rewrite Hname, bind_assoc, bind_lift_ret.
    unfold Ride.new. rewrite bind_assoc. unfold bind at 1, alloc at 1.
    rewrite bind_ret_l, IH. simpl.
    rewrite length_app, Nat.add_1_r, <- !app_assoc. reflexivity.
Qed.

Lemma rides_run `{Env} (self : ref) (o : AthleteObj) (start : option Z) (s : state)
    (v : value) (entries : list value) (ins : list (value * value)) :
  let url := match start with
             | Some d => Athlete_url o +:+ "&startDate=" +:+ isoformat d
             | None => Athlete_url o
             end in
  heap s !! self = Some (OAthlete o) ->
  urlopen (requests s) (BASE_API +:+ url) = Loads v ->
  getitem v "rides" = Ret (VList entries) ->
  Forall2 entry_of entries ins ->
  Athlete.rides self start s
    = (Ret (seq (length (heap s)) (length ins)),
       mkState ((BASE_API +:+ url) :: requests s) (heap s ++ map fresh_ride ins)).
Proof.
  intros url Hself Hresp Hkey Hentries. unfold Athlete.rides.
  rewrite (bind_ret _ _ _ _ _ (get_athlete_ok _ _ _ Hself)). fold url.
  rewrite (bind_ret _ _ _ _ _ (load_ok _ _ _ _ _ Hresp Hkey)).
  cbn [iter]. rewrite bind_lift_ret.
  exact (rides_loop_ok _ _ Hentries [] _).
Qed.

Lemma first_match_run `{Env} (ride_id : value) (ins : list (value * value)) :
  forall (pre : list obj) (s : state),
    heap s = pre ++ map fresh_ride ins ->
    Athlete.first_match (seq (length pre) (length ins)) ride_id s
      = (Ret (option_map (Nat.add (length pre))
                (first_index (fun p => py_eq p.1 ride_id) ins)), s).
Proof.
  induction ins as [|p ins IH]; intros pre s Hheap; [reflexivity|].
  simpl. assert (Hp : heap s !! length pre = Some (fresh_ride p)).
  { rewrite Hheap. now apply list_lookup_middle. }
  rewrite (bind_ret _ _ _ _ _ (ride_id_ok _ _ _ Hp)). simpl.
  destruct (py_eq p.1 ride_id).
  - unfold ret. simpl. now rewrite Nat.add_0_r.
  - specialize (IH (pre ++ [fresh_ride p]) s).
    rewrite length_app, Nat.add_1_r in IH. rewrite IH.
    + destruct (first_index _ ins) as [k|]; simpl; [|reflexivity].
      do 3 f_equal. lia.
    + rewrite Hheap, <- app_assoc. reflexivity.
Qed.

(** C6: [ride(ride_id)] requests the unfiltered listing of the athlete,
    builds a ride for every entry, and returns the ride of the first entry
    whose id equals [ride_id]; when no entry does, it returns [None] and
    raises nothing. *)
Theorem ride_first_match_or_none `{Env} (self : ref) (oid ride_id v : value)
    (s : state) (entries : list value) (ins : list (value * value))
    (Hself : heap s !! self
             = Some (OAthlete (mkAthlete oid ("/rides?athleteId=" +:+ py_str oid))))
    (Hresp : urlopen (requests s) (BASE_API +:+ "/rides?athleteId=" +:+ py_str oid)
             = Loads v)
    (Hkey : getitem v "rides" = Ret (VList entries))
    (Hentries : Forall2 entry_of entries ins) :
  let s1 := mkState ((BASE_API +:+ "/rides?athleteId=" +:+ py_str oid) :: requests s)
              (heap s ++ map fresh_ride ins) in
  ((forall p, In p ins -> py_eq p.1 ride_id = false) ->
     Athlete.ride self ride_id s = (Ret None, s1)) /\
  (forall k p, ins !! k = Some p -> py_eq p.1 ride_id = true ->
     (forall j q, (j < k)%nat -> ins !! j = Some q -> py_eq q.1 ride_id = false) ->
     Athlete.ride self ride_id s = (Ret (Some (length (heap s) + k)%nat), s1) /\
     heap s1 !! (length (heap s) + k)%nat = Some (fresh_ride p)).
Proof.
  intros s1.
  assert (Hrun : Athlete.ride self ride_id s
                 = (Ret (option_map (Nat.add (length (heap s)))
                           (first_index (fun p => py_eq p.1 ride_id) ins)), s1)).
  { unfold Athlete.ride.
    rewrite (bind_ret _ _ _ _ _
               (rides_run self _ None s v entries ins Hself Hresp Hkey Hentries)).
    now apply first_match_run. }
  split.
  - intros Hnone. rewrite Hrun, first_index_none; [reflexivity | exact Hnone].
  - intros k p Hk Hp Hbefore. split.
    + rewrite Hrun, (first_index_some _ _ k p Hk Hp Hbefore). reflexivity.
    + subst s1. simpl. rewrite lookup_app_r by lia.
      replace (length (heap s) + k - length (heap s))%nat with k by lia.
      rewrite list_lookup_fmap, Hk. reflexivity.
Qed.

Lemma ride_first_match_or_none_witness :
  heap (mkState [] [athlete_7]) !! 0%nat = Some athlete_7 /\
  Forall2 entry_of [loop_entry] [(VInt 1, VStr "Loop")] /\
  @Athlete.ride (double loop_service 1) 0%nat (VInt 2) (mkState [] [athlete_7])
    = (Ret None, listed) /\
  @Athlete.ride (double loop_service 1) 0%nat (VInt 1) (mkState [] [athlete_7])
    = (Ret (Some 1%nat), listed).
Proof.
  assert (Hentries : Forall2 entry_of [loop_entry] [(VInt 1, VStr "Loop")]).
  { repeat constructor. }
  split; [reflexivity|]. split; [exact Hentries|].
  split.
  - refine (proj1 (@ride_first_match_or_none (double loop_service 1) 0%nat (VInt 7)
                     (VInt 2) (dict [("rides", VList [loop_entry])])
                     (mkState [] [athlete_7]) [loop_entry] [(VInt 1, VStr "Loop")]
                     eq_refl eq_refl eq_refl Hentries) _).
    intros p [<-|[]]. reflexivity.
  - refine (proj1 (proj2 (@ride_first_match_or_none (double loop_service 1) 0%nat (VInt 7)
                     (VInt 1) (dict [("rides", VList [loop_entry])])
                     (mkState [] [athlete_7]) [loop_entry] [(VInt 1, VStr "Loop")]
                     eq_refl eq_refl eq_refl Hentries)
                    0%nat (VInt 1, VStr "Loop") eq_refl eq_refl _)).
    intros j q Hj. lia.
Defined.

(** ** Malformed listing entries *)

Lemma rides_loop_key_error (entries : list value) :
  forallb is_mapping entries = true ->
  existsb bad_ride_entry entries = true ->
  forall (out : list ref) (s : state),
  exists k s1,
    for_each entries rides_body out s = (Raise (KeyError k), s1) /\
    (k = "id" \/ k = "name") /\ requests s1 = requests s.
Proof.
  induction entries as [|e entries IH]; [discriminate|].
  simpl. intros [He Hall]%andb_prop Hbad out s.
  destruct e as [| | | | | |d]; try discriminate.
  unfold rides_body at 1. unfold bad_ride_entry in Hbad at 1. simpl in *.
  destruct (d !! "id") as [i|].
  - rewrite bind_assoc, bind_lift_ret.
    destruct (d !! "name") as [n|].
    + rewrite bind_assoc, bind_lift_ret. unfold Ride.new.
      rewrite bind_assoc. unfold bind at 1, alloc at 1. rewrite bind_ret_l.
      destruct (IH Hall Hbad (out ++ [length (heap s)])
                  (mkState (requests s) (heap s ++ [ORide (mkRide i n None [] None)])))
        as (k & s1 & Hrun & Hk & Hlog).
      exists k, s1. split; [exact Hrun | split; [exact Hk | exact Hlog]].
    + exists "name", s. repeat split. now right.
  - exists "id", s. repeat split. now left.
Qed.

Lemma segment_new_run (d : gmap string value) (s : state) :
  Segment.new (VDict d) s =
    match d !! "id" with
    | None => (Raise (KeyError "id"), s)
    | Some i =>
        let built g t c := mkState (requests s) (heap s ++ [OSegment (mkSegment i g t c)]) in
        match d !! "segment" with
        | None => (Raise (KeyError "segment"), built None None None)
        | Some g =>
            match d !! "elapsed_time" with
            | None => (Raise (KeyError "elapsed_time"), built (Some g) None None)
            | Some t => (Ret (length (heap s)), built (Some g) (Some t) (Some None))
            end
        end
    end.
Proof.
  unfold Segment.new. simpl.
  destruct (d !! "id") as [i|]; [|reflexivity]. rewrite bind_lift_ret.
  unfold bind at 1, alloc at 1.
  destruct (d !! "segment") as [g|]; [|reflexivity]. rewrite bind_lift_ret.
  unfold Segment.set_segment. rewrite bind_assoc. unfold bind at 1, get_segment at 1.
  cbn [heap]. rewrite lookup_fresh. unfold bind at 1, store at 1.
  cbn [heap requests Segment_id Segment_time Segment_detail]. rewrite store_fresh.
  destruct (d !! "elapsed_time") as [t|]; [|reflexivity]. rewrite bind_lift_ret.
  unfold Segment.set_time. rewrite bind_assoc. unfold bind at 1, get_segment at 1.
  cbn [heap]. rewrite lookup_fresh. unfold bind at 1, store at 1.
  cbn [heap requests Segment_id Segment_segment Segment_detail]. rewrite store_fresh.
  unfold Segment.set_detail. rewrite bind_assoc. unfold bind at 1, get_segment at 1.
  cbn [heap]. rewrite lookup_fresh. unfold bind at 1, store at 1.
  cbn [heap requests Segment_id Segment_segment Segment_time]. rewrite store_fresh.
  reflexivity.
Qed.

Lemma segments_loop_key_error (self : ref) (entries : list value) :
  forallb is_mapping entries = true ->
  existsb bad_effort_entry entries = true ->
  forall (s : state) (o : RideObj),
    heap s !! self = Some (ORide o) ->
    exists k s1,
      for_each entries (segments_body self) tt s = (Raise (KeyError k), s1) /\
      (k = "id" \/ k = "segment" \/ k = "elapsed_time") /\ requests s1 = requests s.
Proof.
  induction entries as [|e entries IH]; [discriminate|].
  simpl. intros [He Hall]%andb_prop Hbad s o Hself.
  destruct e as [| | | | | |d]; try discriminate.
  unfold segments_body at 1. unfold bad_effort_entry in Hbad at 1. simpl in Hbad.
  rewrite bind_assoc. unfold bind at 1. rewrite segment_new_run.
  destruct (d !! "id") as [i|]; [|exists "id", s; repeat split; now left].
  destruct (d !! "segment") as [g|];
    [|eexists "segment", _; repeat split; right; now left].
  destruct (d !! "elapsed_time") as [t|];
    [|eexists "elapsed_time", _; repeat split; right; now right].
  simpl in Hbad. cbv zeta.
  unfold Ride.append_segment. rewrite bind_assoc.
  unfold bind at 1, get_ride at 1. cbn [heap].
  rewrite (lookup_old _ _ _ _ Hself). unfold bind at 1, store at 1.
  cbn [heap requests].
  match goal with |- context [for_each entries _ tt ?s'] =>
    destruct (IH Hall Hbad s' (mkRide (Ride_id o) (Ride_name o) (Ride_detail o)
                                 (Ride_segments o ++ [length (heap s)]) (Ride_stream o)))
      as (k & s1 & Hrun & Hk & Hlog)
  end.
  - simpl. apply list_lookup_insert_eq. rewrite length_app.
    apply lookup_lt_Some in Hself. lia.
  - exists k, s1. split; [exact Hrun | split; [exact Hk | exact Hlog]].
Qed.

(** C10: when the listing was fetched and decoded and its entries are
    mappings, an entry without "id" or "name" makes [Athlete.rides] raise
    [KeyError], and an effort without "id", "segment" or "elapsed_time"
    makes [Ride.segments] raise [KeyError]: the lookup error of the missing
    key, not [APIError], after the one request of the listing. *)
Theorem malformed_entry_key_error `{Env} (self : ref) (s : state) (v : value)
    (entries : list value)
    (Hmappings : forallb is_mapping entries = true) :
  (forall (o : AthleteObj) (start : option Z),
     let url := match start with
                | Some d => Athlete_url o +:+ "&startDate=" +:+ isoformat d
                | None => Athlete_url o
                end in
     heap s !! self = Some (OAthlete o) ->
     urlopen (requests s) (BASE_API +:+ url) = Loads v ->
     getitem v "rides" = Ret (VList entries) ->
     existsb bad_ride_entry entries = true ->
     exists k s1,
       Athlete.rides self start s = (Raise (KeyError k), s1) /\
       (k = "id" \/ k = "name") /\
       (forall msg, KeyError k <> APIError msg) /\
       requests s1 = (BASE_API +:+ url) :: requests s) /\
  (forall (o : RideObj),
     let url := "/rides/" +:+ py_str (Ride_id o) +:+ "/efforts" in
     heap s !! self = Some (ORide o) ->
     Ride_segments o = [] ->
     urlopen (requests s) (BASE_API +:+ url) = Loads v ->
     getitem v "efforts" = Ret (VList entries) ->
     existsb bad_effort_entry entries = true ->
     exists k s1,
       Ride.segments self s = (Raise (KeyError k), s1) /\
       (k = "id" \/ k = "segment" \/ k = "elapsed_time") /\
       (forall msg, KeyError k <> APIError msg) /\
       requests s1 = (BASE_API +:+ url) :: requests s).
Proof.
  split.
  - intros o start url Hself Hresp Hkey Hbad. unfold Athlete.rides.
    rewrite (bind_ret _ _ _ _ _ (get_athlete_ok _ _ _ Hself)). fold url.
    rewrite (bind_ret _ _ _ _ _ (load_ok _ _ _ _ _ Hresp Hkey)).
    cbn [iter]. rewrite bind_lift_ret.
    destruct (rides_loop_key_error entries Hmappings Hbad []
                (mkState ((BASE_API +:+ url) :: requests s) (heap s)))
      as (k & s1 & Hrun & Hk & Hlog).
    exists k, s1. repeat split; try assumption. discriminate.
  - intros o url Hself Hnil Hresp Hkey Hbad. unfold Ride.segments.
    rewrite (bind_ret _ _ _ _ _ (get_ride_ok _ _ _ Hself)), Hnil.
    rewrite bind_assoc, (bind_ret _ _ _ _ _ (ride_id_ok _ _ _ Hself)). fold url.
    rewrite bind_assoc, (bind_ret _ _ _ _ _ (load_ok _ _ _ _ _ Hresp Hkey)).
    cbn [iter]. rewrite bind_assoc, bind_lift_ret.
    destruct (segments_loop_key_error self entries Hmappings Hbad
                (mkState ((BASE_API +:+ url) :: requests s) (heap s)) o Hself)
      as (k & s1 & Hrun & Hk & Hlog).
    exists k, s1. split; [|repeat split; try assumption; discriminate].
    unfold segments_body in Hrun. unfold bind at 1. now rewrite Hrun.
Qed.

Lemma malformed_entry_key_error_witness :
  (existsb bad_ride_entry [loop_entry; dict [("id", VInt 2)]] = true /\
   exists s1,
     @Athlete.rides (double malformed_service 1) 0%nat None (mkState [] [athlete_7])
       = (Raise (KeyError "name"), s1) /\
     requests s1 = [BASE_API +:+ "/rides?athleteId=7"]) /\
  (existsb bad_effort_entry [dict [("id", VInt 31); ("segment", hawk_hill)]] = true /\
   exists s1,
     @Ride.segments (double malformed_service 1) 0%nat (mkState [] [ORide loop_ride])
       = (Raise (KeyError "elapsed_time"), s1) /\
     requests s1 = [efforts_url]).
Proof.
  split; (split; [reflexivity|]).
  - destruct (proj1 (@malformed_entry_key_error (double malformed_service 1) 0%nat
                       (mkState [] [athlete_7]) nameless_listing
                       [loop_entry; dict [("id", VInt 2)]] eq_refl)
                (mkAthlete (VInt 7) "/rides?athleteId=7") None
                eq_refl eq_refl eq_refl eq_refl)
      as (k & s1 & Hrun & _ & _ & Hlog).
    exists s1. split; [|exact Hlog]. rewrite Hrun. vm_compute in Hrun.
    now injection Hrun as <- _.
  - destruct (proj2 (@malformed_entry_key_error (double malformed_service 1) 0%nat
                       (mkState [] [ORide loop_ride]) untimed_efforts
                       [dict [("id", VInt 31); ("segment", hawk_hill)]] eq_refl)
                loop_ride eq_refl eq_refl eq_refl eq_refl eq_refl)
      as (k & s1 & Hrun & _ & _ & Hlog).
    exists s1. split; [|exact Hlog]. rewrite Hrun. vm_compute in Hrun.
    now injection Hrun as <- _.
Defined.

(** ** Athlete.ride_stats *)

Lemma iadd_run (stats : gmap string float) (k : string) (v : value) (x : float) :
  to_float v = Ret x -> iadd stats k v = Ret (<[k := (read stats k + x)%float]> stats).
Proof. intros Hx. unfold iadd, float_add. now rewrite Hx. Qed.

Lemma float_of_one : to_float (VInt 1) = Ret 1%float.
Proof. reflexivity. Qed.

Lemma ride_detail_field (d : ref) (oid a : value) (k : string) (s : state) :
  heap s !! d = Some (ORideDetail (mkRideDetail oid (Some a))) ->
  (x <- RideDetail._attr d ;; lift (getitem x k)) s = (getitem a k, s).
Proof.
  intros Hd. now rewrite (bind_ret _ _ _ _ _ (ride_detail_attr_ok _ _ _ _ Hd)).
Qed.

Lemma stats_loop `{Env} (mt dist : value) (m d : float) :
  to_float mt = Ret m -> to_float dist = Ret d ->
  forall (ins : list (value * value)) (r0 : ref) (stats : gmap string float) (s : state),
    (forall k p, ins !! k = Some p -> heap s !! (r0 + k)%nat = Some (fresh_ride p)) ->
    details_are ins mt dist ->
    exists stats' s1,
      for_each (seq r0 (length ins)) stats_body stats s = (Ret stats', s1) /\
      read stats' "rides" = add_times (length ins) 1 (read stats "rides") /\
      read stats' "moving_time" = add_times (length ins) m (read stats "moving_time") /\
      read stats' "distance" = add_times (length ins) d (read stats "distance") /\
      requests s1 = rev (map detail_url ins) ++ requests s.
Proof.
  intros Hm Hd. induction ins as [|p ins IH]; intros r0 stats s Hfresh Hdetails.
  - exists stats, s. now repeat split.
  - destruct (Hdetails (requests s) p (or_introl eq_refl)) as (record & Hrec & Hmt & Hdist).
    assert (Hp : heap s !! r0 = Some (fresh_ride p)).
    { rewrite <- (Nat.add_0_r r0). now apply Hfresh. }
    pose proof (lookup_lt_Some _ _ _ Hp) as Hlt.
    pose proof (ride_detail_first r0 _ s Hp eq_refl) as Hfirst.
    cbv zeta in Hfirst. cbn [fresh_ride Ride_id Ride_name Ride_segments Ride_stream] in Hfirst.
    rewrite Hrec in Hfirst.
    set (cached := ORide (mkRide p.1 p.2 (Some (length (heap s))) [] None)) in *.
    set (s' := mkState _ (<[r0 := cached]> _)) in *.
    assert (Hr0 : heap s' !! r0 = Some cached).
    { apply list_lookup_insert_eq. rewrite length_app. simpl. lia. }
    assert (Hdet : heap s' !! length (heap s)
                   = Some (ORideDetail (mkRideDetail p.1 (Some record)))).
    { subst s'. cbn [heap]. rewrite list_lookup_insert_ne by lia. apply lookup_fresh. }
    destruct (IH (S r0)
                (<["distance" := (read (<["moving_time" := (read (<["rides" := (read stats "rides" + 1)%float]> stats) "moving_time" + m)%float]> (<["rides" := (read stats "rides" + 1)%float]> stats)) "distance" + d)%float]>
                   (<["moving_time" := (read (<["rides" := (read stats "rides" + 1)%float]> stats) "moving_time" + m)%float]>
                      (<["rides" := (read stats "rides" + 1)%float]> stats)))
                s')
      as (stats' & s1 & Hrun & Hrides & Htime & Hdistance & Hlog).
    { intros k q Hq. subst s'. cbn [heap].
      pose proof (Hfresh (S k) q Hq) as Hq'.
      pose proof (lookup_lt_Some _ _ _ Hq') as Hlt'.
      rewrite list_lookup_insert_ne by lia.
      rewrite lookup_app_l by lia.
      now replace (S r0 + k)%nat with (r0 + S k)%nat by lia. }
    { intros log q Hq. apply Hdetails. now right. }
    exists stats', s1. split; [|split; [|split; [|split]]].
    + cbn [length seq for_each]. unfold stats_body at 1.
      rewrite (iadd_run _ _ _ _ float_of_one), bind_assoc, bind_lift_ret.
      rewrite bind_assoc, (bind_ret _ _ _ _ _ Hfirst).
      unfold RideDetail.moving_time.
      rewrite !bind_assoc, (bind_ret _ _ _ _ _ (ride_detail_attr_ok _ _ _ _ Hdet)).
      rewrite Hmt, bind_lift_ret.
      rewrite (iadd_run _ _ _ _ Hm), bind_assoc, bind_lift_ret.
      rewrite bind_assoc, (bind_ret _ _ _ _ _ (ride_detail_cached r0 _ _ _ Hr0 eq_refl)).
      unfold RideDetail.distance.
      rewrite !bind_assoc, (bind_ret _ _ _ _ _ (ride_detail_attr_ok _ _ _ _ Hdet)).
      rewrite Hdist, bind_lift_ret.
      rewrite (iadd_run _ _ _ _ Hd), bind_assoc, bind_lift_ret.
      rewrite bind_ret_l. exact Hrun.
    + rewrite Hrides. cbn [length add_times]. f_equal.
      unfold read. now rewrite !lookup_insert_ne, lookup_insert_eq by done.
    + rewrite Htime. cbn [length add_times]. f_equal.
      unfold read. rewrite lookup_insert_ne, lookup_insert_eq by done.
      now rewrite lookup_insert_ne by done.
    + rewrite Hdistance. cbn [length add_times]. f_equal.
      unfold read. rewrite lookup_insert_eq.
      now rewrite !lookup_insert_ne by done.
    + rewrite Hlog. subst s'. cbn [requests map rev]. now rewrite <- app_assoc.
Qed.

Lemma ride_stats_run `{Env} (self : ref) (oid mt dist v : value) (m d : float)
    (days start : Z) (s : state) (entries : list value) (ins : list (value * value)) :
  let url := "/rides?athleteId=" +:+ py_str oid +:+ "&startDate=" +:+ isoformat start in
  heap s !! self = Some (OAthlete (mkAthlete oid ("/rides?athleteId=" +:+ py_str oid))) ->
  timedelta days = Ret days -> date_sub today days = Ret start ->
  urlopen (requests s) (BASE_API +:+ url) = Loads v ->
  getitem v "rides" = Ret (VList entries) ->
  Forall2 entry_of entries ins ->
  details_are ins mt dist ->
  to_float mt = Ret m -> to_float dist = Ret d ->
  exists stats s1,
    Athlete.ride_stats self days s = (Ret stats, s1) /\
    read stats "rides" = add_times (length ins) 1 0 /\
    read stats "moving_time" = add_times (length ins) m 0 /\
    read stats "distance" = add_times (length ins) d 0 /\
    requests s1 = rev (map detail_url ins) ++ (BASE_API +:+ url) :: requests s.
Proof.
  intros url Hself Hdelta Hstart Hresp Hkey Hentries Hdetails Hm Hd.
  pose proof (rides_run self _ (Some start) s v entries ins Hself Hresp Hkey Hentries)
    as Hrides.
  cbn [Athlete_url] in Hrides. fold url in Hrides.
  destruct (stats_loop mt dist m d Hm Hd ins (length (heap s)) ∅
              (mkState ((BASE_API +:+ url) :: requests s) (heap s ++ map fresh_ride ins)))
    as (stats & s1 & Hrun & Hr & Ht & Hx & Hlog); [|exact Hdetails|].
  - intros k p Hk. cbn [heap]. rewrite lookup_app_r by lia.
    replace (length (heap s) + k - length (heap s))%nat with k by lia.
    now rewrite list_lookup_fmap, Hk.
  - exists stats, s1. split; [|now repeat split].
    unfold Athlete.ride_stats.
    rewrite Hdelta, bind_lift_ret, Hstart, bind_lift_ret.
    rewrite (bind_ret _ _ _ _ _ Hrides). exact Hrun.
Qed.

(** C4, as stated, fails: the totals are floats, and six additions of the
    distance 0.1 give the float 0.6, while 6 * 0.1 is the next float up,
    0.6000000000000001. *)
Lemma ride_stats_sum_is_not_product :
  exists stats s1,
    @Athlete.ride_stats (double six_rides 734503) 0%nat 7 (mkState [] [athlete_7])
      = (Ret stats, s1) /\
    stats !! "rides" = Some 6%float /\
    stats !! "distance" = Some 0x1.3333333333333p-1%float /\
    (6 * tenth)%float = 0x1.3333333333334p-1%float /\
    stats !! "distance" <> Some (6 * tenth)%float.
Proof.
  eexists _, _. split; [vm_compute; reflexivity|].
  split; [vm_compute; reflexivity|]. split; [vm_compute; reflexivity|].
  split; [vm_compute; reflexivity|].
  vm_compute. intros [= Heq].
Qed.

(** ** Integers as floats

    The totals of [ride_stats] are binary64 floats.  An integer below 2^53
    is a float exactly, and the sum of two such floats is the float of the
    sum as long as it stays below 2^53: the additions of [ride_stats] are
    then exact. *)

Lemma iter_pos_nat {A} (f : A -> A) (p : positive) (x : A) :
  SpecFloat.iter_pos f p x = Nat.iter (Pos.to_nat p) f x.
Proof.
  revert x. induction p as [p IH|p IH|]; intros x; cbn [SpecFloat.iter_pos].
  - rewrite !IH, Pos2Nat.inj_xI, Nat.iter_succ_r.
    replace (2 * Pos.to_nat p)%nat with (Pos.to_nat p + Pos.to_nat p)%nat by lia.
    now rewrite Nat.iter_add.
  - rewrite !IH, Pos2Nat.inj_xO.
    replace (2 * Pos.to_nat p)%nat with (Pos.to_nat p + Pos.to_nat p)%nat by lia.
    now rewrite Nat.iter_add.
  - reflexivity.
Qed.

Lemma digits_shl (k : nat) (m : positive) :
  Zpos (digits2_pos (shift_left k m)) = Zpos (digits2_pos m) + Z.of_nat k.
Proof.
  induction k as [|k IH]; [simpl; lia|].
  change (shift_left (S k) m) with (xO (shift_left k m)). cbn [digits2_pos].
  rewrite Pos2Z.inj_succ, IH. lia.
Qed.

Lemma shr_exact (k : nat) (m : positive) :
  Nat.iter k shr_1 (Build_shr_record (Zpos (shift_left k m)) false false)
    = Build_shr_record (Zpos m) false false.
Proof.
  induction k as [|k IH]; [reflexivity|].
  rewrite Nat.iter_succ_r. change (shift_left (S k) m) with (xO (shift_left k m)).
  cbn [shr_1 orb]. exact IH.
Qed.

Lemma shl_shl (j k : nat) (m : positive) : shift_left j (shift_left k m) = shift_left (j + k) m.
Proof. unfold shift_left. now rewrite Nat.iter_add. Qed.

Lemma shl_add (k : nat) (a b : positive) : (shift_left k a + shift_left k b = shift_left k (a + b))%positive.
Proof.
  induction k as [|k IH]; [reflexivity|].
  change (shift_left (S k) ?x) with (xO (shift_left k x)). now rewrite <- IH.
Qed.

Lemma digits_size (p : positive) : digits2_pos p = Pos.size p.
Proof. induction p; simpl; congruence. Qed.

Lemma digits_spec (p : positive) :
  2 ^ (Zpos (digits2_pos p)) <= 2 * Zpos p /\ Zpos p < 2 ^ (Zpos (digits2_pos p)).
Proof.
  rewrite digits_size.
  pose proof (Pos.size_le p) as Hle. pose proof (Pos.size_gt p) as Hgt.
  apply Pos2Z.pos_le_pos in Hle. apply Pos2Z.pos_lt_pos in Hgt.
  rewrite Pos2Z.inj_pow in Hle, Hgt. change (Zpos p~0) with (2 * Zpos p) in Hle.
  now split.
Qed.

Lemma digits_le (a c : positive) :
  Zpos a <= Zpos c -> Zpos (digits2_pos a) <= Zpos (digits2_pos c).
Proof.
  intros Hle. destruct (digits_spec a) as [Ha _]. destruct (digits_spec c) as [_ Hc].
  assert (H2 : 2 ^ Zpos (digits2_pos a) < 2 ^ (Zpos (digits2_pos c) + 1)).
  { rewrite Z.pow_add_r by lia. lia. }
  apply Z.pow_lt_mono_r_iff in H2; lia.
Qed.

Lemma digits_bound (c : positive) : Zpos c < 2 ^ 53 -> Zpos (digits2_pos c) <= 53.
Proof.
  intros Hlt. destruct (digits_spec c) as [Hc _].
  assert (H2 : 2 ^ Zpos (digits2_pos c) < 2 ^ 54) by lia.
  apply Z.pow_lt_mono_r_iff in H2; lia.
Qed.

Lemma fexp_normal (x : Z) : -1074 <= x - 53 -> fexp prec emax x = x - 53.
Proof. intros Hx. unfold fexp, SpecFloat.emin, prec, emax. lia. Qed.

Lemma shr_nat (r : shr_record) (e : Z) (k : nat) :
  shr r e (Z.of_nat k) = (Nat.iter k shr_1 r, e + Z.of_nat k).
Proof.
  destruct k as [|k].
  - simpl. now rewrite Z.add_0_r.
  - unfold shr. change (Z.of_nat (S k)) with (Zpos (Pos.of_succ_nat k)).
    cbv beta iota. rewrite iter_pos_nat, SuccNat2Pos.id_succ. reflexivity.
Qed.

Lemma round_canonical (m0 : positive) (e0 : Z) (k : nat) :
  Zpos (digits2_pos m0) = 53 -> -1074 <= e0 <= 971 ->
  binary_round_aux prec emax false (Zpos (shift_left k m0)) (e0 - Z.of_nat k) loc_Exact
    = S754_finite false m0 e0.
Proof.
  intros Hd He. unfold binary_round_aux.
  unfold shr_fexp at 1. cbn [Zdigits2 shr_record_of_loc].
  rewrite digits_shl, Hd, fexp_normal by lia.
  replace (53 + Z.of_nat k + (e0 - Z.of_nat k) - 53 - (e0 - Z.of_nat k))
    with (Z.of_nat k) by lia.
  rewrite shr_nat, shr_exact. cbn [shr_m loc_of_shr_record round_nearest_even].
  replace (e0 - Z.of_nat k + Z.of_nat k) with e0 by lia.
  unfold shr_fexp. cbn [Zdigits2 shr_record_of_loc].
  rewrite Hd, fexp_normal by lia.
  replace (53 + e0 - 53 - e0) with 0 by lia. cbn [shr shr_m].
  unfold prec, emax. destruct (Z.leb_spec e0 (1024 - 53)); [reflexivity | lia].
Qed.

Lemma binary_round_shifted (m0 : positive) (e0 : Z) (k : nat) :
  Zpos (digits2_pos m0) = 53 -> -1074 <= e0 <= 971 ->
  binary_round prec emax false (shift_left k m0) (e0 - Z.of_nat k) = S754_finite false m0 e0.
Proof.
  intros Hd He. unfold binary_round.
  rewrite digits_shl, Hd, fexp_normal by lia.
  replace (53 + Z.of_nat k + (e0 - Z.of_nat k) - 53) with e0 by lia.
  unfold shl_align. replace (e0 - (e0 - Z.of_nat k)) with (Z.of_nat k) by lia.
  destruct k as [|k];
    [change (Z.of_nat 0) with 0 at 1
    |change (Z.of_nat (S k)) with (Zpos (Pos.of_succ_nat k)) at 1];
    now apply round_canonical.
Qed.

Lemma shl_align_nat (m : positive) (e : Z) (j : nat) :
  shl_align m e (e - Z.of_nat j) = (shift_left j m, e - Z.of_nat j).
Proof.
  unfold shl_align. replace (e - Z.of_nat j - e) with (- Z.of_nat j) by lia.
  destruct j as [|j].
  - simpl. now rewrite Z.sub_0_r.
  - change (- Z.of_nat (S j)) with (Zneg (Pos.of_succ_nat j)).
    cbv beta iota. rewrite Pos2Nat.inj_iter, SuccNat2Pos.id_succ. reflexivity.
Qed.

Lemma shl_align_down (m : positive) (e e' : Z) :
  e' <= e -> shl_align m e e' = (shift_left (Z.to_nat (e - e')) m, e').
Proof.
  intros Hle. pose proof (shl_align_nat m e (Z.to_nat (e - e'))) as Hn.
  replace (e - Z.of_nat (Z.to_nat (e - e'))) with e' in Hn by lia. exact Hn.
Qed.

Lemma add_finite (ma mb : positive) (ea eb : Z) :
  SF64add (S754_finite false ma ea) (S754_finite false mb eb)
    = binary_normalize prec emax
        (Zpos (fst (shl_align ma ea (Z.min ea eb)))
         + Zpos (fst (shl_align mb eb (Z.min ea eb))))
        (Z.min ea eb) false.
Proof. reflexivity. Qed.

Lemma slack_spec (p : positive) :
  Zpos p < 2 ^ 53 -> Z.of_nat (slack p) = 53 - Zpos (digits2_pos p).
Proof. intros Hp. pose proof (digits_bound p Hp). unfold slack. lia. Qed.

Lemma canon_digits (p : positive) :
  Zpos p < 2 ^ 53 -> Zpos (digits2_pos (shift_left (slack p) p)) = 53.
Proof. intros Hp. rewrite digits_shl, slack_spec by assumption. lia. Qed.

Lemma slack_range (p : positive) : Zpos p < 2 ^ 53 -> 0 <= Z.of_nat (slack p) <= 52.
Proof. intros Hp. rewrite slack_spec by assumption. pose proof (digits_bound p Hp). lia. Qed.

Lemma normalize_pos (p : positive) :
  Zpos p < 2 ^ 53 -> binary_normalize prec emax (Zpos p) 0 false = canon p.
Proof.
  intros Hp. cbn [binary_normalize]. unfold binary_round.
  pose proof (slack_range p Hp) as Hs. pose proof (slack_spec p Hp) as Hj.
  rewrite fexp_normal by lia.
  replace (Zpos (digits2_pos p) + 0 - 53) with (0 - Z.of_nat (slack p)) by lia.
  rewrite shl_align_nat.
  replace (0 - Z.of_nat (slack p)) with (- Z.of_nat (slack p) - Z.of_nat 0) by (simpl; lia).
  change (shift_left (slack p) p) with (shift_left 0 (shift_left (slack p) p)).
  apply round_canonical; [now apply canon_digits | lia].
Qed.

Lemma canon_valid (p : positive) : Zpos p < 2 ^ 53 -> valid_binary (canon p) = true.
Proof.
  intros Hp. pose proof (slack_range p Hp) as Hs.
  unfold canon, SpecFloat.valid_binary, bounded, canonical_mantissa.
  rewrite canon_digits, fexp_normal by (assumption || lia).
  apply andb_true_intro. split; [apply Z.eqb_eq; lia|].
  unfold prec, emax. apply Z.leb_le. lia.
Qed.

Lemma canon_add (a b : positive) :
  Zpos (a + b) < 2 ^ 53 -> SF64add (canon a) (canon b) = canon (a + b).
Proof.
  intros Hc.
  assert (Ha : Zpos a < 2 ^ 53) by lia. assert (Hb : Zpos b < 2 ^ 53) by lia.
  pose proof (slack_spec _ Ha) as Hja. pose proof (slack_spec _ Hb) as Hjb.
  pose proof (slack_spec _ Hc) as Hjc.
  pose proof (digits_le a (a + b) ltac:(lia)) as Hda.
  pose proof (digits_le b (a + b) ltac:(lia)) as Hdb.
  pose proof (slack_range _ Hc) as Hsc.
  set (J := Nat.max (slack a) (slack b)).
  unfold canon at 1 2. rewrite add_finite.
  replace (Z.min (- Z.of_nat (slack a)) (- Z.of_nat (slack b))) with (- Z.of_nat J) by lia.
  rewrite !shl_align_down by lia. cbn [fst]. rewrite !shl_shl.
  replace (Z.to_nat (- Z.of_nat (slack a) - - Z.of_nat J)) with (J - slack a)%nat by lia.
  replace (Z.to_nat (- Z.of_nat (slack b) - - Z.of_nat J)) with (J - slack b)%nat by lia.
  replace (J - slack a + slack a)%nat with J by lia.
  replace (J - slack b + slack b)%nat with J by lia.
  rewrite <- Pos2Z.inj_add, shl_add. cbn [binary_normalize].
  replace J with ((J - slack (a + b)) + slack (a + b))%nat at 1 by lia.
  rewrite <- shl_shl.
  replace (- Z.of_nat J)
    with (- Z.of_nat (slack (a + b)) - Z.of_nat (J - slack (a + b))) by lia.
  apply binary_round_shifted; [now apply canon_digits | lia].
Qed.

Lemma float_of_spec (z : Z) :
  0 <= z < 2 ^ 53 ->
  Prim2SF (float_of z) = binary_normalize prec emax z 0 false.
Proof.
  intros Hz. unfold float_of. apply Prim2SF_SF2Prim.
  destruct z as [|p|p]; [reflexivity| |lia].
  rewrite normalize_pos by lia. apply canon_valid. lia.
Qed.

Lemma float_of_add (a b : Z) :
  0 <= a -> 0 <= b -> a + b < 2 ^ 53 ->
  (float_of a + float_of b)%float = float_of (a + b).
Proof.
  intros Ha Hb Hc. apply Prim2SF_inj.
  rewrite add_spec, !float_of_spec by lia.
  destruct a as [|a|a]; [|
    destruct b as [|b|b]; [| |lia] | lia].
  - destruct b as [|b|b]; [reflexivity| |lia].
    change (0 + Z.pos b) with (Z.pos b). rewrite normalize_pos by lia. reflexivity.
  - rewrite Z.add_0_r, normalize_pos by lia. reflexivity.
  - change (Z.pos a + Z.pos b) with (Z.pos (a + b)) in *.
    rewrite !normalize_pos by lia. now apply canon_add.
Qed.

Lemma float_of_Z_exact (z : Z) : 0 <= z < 2 ^ 53 -> float_of_Z z = Ret (float_of z).
Proof.
  intros Hz. unfold float_of_Z, float_of.
  destruct z as [|p|p]; [reflexivity| |lia].
  now rewrite normalize_pos by lia.
Qed.

Lemma add_times_exact (n : nat) (a : Z) :
  0 <= a -> forall acc,
    0 <= acc -> acc + Z.of_nat n * a < 2 ^ 53 ->
    add_times n (float_of a) (float_of acc) = float_of (acc + Z.of_nat n * a).
Proof.
  intros Ha. induction n as [|n IH]; intros acc Hacc Hlt.
  - simpl. f_equal. lia.
  - cbn [add_times]. rewrite float_of_add by nia. rewrite IH by nia. f_equal. lia.
Qed.

(** C4, amended: with K well-formed rides listed from the start date and a
    detail record of moving time M and distance D for each, [ride_stats]
    makes the listing request and then one detail request per ride, and
    the three totals are what K float additions of 1, M and D to 0.0 give.
    They are exactly K, K*M and K*D when M and D are non-negative integers
    and K, K*M and K*D are below 2^53. *)
Theorem ride_stats_totals `{Env} (self : ref) (oid mt dist v : value) (m d : float)
    (days start : Z) (s : state) (entries : list value) (ins : list (value * value))
    (Hself : heap s !! self
             = Some (OAthlete (mkAthlete oid ("/rides?athleteId=" +:+ py_str oid))))
    (Hdelta : timedelta days = Ret days)
    (Hstart : date_sub today days = Ret start)
    (Hresp : urlopen (requests s)
               (BASE_API +:+ "/rides?athleteId=" +:+ py_str oid
                  +:+ "&startDate=" +:+ isoformat start) = Loads v)
    (Hkey : getitem v "rides" = Ret (VList entries))
    (Hentries : Forall2 entry_of entries ins)
    (Hdetails : details_are ins mt dist)
    (Hm : to_float mt = Ret m)
    (Hd : to_float dist = Ret d) :
  let K := length ins in
  exists stats s1,
    Athlete.ride_stats self days s = (Ret stats, s1) /\
    requests s1
      = rev (map detail_url ins)
          ++ (BASE_API +:+ "/rides?athleteId=" +:+ py_str oid
                +:+ "&startDate=" +:+ isoformat start) :: requests s /\
    read stats "rides" = add_times K 1 0 /\
    read stats "moving_time" = add_times K m 0 /\
    read stats "distance" = add_times K d 0 /\
    (Z.of_nat K < 2 ^ 53 -> read stats "rides" = float_of (Z.of_nat K)) /\
    (forall a, mt = VInt a -> 0 <= a -> Z.of_nat K * a < 2 ^ 53 ->
       read stats "moving_time" = float_of (Z.of_nat K * a)) /\
    (forall b, dist = VInt b -> 0 <= b -> Z.of_nat K * b < 2 ^ 53 ->
       read stats "distance" = float_of (Z.of_nat K * b)).
Proof.
  intros K.
  destruct (ride_stats_run self oid mt dist v m d days start s entries ins
              Hself Hdelta Hstart Hresp Hkey Hentries Hdetails Hm Hd)
    as (stats & s1 & Hrun & Hr & Ht & Hx & Hlog).
  assert (Htotal : forall x a, to_float (VInt a) = Ret x -> 0 <= a ->
            Z.of_nat K * a < 2 ^ 53 -> add_times K x 0 = float_of (Z.of_nat K * a)).
  { intros x a Hxa Ha Hlt.
    assert (HK : (K = 0)%nat \/ (0 < K)%nat) by lia. destruct HK as [->|HK]; [reflexivity|].
    cbn [to_float] in Hxa. rewrite float_of_Z_exact in Hxa by nia.
    injection Hxa as <-. change 0%float with (float_of 0).
    now rewrite add_times_exact by lia. }
  exists stats, s1. fold K in Hr, Ht, Hx.
  split; [exact Hrun|]. split; [exact Hlog|]. split; [exact Hr|].
  split; [exact Ht|]. split; [exact Hx|]. split; [|split].
  - intros HK. rewrite Hr, <- (Z.mul_1_r (Z.of_nat K)).
    apply Htotal; [reflexivity | lia | lia].
  - intros a -> Ha Hlt. rewrite Ht. now apply Htotal.
  - intros b -> Hb Hlt. rewrite Hx. now apply Htotal.
Qed.

Lemma two_rides_details :
  @details_are (double two_rides 734503) [(VInt 1, VStr "Out"); (VInt 2, VStr "Back")]
    (VInt 3600) (VInt 30000).
Proof.
  intros log p [<-|[<-|[]]]; exists hour_ride; repeat split.
Defined.

Lemma ride_stats_totals_witness :
  Forall2 entry_of two_entries [(VInt 1, VStr "Out"); (VInt 2, VStr "Back")] /\
  timedelta 7 = Ret 7 /\
  date_sub 734503 7 = Ret 734496 /\
  exists stats s1,
    @Athlete.ride_stats (double two_rides 734503) 0%nat 7 (mkState [] [athlete_7])
      = (Ret stats, s1) /\
    requests s1 = [BASE_API +:+ "/rides/2"; BASE_API +:+ "/rides/1";
                   BASE_API +:+ "/rides?athleteId=7&startDate=2011-12-25"] /\
    read stats "rides" = 2%float /\
    read stats "moving_time" = 7200%float /\
    read stats "distance" = 60000%float.
Proof.
  assert (Hentries : Forall2 entry_of two_entries [(VInt 1, VStr "Out"); (VInt 2, VStr "Back")]).
  { repeat constructor. }
  split; [exact Hentries|]. split; [reflexivity|]. split; [reflexivity|].
  destruct (@ride_stats_totals (double two_rides 734503) 0%nat (VInt 7)
              (VInt 3600) (VInt 30000) (dict [("rides", VList two_entries)])
              3600%float 30000%float 7 734496 (mkState [] [athlete_7])
              two_entries [(VInt 1, VStr "Out"); (VInt 2, VStr "Back")]
              eq_refl eq_refl eq_refl eq_refl eq_refl Hentries two_rides_details
              eq_refl eq_refl)
    as (stats & s1 & Hrun & Hlog & _ & _ & _ & Hr & Ht & Hx).
  exists stats, s1. split; [exact Hrun|]. split; [exact Hlog|].
  split; [|split].
  - exact (Hr ltac:(reflexivity)).
  - exact (Ht 3600 eq_refl ltac:(discriminate) ltac:(reflexivity)).
  - exact (Hx 30000 eq_refl ltac:(discriminate) ltac:(reflexivity)).
Defined.

(** * Further properties *)

(** ** Ride.stream *)

Lemma ride_stream_new_run `{Env} (oid : value) (s : state) :
  let url := "/streams/" +:+ py_str oid in
  let log := (BASE_API +:+ url) :: requests s in
  RideStream.new oid s =
    match fetch url None (requests s) with
    | Ret a =>
        (Ret (length (heap s)),
         mkState log (heap s ++ [ORideStream (mkRideStream oid (Some a))]))
    | Raise e =>
        (Raise e, mkState log (heap s ++ [ORideStream (mkRideStream oid None)]))
    end.
Proof.
  intros url log. unfold RideStream.new, alloc. unfold bind at 1.
  unfold bind at 1. rewrite load_run_fetch. simpl.
  destruct (fetch _ _ _) as [a|e]; [|reflexivity].
  unfold RideStream.set_attr, bind, get_stream, store, ret. simpl.
  rewrite lookup_fresh. simpl. now rewrite store_fresh.
Qed.

Lemma ride_stream_cached `{Env} (self : ref) (o : RideObj) (d : ref) (s : state) :
  heap s !! self = Some (ORide o) -> Ride_stream o = Some d ->
  Ride.stream self s = (Ret d, s).
Proof.
  intros Hself Hd. unfold Ride.stream.
  rewrite (bind_ret _ _ _ _ _ (get_ride_ok _ _ _ Hself)). now rewrite Hd.
Qed.

Lemma ride_stream_first `{Env} (self : ref) (o : RideObj) (s : state) :
  heap s !! self = Some (ORide o) -> Ride_stream o = None ->
  let url := "/streams/" +:+ py_str (Ride_id o) in
  let log := (BASE_API +:+ url) :: requests s in
  Ride.stream self s =
    match fetch url None (requests s) with
    | Ret a =>
        (Ret (length (heap s)),
         mkState log
           (<[self := ORide (mkRide (Ride_id o) (Ride_name o) (Ride_detail o)
                               (Ride_segments o) (Some (length (heap s))))]>
              (heap s ++ [ORideStream (mkRideStream (Ride_id o) (Some a))])))
    | Raise e =>
        (Raise e, mkState log (heap s ++ [ORideStream (mkRideStream (Ride_id o) None)]))
    end.
Proof.
  intros Hself Hd url log. unfold Ride.stream.
  rewrite (bind_ret _ _ _ _ _ (get_ride_ok _ _ _ Hself)). rewrite Hd.
  rewrite (bind_ret _ _ _ _ _ (ride_id_ok _ _ _ Hself)).
  unfold bind at 1. rewrite ride_stream_new_run. fold url.
  destruct (fetch url _ _) as [a|e]; [|reflexivity].
  unfold Ride.set_stream, bind, get_ride, store, ret. simpl.
  now rewrite (lookup_old _ _ _ _ Hself).
Qed.

(** X1: the first access of [stream] on a ride makes one request, for
    /streams/<id> with no result key, and keeps the whole decoded body as
    the snapshot that [raw_data] returns; every later access returns the
    same instance and requests nothing. *)
Theorem stream_fetched_once `{Env} (self : ref) (o : RideObj) (s s1 : state) (d : ref)
    (Hself : heap s !! self = Some (ORide o))
    (Hnone : Ride_stream o = None)
    (Hfirst : Ride.stream self s = (Ret d, s1)) :
  requests s1 = (BASE_API +:+ "/streams/" +:+ py_str (Ride_id o)) :: requests s /\
  (exists body,
     urlopen (requests s) (BASE_API +:+ "/streams/" +:+ py_str (Ride_id o)) = Loads body /\
     RideStream.raw_data d s1 = (Ret body, s1)) /\
  (forall n, repeatedly n (Ride.stream self) s1 = (Ret (replicate n d), s1)).
Proof.
  pose proof (lookup_lt_Some _ _ _ Hself) as Hlt.
  rewrite (ride_stream_first _ _ _ Hself Hnone) in Hfirst.
  destruct (fetch _ None (requests s)) as [a|e] eqn:Hfetch; [|discriminate].
  injection Hfirst as <- <-. split; [reflexivity|]. split.
  - exists a. split.
    + destruct (fetch_ret_inv _ _ _ _ Hfetch) as (body & Hbody & ->). exact Hbody.
    + unfold RideStream.raw_data, bind, get_stream. cbn [heap].
      rewrite list_lookup_insert_ne by lia. now rewrite lookup_fresh.
  - intros n. apply repeatedly_stable.
    apply (ride_stream_cached self
             (mkRide (Ride_id o) (Ride_name o) (Ride_detail o) (Ride_segments o)
                (Some (length (heap s))))); [|reflexivity].
    simpl. apply list_lookup_insert_eq. rewrite length_app. simpl. lia.
Qed.

Lemma stream_fetched_once_witness :
  heap (mkState [] [ORide loop_ride]) !! 0%nat = Some (ORide loop_ride) /\
  @Ride.stream (double stream_service 1) 0%nat (mkState [] [ORide loop_ride])
    = (Ret 1%nat, loop_streamed) /\
  requests loop_streamed = [BASE_API +:+ "/streams/1"] /\
  @repeatedly _ 2 (@Ride.stream (double stream_service 1) 0%nat) loop_streamed
    = (Ret [1%nat; 1%nat], loop_streamed).
Proof.
  split; [reflexivity|]. split; [reflexivity|].
  destruct (@stream_fetched_once (double stream_service 1) 0%nat loop_ride
              (mkState [] [ORide loop_ride]) loop_streamed 1%nat eq_refl eq_refl eq_refl)
    as (Hlog & _ & Hn).
  split; [exact Hlog | exact (Hn 2%nat)].
Defined.

(** ** Ride.detail when the fetch fails *)

(** X2: when the fetch of a ride's detail raises, [detail] raises the same
    exception after that one request, the ride is left as it was with its
    detail field empty, and the next access requests /rides/<id> again. *)
Theorem detail_failure_retried `{Env} (self : ref) (o : RideObj) (s : state) (e : exn)
    (Hself : heap s !! self = Some (ORide o))
    (Hnone : Ride_detail o = None)
    (Hfail : fetch ("/rides/" +:+ py_str (Ride_id o)) (Some "ride") (requests s) = Raise e) :
  let url := BASE_API +:+ "/rides/" +:+ py_str (Ride_id o) in
  exists s1,
    Ride.detail self s = (Raise e, s1) /\
    requests s1 = url :: requests s /\
    heap s1 !! self = Some (ORide o) /\
    requests (snd (Ride.detail self s1)) = url :: url :: requests s.
Proof.
  intros url. pose proof (ride_detail_first _ _ _ Hself Hnone) as Hrun.
  cbv zeta in Hrun. rewrite Hfail in Hrun.
  set (s1 := mkState (url :: requests s)
               (heap s ++ [ORideDetail (mkRideDetail (Ride_id o) None)])).
  assert (Hself1 : heap s1 !! self = Some (ORide o)) by now apply lookup_old.
  exists s1. split; [exact Hrun|]. split; [reflexivity|]. split; [exact Hself1|].
  rewrite (ride_detail_first self o s1 Hself1 Hnone). cbv zeta.
  destruct (fetch _ _ (requests s1)); reflexivity.
Qed.

Lemma detail_failure_retried_witness :
  exists s1,
    @Ride.detail (double flaky_service 1) 0%nat (mkState [] [ORide loop_ride])
      = (Raise (APIError "/rides/1: request failed: HTTP Error 404: Not Found"), s1) /\
    heap s1 !! 0%nat = Some (ORide loop_ride) /\
    requests (snd (@Ride.detail (double flaky_service 1) 0%nat s1))
      = [BASE_API +:+ "/rides/1"; BASE_API +:+ "/rides/1"].
Proof.
  destruct (@detail_failure_retried (double flaky_service 1) 0%nat loop_ride
              (mkState [] [ORide loop_ride])
              (APIError "/rides/1: request failed: HTTP Error 404: Not Found")
              eq_refl eq_refl ltac:(vm_compute; reflexivity))
    as (s1 & Hrun & _ & Hheap & Hagain).
  exists s1. split; [exact Hrun|]. split; [exact Hheap | exact Hagain].
Defined.

(** ** Athlete.rides: a fresh listing on every call *)

Lemma for_each_app {A B} (xs ys : list A) (body : A -> B -> M B) (acc : B) (s : state) :
  for_each (xs ++ ys) body acc s
    = bind (for_each xs body acc) (fun acc' => for_each ys body acc') s.
Proof.
  revert acc s. induction xs as [|x xs IH]; intros acc s; [reflexivity|].
  cbn [app for_each]. rewrite bind_assoc.
  destruct (body x acc s) as [[acc'|e] s'] eqn:Hbody.
  - rewrite !(bind_ret _ _ _ _ _ Hbody). apply IH.
  - now rewrite !(bind_raise _ _ _ _ _ Hbody).
Qed.

Lemma rides_run_path `{Env} (self : ref) (o : AthleteObj) (start : option Z) (s : state)
    (v : value) (entries : list value) (ins : list (value * value)) :
  heap s !! self = Some (OAthlete o) ->
  urlopen (requests s) (BASE_API +:+ listing_path o start) = Loads v ->
  getitem v "rides" = Ret (VList entries) ->
  Forall2 entry_of entries ins ->
  Athlete.rides self start s
    = (Ret (seq (length (heap s)) (length ins)),
       mkState ((BASE_API +:+ listing_path o start) :: requests s)
         (heap s ++ map fresh_ride ins)).
Proof. intros Hself Hresp Hkey Hentries. now apply (rides_run self o start s v entries ins). Qed.

(** X3: on a listing of well-formed entries, [rides] makes the single
    request of the listing (with [&startDate=<ISO date>] when a start date
    is given) and returns, in the order of the listing, one new ride per
    entry: its id and name are the entry's, read without any request, its
    detail, stream and segments are not loaded, and the instances that
    existed before are untouched. *)
Theorem rides_builds_listed_rides `{Env} (self : ref) (o : AthleteObj) (start : option Z)
    (s : state) (v : value) (entries : list value) (ins : list (value * value))
    (Hself : heap s !! self = Some (OAthlete o))
    (Hresp : urlopen (requests s) (BASE_API +:+ listing_path o start) = Loads v)
    (Hkey : getitem v "rides" = Ret (VList entries))
    (Hentries : Forall2 entry_of entries ins) :
  exists rs s1,
    Athlete.rides self start s = (Ret rs, s1) /\
    requests s1 = (BASE_API +:+ listing_path o start) :: requests s /\
    take (length (heap s)) (heap s1) = heap s /\
    length rs = length ins /\
    forall k p, ins !! k = Some p ->
      exists r, rs !! k = Some r /\
        heap s !! r = None /\
        heap s1 !! r = Some (ORide (mkRide p.1 p.2 None [] None)) /\
        Ride.id r s1 = (Ret p.1, s1) /\
        Ride.name r s1 = (Ret p.2, s1).
Proof.
  set (s1 := mkState ((BASE_API +:+ listing_path o start) :: requests s)
               (heap s ++ map fresh_ride ins)).
  exists (seq (length (heap s)) (length ins)), s1.
  split; [now apply (rides_run_path self o start s v entries ins)|].
  split; [reflexivity|]. split; [apply take_app_length|].
  split; [apply length_seq|].
  intros k p Hk. pose proof (lookup_lt_Some _ _ _ Hk) as Hlt.
  exists (length (heap s) + k)%nat.
  assert (Hr : heap s1 !! (length (heap s) + k)%nat = Some (fresh_ride p)).
  { subst s1. cbn [heap]. rewrite lookup_app_r by lia.
    replace (length (heap s) + k - length (heap s))%nat with k by lia.
    now rewrite list_lookup_fmap, Hk. }
  split; [now apply lookup_seq_lt|].
  split; [apply lookup_ge_None; lia|]. split; [exact Hr|].
  split.
  - now rewrite (ride_id_ok _ (mkRide p.1 p.2 None [] None) _ Hr).
  - unfold Ride.name. now rewrite (bind_ret _ _ _ _ _ (get_ride_ok _ _ _ Hr)).
Qed.

Lemma rides_builds_listed_rides_witness :
  Forall2 entry_of [loop_entry] [(VInt 1, VStr "Loop")] /\
  exists r s1,
    @Athlete.rides (double loop_service 1) 0%nat None (mkState [] [athlete_7])
      = (Ret [r], s1) /\
    requests s1 = [BASE_API +:+ "/rides?athleteId=7"] /\
    Ride.id r s1 = (Ret (VInt 1), s1) /\
    Ride.name r s1 = (Ret (VStr "Loop"), s1).
Proof.
  assert (Hentries : Forall2 entry_of [loop_entry] [(VInt 1, VStr "Loop")]).
  { repeat constructor. }
  split; [exact Hentries|].
  destruct (@rides_builds_listed_rides (double loop_service 1) 0%nat
              (mkAthlete (VInt 7) "/rides?athleteId=7") None (mkState [] [athlete_7])
              (dict [("rides", VList [loop_entry])]) [loop_entry] [(VInt 1, VStr "Loop")]
              eq_refl eq_refl eq_refl Hentries)
    as (rs & s1 & Hrun & Hlog & _ & Hlen & Hall).
  destruct (Hall 0%nat (VInt 1, VStr "Loop") eq_refl) as (r & Hr & _ & _ & Hid & Hname).
  destruct rs as [|r0 [|r1 rs]]; try discriminate.
  injection Hr as ->.
  exists r, s1. split; [exact Hrun|]. split; [exact Hlog|]. split; [exact Hid | exact Hname].
Defined.

(** X4: [rides] keeps nothing between calls.  Two calls in a row request
    the listing twice, and the rides of the second call are new instances,
    none of which is a ride of the first. *)
Theorem rides_not_cached `{Env} (self : ref) (o : AthleteObj) (start : option Z)
    (s : state) (v1 v2 : value) (entries1 entries2 : list value)
    (ins1 ins2 : list (value * value))
    (Hself : heap s !! self = Some (OAthlete o))
    (Hresp1 : urlopen (requests s) (BASE_API +:+ listing_path o start) = Loads v1)
    (Hkey1 : getitem v1 "rides" = Ret (VList entries1))
    (Hentries1 : Forall2 entry_of entries1 ins1)
    (Hresp2 : urlopen ((BASE_API +:+ listing_path o start) :: requests s)
                (BASE_API +:+ listing_path o start) = Loads v2)
    (Hkey2 : getitem v2 "rides" = Ret (VList entries2))
    (Hentries2 : Forall2 entry_of entries2 ins2) :
  exists rs1 rs2 s2,
    (a <- Athlete.rides self start ;; b <- Athlete.rides self start ;; ret (a, b)) s
      = (Ret (rs1, rs2), s2) /\
    requests s2
      = (BASE_API +:+ listing_path o start) :: (BASE_API +:+ listing_path o start)
          :: requests s /\
    length rs1 = length ins1 /\ length rs2 = length ins2 /\
    forall r, In r rs1 -> ~ In r rs2.
Proof.
  pose proof (rides_run_path self o start s v1 entries1 ins1 Hself Hresp1 Hkey1 Hentries1)
    as Hrun1.
  set (s1 := mkState ((BASE_API +:+ listing_path o start) :: requests s)
               (heap s ++ map fresh_ride ins1)) in *.
  assert (Hself1 : heap s1 !! self = Some (OAthlete o)).
  { subst s1. cbn [heap]. now apply lookup_app_l_Some. }
  pose proof (rides_run_path self o start s1 v2 entries2 ins2 Hself1 Hresp2 Hkey2 Hentries2)
    as Hrun2.
  eexists _, _, _. split.
  { rewrite (bind_ret _ _ _ _ _ Hrun1), (bind_ret _ _ _ _ _ Hrun2). reflexivity. }
  split; [reflexivity|]. split; [apply length_seq|]. split; [apply length_seq|].
  intros r Hin1 Hin2. apply in_seq in Hin1, Hin2.
  subst s1. cbn [heap] in Hin2. rewrite length_app, length_map in Hin2. lia.
Qed.

Lemma rides_not_cached_witness :
  Forall2 entry_of [loop_entry] [(VInt 1, VStr "Loop")] /\
  (a <- @Athlete.rides (double loop_service 1) 0%nat None ;;
   b <- @Athlete.rides (double loop_service 1) 0%nat None ;; ret (a, b))
    (mkState [] [athlete_7])
    = (Ret ([1%nat], [2%nat]), listed_twice).
Proof.
  assert (Hentries : Forall2 entry_of [loop_entry] [(VInt 1, VStr "Loop")]).
  { repeat constructor. }
  split; [exact Hentries|].
  destruct (@rides_not_cached (double loop_service 1) 0%nat
              (mkAthlete (VInt 7) "/rides?athleteId=7") None (mkState [] [athlete_7])
              (dict [("rides", VList [loop_entry])]) (dict [("rides", VList [loop_entry])])
              [loop_entry] [loop_entry] [(VInt 1, VStr "Loop")] [(VInt 1, VStr "Loop")]
              eq_refl eq_refl eq_refl Hentries eq_refl eq_refl Hentries)
    as (rs1 & rs2 & s2 & Hrun & _).
  rewrite Hrun. vm_compute in Hrun. now injection Hrun as <- <- <-.
Defined.

(** X12: when the request of the listing raises, [rides] and [ride] raise
    the same exception after that one request and build nothing: [ride]
    answers [None] only for a listing it could read. *)
Theorem ride_propagates_listing_failure `{Env} (self : ref) (o : AthleteObj)
    (start : option Z) (ride_id : value) (s : state) :
  heap s !! self = Some (OAthlete o) ->
  (forall e, fetch (listing_path o start) (Some "rides") (requests s) = Raise e ->
     Athlete.rides self start s
       = (Raise e, mkState ((BASE_API +:+ listing_path o start) :: requests s) (heap s))) /\
  (forall e, fetch (Athlete_url o) (Some "rides") (requests s) = Raise e ->
     Athlete.ride self ride_id s
       = (Raise e, mkState ((BASE_API +:+ Athlete_url o) :: requests s) (heap s))).
Proof.
  intros Hself.
  assert (Hrides : forall start' e,
            fetch (listing_path o start') (Some "rides") (requests s) = Raise e ->
            Athlete.rides self start' s
              = (Raise e, mkState ((BASE_API +:+ listing_path o start') :: requests s)
                            (heap s))).
  { intros start' e Hfail. unfold Athlete.rides.
    rewrite (bind_ret _ _ _ _ _ (get_athlete_ok _ _ _ Hself)).
    fold (listing_path o start'). apply bind_raise.
    now rewrite load_run_fetch, Hfail. }
  split; [apply Hrides|].
  intros e Hfail. unfold Athlete.ride. apply bind_raise. exact (Hrides None e Hfail).
Qed.

Lemma ride_propagates_listing_failure_witness :
  @Athlete.ride (double (canned []) 1) 0%nat (VInt 1) (mkState [] [athlete_7])
    = (Raise (APIError "/rides?athleteId=7: request failed: HTTP Error 404: Not Found"),
       mkState [BASE_API +:+ "/rides?athleteId=7"] [athlete_7]).
Proof.
  exact (proj2 (@ride_propagates_listing_failure (double (canned []) 1) 0%nat
                  (mkAthlete (VInt 7) "/rides?athleteId=7") None (VInt 1)
                  (mkState [] [athlete_7]) eq_refl)
           (APIError "/rides?athleteId=7: request failed: HTTP Error 404: Not Found")
           ltac:(vm_compute; reflexivity)).
Defined.

(** X16: a listing that was fetched but is not a list of mappings raises
    [TypeError], not [APIError]: when the value under "rides" is [None], a
    boolean or a number, and when an entry after well-formed ones is not a
    mapping. *)
Theorem rides_type_error `{Env} (self : ref) (o : AthleteObj) (start : option Z)
    (s : state) (v listing : value)
    (Hself : heap s !! self = Some (OAthlete o))
    (Hresp : urlopen (requests s) (BASE_API +:+ listing_path o start) = Loads v)
    (Hkey : getitem v "rides" = Ret listing) :
  (is_scalar listing = true ->
     Athlete.rides self start s
       = (Raise TypeError,
          mkState ((BASE_API +:+ listing_path o start) :: requests s) (heap s))) /\
  (forall good ins e rest,
     listing = VList (good ++ e :: rest) -> Forall2 entry_of good ins ->
     is_mapping e = false ->
     Athlete.rides self start s
       = (Raise TypeError,
          mkState ((BASE_API +:+ listing_path o start) :: requests s)
            (heap s ++ map fresh_ride ins))).
Proof.
  assert (Hrun : Athlete.rides self start s
                 = (entries <- lift (iter listing) ;; for_each entries rides_body [])
                     (mkState ((BASE_API +:+ listing_path o start) :: requests s) (heap s))).
  { unfold Athlete.rides.
    rewrite (bind_ret _ _ _ _ _ (get_athlete_ok _ _ _ Hself)).
    fold (listing_path o start).
    now rewrite (bind_ret _ _ _ _ _ (load_ok _ _ _ _ _ Hresp Hkey)). }
  split.
  - intros Hscalar. rewrite Hrun. now destruct listing.
  - intros good ins e rest -> Hgood He. rewrite Hrun. cbn [iter].
    rewrite bind_lift_ret, for_each_app.
    rewrite (bind_ret _ _ _ _ _ (rides_loop_ok _ _ Hgood [] _)).
    cbn [for_each]. unfold rides_body at 1.
    now destruct e.
Qed.

Lemma rides_type_error_witness :
  @Athlete.rides (double numeric_listing 1) 0%nat None (mkState [] [athlete_7])
    = (Raise TypeError, mkState [BASE_API +:+ "/rides?athleteId=7"] [athlete_7]) /\
  @Athlete.rides (double numeric_entry 1) 0%nat None (mkState [] [athlete_7])
    = (Raise TypeError,
       mkState [BASE_API +:+ "/rides?athleteId=7"] [athlete_7; ORide loop_ride]).
Proof.
  split.
  - exact (proj1 (@rides_type_error (double numeric_listing 1) 0%nat
                    (mkAthlete (VInt 7) "/rides?athleteId=7") None (mkState [] [athlete_7])
                    (dict [("rides", VInt 3)]) (VInt 3) eq_refl eq_refl eq_refl) eq_refl).
  - refine (proj2 (@rides_type_error (double numeric_entry 1) 0%nat
                     (mkAthlete (VInt 7) "/rides?athleteId=7") None (mkState [] [athlete_7])
                     (dict [("rides", VList [loop_entry; VInt 3])])
                     (VList [loop_entry; VInt 3]) eq_refl eq_refl eq_refl)
              [loop_entry] [(VInt 1, VStr "Loop")] (VInt 3) [] eq_refl _ eq_refl).
    repeat constructor.
Defined.

(** ** Ride.segments: segments built from the listing *)

Lemma with_segments_same (o : RideObj) : with_segments o (Ride_segments o) = o.
Proof. now destruct o. Qed.

Lemma effort_of_mapping (e : value) (t : value * value * value) :
  effort_of e t ->
  exists d, e = VDict d /\ d !! "id" = Some t.1.1 /\ d !! "segment" = Some t.1.2 /\
            d !! "elapsed_time" = Some t.2.
Proof.
  intros (Hid & Hseg & Htime). destruct e as [| | | | | |d]; try discriminate.
  exists d. simpl in *.
  destruct (d !! "id"); [|discriminate]. destruct (d !! "segment"); [|discriminate].
  destruct (d !! "elapsed_time"); [|discriminate]. repeat split; congruence.
Qed.

Lemma segments_step (self : ref) (e : value) (t : value * value * value)
    (o : RideObj) (s : state) :
  effort_of e t -> heap s !! self = Some (ORide o) ->
  segments_body self e tt s
    = (Ret tt,
       mkState (requests s)
         (<[self := ORide (with_segments o (Ride_segments o ++ [length (heap s)]))]>
            (heap s ++ [built_segment t]))).
Proof.
  intros He Hself. destruct (effort_of_mapping _ _ He) as (d & -> & Hid & Hseg & Htime).
  unfold segments_body. unfold bind at 1. rewrite segment_new_run, Hid, Hseg, Htime.
  cbv zeta. unfold Ride.append_segment, bind, get_ride, store. cbn [heap requests].
  now rewrite (lookup_old _ _ _ _ Hself).
Qed.

Lemma segments_loop_ok (self : ref) (entries : list value)
    (trips : list (value * value * value)) :
  Forall2 effort_of entries trips ->
  forall (s : state) (o : RideObj),
    heap s !! self = Some (ORide o) ->
    for_each entries (segments_body self) tt s
      = (Ret tt,
         mkState (requests s)
           (<[self := ORide (with_segments o
                               (Ride_segments o ++ seq (length (heap s)) (length trips)))]>
              (heap s ++ map built_segment trips))).
Proof.
  induction 1 as [|e t entries trips He _ IH]; intros s o Hself.
  - cbn [for_each length seq map]. unfold ret. rewrite !app_nil_r, with_segments_same.
    rewrite list_insert_id by exact Hself. now destruct s.
  - pose proof (lookup_lt_Some _ _ _ Hself) as Hlt.
    cbn [for_each]. rewrite (bind_ret _ _ _ _ _ (segments_step self e t o s He Hself)).
    rewrite (IH _ (with_segments o (Ride_segments o ++ [length (heap s)]))).
    + cbn [heap requests with_segments Ride_segments Ride_id Ride_name Ride_detail
           Ride_stream length seq map].
      rewrite length_insert, length_app, Nat.add_1_r.
      rewrite <- (insert_app_l (heap s ++ [built_segment t]))
        by (rewrite length_app; lia).
      rewrite list_insert_insert_eq, <- !app_assoc. reflexivity.
    + cbn [heap]. apply list_lookup_insert_eq. rewrite length_app. lia.
Qed.

Lemma segments_fetch_run `{Env} (self : ref) (o : RideObj) (s : state)
    (v : value) (entries : list value) :
  heap s !! self = Some (ORide o) -> Ride_segments o = [] ->
  urlopen (requests s) (BASE_API +:+ "/rides/" +:+ py_str (Ride_id o) +:+ "/efforts")
    = Loads v ->
  getitem v "efforts" = Ret (VList entries) ->
  Ride.segments self s
    = (for_each entries (segments_body self) tt ;;;
       o' <- get_ride self ;; ret (Ride_segments o'))
        (mkState ((BASE_API +:+ "/rides/" +:+ py_str (Ride_id o) +:+ "/efforts")
                    :: requests s) (heap s)).
Proof.
  intros Hself Hnil Hresp Hkey. unfold Ride.segments.
  rewrite (bind_ret _ _ _ _ _ (get_ride_ok _ _ _ Hself)), Hnil.
  rewrite bind_assoc, (bind_ret _ _ _ _ _ (ride_id_ok _ _ _ Hself)).
  rewrite bind_assoc, (bind_ret _ _ _ _ _ (load_ok _ _ _ _ _ Hresp Hkey)).
  cbn [iter]. now rewrite bind_assoc, bind_lift_ret.
Qed.

(** X5: on a listing of well-formed efforts, the first access of
    [segments] makes the single request of /rides/<id>/efforts and builds,
    in order, one segment per effort from the data embedded in the entry:
    its id is the effort's id, its time the elapsed time and its name the
    name of the embedded route, all read without any further request, and
    its detail is not loaded. *)
Theorem segments_built_from_listing `{Env} (self : ref) (o : RideObj) (s : state)
    (v : value) (entries : list value) (trips : list (value * value * value))
    (Hself : heap s !! self = Some (ORide o))
    (Hnil : Ride_segments o = [])
    (Hresp : urlopen (requests s)
               (BASE_API +:+ "/rides/" +:+ py_str (Ride_id o) +:+ "/efforts") = Loads v)
    (Hkey : getitem v "efforts" = Ret (VList entries))
    (Hentries : Forall2 effort_of entries trips) :
  exists gs s1,
    Ride.segments self s = (Ret gs, s1) /\
    requests s1
      = (BASE_API +:+ "/rides/" +:+ py_str (Ride_id o) +:+ "/efforts") :: requests s /\
    length gs = length trips /\
    forall k t, trips !! k = Some t ->
      exists g, gs !! k = Some g /\
        heap s1 !! g = Some (OSegment (mkSegment t.1.1 (Some t.1.2) (Some t.2) (Some None))) /\
        Segment.id g s1 = (Ret t.1.1, s1) /\
        Segment.time g s1 = (Ret t.2, s1) /\
        Segment.name g s1 = (getitem t.1.2 "name", s1).
Proof.
  pose proof (lookup_lt_Some _ _ _ Hself) as Hlt.
  set (url := BASE_API +:+ "/rides/" +:+ py_str (Ride_id o) +:+ "/efforts").
  set (s1 := mkState (url :: requests s)
               (<[self := ORide (with_segments o (seq (length (heap s)) (length trips)))]>
                  (heap s ++ map built_segment trips))).
  assert (Hrun : Ride.segments self s = (Ret (seq (length (heap s)) (length trips)), s1)).
  { rewrite (segments_fetch_run self o s v entries Hself Hnil Hresp Hkey). fold url.
    rewrite (bind_ret _ _ _ _ _ (segments_loop_ok self entries trips Hentries
                                   (mkState (url :: requests s) (heap s)) o Hself)).
    rewrite Hnil. cbn [app heap requests]. fold url s1.
    assert (Hride : heap s1 !! self
              = Some (ORide (with_segments o (seq (length (heap s)) (length trips))))).
    { subst s1. cbn [heap]. apply list_lookup_insert_eq. rewrite length_app. lia. }
    now rewrite (bind_ret _ _ _ _ _ (get_ride_ok _ _ _ Hride)). }
  exists (seq (length (heap s)) (length trips)), s1.
  split; [exact Hrun|]. split; [reflexivity|]. split; [apply length_seq|].
  intros k t Hk. pose proof (lookup_lt_Some _ _ _ Hk) as Hk'.
  exists (length (heap s) + k)%nat.
  assert (Hg : heap s1 !! (length (heap s) + k)%nat = Some (built_segment t)).
  { subst s1. cbn [heap]. rewrite list_lookup_insert_ne by lia.
    rewrite lookup_app_r by lia.
    replace (length (heap s) + k - length (heap s))%nat with k by lia.
    now rewrite list_lookup_fmap, Hk. }
  split; [now apply lookup_seq_lt|]. split; [exact Hg|].
  split; [|split].
  - now rewrite (segment_id_ok _ _ _ Hg).
  - unfold Segment.time. now rewrite (bind_ret _ _ _ _ _ (get_segment_ok _ _ _ Hg)).
  - unfold Segment.name. now rewrite (bind_ret _ _ _ _ _ (get_segment_ok _ _ _ Hg)).
Qed.

Lemma segments_built_from_listing_witness :
  Forall2 effort_of [hawk_effort] [(VInt 31, hawk_hill, VInt 95)] /\
  exists g s1,
    @Ride.segments (double one_effort 1) 0%nat (mkState [] [ORide loop_ride])
      = (Ret [g], s1) /\
    requests s1 = [efforts_url] /\
    Segment.time g s1 = (Ret (VInt 95), s1) /\
    Segment.name g s1 = (Ret (VStr "Hawk Hill"), s1).
Proof.
  assert (Hentries : Forall2 effort_of [hawk_effort] [(VInt 31, hawk_hill, VInt 95)]).
  { repeat constructor. }
  split; [exact Hentries|].
  destruct (@segments_built_from_listing (double one_effort 1) 0%nat loop_ride
              (mkState [] [ORide loop_ride]) (dict [("efforts", VList [hawk_effort])])
              [hawk_effort] [(VInt 31, hawk_hill, VInt 95)]
              eq_refl eq_refl eq_refl eq_refl Hentries)
    as (gs & s1 & Hrun & Hlog & Hlen & Hall).
  destruct (Hall 0%nat (VInt 31, hawk_hill, VInt 95) eq_refl)
    as (g & Hg & _ & _ & Htime & Hname).
  destruct gs as [|g0 [|g1 gs]]; try discriminate. injection Hg as ->.
  exists g, s1. split; [exact Hrun|]. split; [exact Hlog|].
  split; [exact Htime | exact Hname].
Defined.

(** X6: when a malformed effort follows well-formed ones, [segments] raises
    the [KeyError] of the missing key, but the segments built before it
    stay in the ride: the next access returns them without any request, so
    the listing is never fetched again and the efforts after the malformed
    one are never loaded. *)
Theorem segments_partial_kept `{Env} (self : ref) (o : RideObj) (s : state)
    (v bad : value) (good rest : list value) (trips : list (value * value * value))
    (Hself : heap s !! self = Some (ORide o))
    (Hnil : Ride_segments o = [])
    (Hresp : urlopen (requests s)
               (BASE_API +:+ "/rides/" +:+ py_str (Ride_id o) +:+ "/efforts") = Loads v)
    (Hkey : getitem v "efforts" = Ret (VList (good ++ bad :: rest)))
    (Hgood : Forall2 effort_of good trips)
    (Hsome : trips <> [])
    (Hbad : bad_effort_entry bad = true) :
  exists k s1,
    Ride.segments self s = (Raise (KeyError k), s1) /\
    (k = "id" \/ k = "segment" \/ k = "elapsed_time") /\
    requests s1
      = (BASE_API +:+ "/rides/" +:+ py_str (Ride_id o) +:+ "/efforts") :: requests s /\
    Ride.segments self s1 = (Ret (seq (length (heap s)) (length trips)), s1).
Proof.
  pose proof (lookup_lt_Some _ _ _ Hself) as Hlt.
  set (url := BASE_API +:+ "/rides/" +:+ py_str (Ride_id o) +:+ "/efforts").
  set (kept := with_segments o (seq (length (heap s)) (length trips))).
  set (h1 := <[self := ORide kept]> (heap s ++ map built_segment trips)).
  assert (Hkept : h1 !! self = Some (ORide kept)).
  { subst h1. apply list_lookup_insert_eq. rewrite length_app. lia. }
  assert (Hne : Ride_segments kept <> []).
  { subst kept. cbn [with_segments Ride_segments]. intros Hseq.
    apply (f_equal (@length _)) in Hseq. rewrite length_seq in Hseq.
    now destruct trips. }
  assert (Hstep : exists k extra,
            Segment.new bad (mkState (url :: requests s) h1)
              = (Raise (KeyError k), mkState (url :: requests s) (h1 ++ extra)) /\
            (k = "id" \/ k = "segment" \/ k = "elapsed_time")).
  { destruct bad as [| | | | | |d]; try discriminate.
    rewrite segment_new_run. unfold bad_effort_entry in Hbad. cbn [lacks] in Hbad.
    cbv zeta. cbn [heap requests].
    destruct (d !! "id") as [i|].
    - destruct (d !! "segment") as [g|].
      + destruct (d !! "elapsed_time") as [t|]; [discriminate|].
        eexists "elapsed_time", [_]. split; [reflexivity|]. right. now right.
      + eexists "segment", [_]. split; [reflexivity|]. right. now left.
    - exists "id", []. rewrite app_nil_r. split; [reflexivity|]. now left. }
  destruct Hstep as (k & extra & Hnew & Hk).
  exists k, (mkState (url :: requests s) (h1 ++ extra)).
  split; [|split; [exact Hk|split; [reflexivity|]]].
  - rewrite (segments_fetch_run self o s v _ Hself Hnil Hresp Hkey). fold url.
    apply bind_raise. rewrite for_each_app.
    rewrite (bind_ret _ _ _ _ _ (segments_loop_ok self good trips Hgood
                                   (mkState (url :: requests s) (heap s)) o Hself)).
    rewrite Hnil. cbn [app heap requests for_each]. fold kept h1.
    apply bind_raise. unfold segments_body. apply bind_raise. exact Hnew.
  - apply (segments_cached self kept); [|exact Hne].
    cbn [heap]. now apply lookup_app_l_Some.
Qed.

Lemma segments_partial_kept_witness :
  Forall2 effort_of [hawk_effort] [(VInt 31, hawk_hill, VInt 95)] /\
  exists s1,
    @Ride.segments (double half_good_efforts 1) 0%nat (mkState [] [ORide loop_ride])
      = (Raise (KeyError "elapsed_time"), s1) /\
    @Ride.segments (double half_good_efforts 1) 0%nat s1 = (Ret [1%nat], s1).
Proof.
  assert (Hentries : Forall2 effort_of [hawk_effort] [(VInt 31, hawk_hill, VInt 95)]).
  { repeat constructor. }
  split; [exact Hentries|].
  destruct (@segments_partial_kept (double half_good_efforts 1) 0%nat loop_ride
              (mkState [] [ORide loop_ride])
              (dict [("efforts",
                      VList [hawk_effort; dict [("id", VInt 32); ("segment", hawk_hill)];
                             hawk_effort])])
              (dict [("id", VInt 32); ("segment", hawk_hill)])
              [hawk_effort] [hawk_effort] [(VInt 31, hawk_hill, VInt 95)]
              eq_refl eq_refl eq_refl eq_refl Hentries ltac:(discriminate) eq_refl)
    as (k & s1 & Hrun & _ & _ & Hagain).
  exists s1. split; [|exact Hagain].
  rewrite Hrun. vm_compute in Hrun. now injection Hrun as <- _.
Defined.

(** ** Segment.detail: kept once built, started over after a failure *)

Lemma segment_detail_cached `{Env} (self : ref) (o : SegmentObj) (d : ref) (s : state) :
  heap s !! self = Some (OSegment o) -> Segment_detail o = Some (Some d) ->
  Segment.detail self s = (Ret d, s).
Proof.
  intros Hself Hd. unfold Segment.detail.
  rewrite (bind_ret _ _ _ _ _ (get_segment_ok _ _ _ Hself)). now rewrite Hd.
Qed.

(** X7: the first access of a segment's [detail] that returns has made two
    requests, /efforts/<effort id> and then /segments/<route id>, and
    returned a new instance that holds both records: its effort record is
    the value under "effort" of the body answered to the first request, its
    route record the value under "segment" of the body answered to the
    second.  Every later access returns that same instance and requests
    nothing. *)
Theorem segment_detail_fetched_once `{Env} (self : ref) (eid g t route : value)
    (s s1 : state) (d : ref)
    (Hself : heap s !! self = Some (OSegment (mkSegment eid (Some g) (Some t) (Some None))))
    (Hroute : getitem g "id" = Ret route)
    (Hfirst : Segment.detail self s = (Ret d, s1)) :
  requests s1
    = (BASE_API +:+ "/segments/" +:+ py_str route)
        :: (BASE_API +:+ "/efforts/" +:+ py_str eid) :: requests s /\
  heap s !! d = None /\
  (exists effort_body segment_body effort segment,
     urlopen (requests s) (BASE_API +:+ "/efforts/" +:+ py_str eid) = Loads effort_body /\
     getitem effort_body "effort" = Ret effort /\
     urlopen ((BASE_API +:+ "/efforts/" +:+ py_str eid) :: requests s)
       (BASE_API +:+ "/segments/" +:+ py_str route) = Loads segment_body /\
     getitem segment_body "segment" = Ret segment /\
     heap s1 !! d
       = Some (OSegmentDetail (mkSegmentDetail route (Some effort) (Some segment)))) /\
  (forall n, repeatedly n (Segment.detail self) s1 = (Ret (replicate n d), s1)).
Proof.
  pose proof (lookup_lt_Some _ _ _ Hself) as Hlt.
  rewrite (segment_detail_run _ _ _ _ _ _ Hself Hroute) in Hfirst.
  rewrite segment_detail_new_run in Hfirst. cbv zeta in Hfirst.
  destruct (fetch _ (Some "effort") _) as [ea|e] eqn:Heffort; [|discriminate].
  destruct (fetch _ (Some "segment") _) as [sa|e] eqn:Hsegment; [|discriminate].
  injection Hfirst as <- <-. cbn [requests heap].
  split; [reflexivity|]. split; [apply lookup_ge_None; lia|]. split.
  - destruct (fetch_ret_inv _ _ _ _ Heffort) as (eb & Heb & Hea).
    destruct (fetch_ret_inv _ _ _ _ Hsegment) as (sb & Hsb & Hsa).
    exists eb, sb, ea, sa. repeat split; try assumption.
    rewrite list_lookup_insert_ne by lia. apply lookup_fresh.
  - intros n. apply repeatedly_stable.
    apply (segment_detail_cached self
             (mkSegment eid (Some g) (Some t) (Some (Some (length (heap s))))));
      [|reflexivity].
    cbn [heap]. apply list_lookup_insert_eq. rewrite length_app. lia.
Qed.

Lemma segment_detail_fetched_once_witness :
  heap (mkState [] [OSegment hawk_segment]) !! 0%nat = Some (OSegment hawk_segment) /\
  getitem hawk_hill "id" = Ret (VInt 609) /\
  @Segment.detail (double hawk_service 1) 0%nat (mkState [] [OSegment hawk_segment])
    = (Ret 1%nat, hawk_detailed) /\
  @repeatedly _ 2 (@Segment.detail (double hawk_service 1) 0%nat) hawk_detailed
    = (Ret [1%nat; 1%nat], hawk_detailed).
Proof.
  split; [reflexivity|]. split; [reflexivity|].
  assert (Hrun : @Segment.detail (double hawk_service 1) 0%nat
                   (mkState [] [OSegment hawk_segment]) = (Ret 1%nat, hawk_detailed)).
  { vm_compute. reflexivity. }
  split; [exact Hrun|].
  exact (proj2 (proj2 (proj2
           (@segment_detail_fetched_once (double hawk_service 1) 0%nat (VInt 31) hawk_hill
              (VInt 95) (VInt 609) (mkState [] [OSegment hawk_segment]) hawk_detailed 1%nat
              eq_refl eq_refl Hrun))) 2%nat).
Defined.

(** X8: after an access of a segment's [detail] has raised, the next
    access starts over: it requests the effort again, even when it was the
    route that had failed, and the route only after the effort. *)
Theorem segment_detail_starts_over `{Env} (self : ref) (eid g t route : value)
    (s s1 : state) (e : exn)
    (Hself : heap s !! self = Some (OSegment (mkSegment eid (Some g) (Some t) (Some None))))
    (Hroute : getitem g "id" = Ret route)
    (Hfail : Segment.detail self s = (Raise e, s1)) :
  let u1 := BASE_API +:+ "/efforts/" +:+ py_str eid in
  let u2 := BASE_API +:+ "/segments/" +:+ py_str route in
  requests (snd (Segment.detail self s1)) = u1 :: requests s1 \/
  requests (snd (Segment.detail self s1)) = u2 :: u1 :: requests s1.
Proof.
  intros u1 u2.
  assert (Hself1 : heap s1 !! self
                   = Some (OSegment (mkSegment eid (Some g) (Some t) (Some None)))).
  { rewrite (segment_detail_run _ _ _ _ _ _ Hself Hroute) in Hfail.
    rewrite segment_detail_new_run in Hfail. cbv zeta in Hfail.
    destruct (fetch _ (Some "effort") _) as [ea|e1].
    - destruct (fetch _ (Some "segment") _) as [sa|e2]; [discriminate|].
      injection Hfail as _ <-. now apply lookup_old.
    - injection Hfail as _ <-. now apply lookup_old. }
  rewrite (segment_detail_run _ _ _ _ _ _ Hself1 Hroute).
  rewrite segment_detail_new_run. cbv zeta. fold u1 u2.
  destruct (fetch _ (Some "effort") _) as [ea|e1]; [|now left].
  destruct (fetch _ (Some "segment") _) as [sa|e2]; now right.
Qed.

Lemma segment_detail_starts_over_witness :
  @Segment.detail (double route_missing 1) 0%nat (mkState [] [OSegment hawk_segment])
    = (Raise (APIError "/segments/609: request failed: HTTP Error 404: Not Found"),
       route_failed) /\
  requests (snd (@Segment.detail (double route_missing 1) 0%nat route_failed))
    = [BASE_API +:+ "/segments/609"; BASE_API +:+ "/efforts/31";
       BASE_API +:+ "/segments/609"; BASE_API +:+ "/efforts/31"].
Proof.
  assert (Hrun : @Segment.detail (double route_missing 1) 0%nat
                   (mkState [] [OSegment hawk_segment])
                 = (Raise (APIError "/segments/609: request failed: HTTP Error 404: Not Found"),
                    route_failed)).
  { vm_compute. reflexivity. }
  split; [exact Hrun|].
  destruct (@segment_detail_starts_over (double route_missing 1) 0%nat (VInt 31) hawk_hill
              (VInt 95) (VInt 609) (mkState [] [OSegment hawk_segment]) route_failed _
              eq_refl eq_refl Hrun) as [Hone|Htwo].
  - vm_compute in Hone. discriminate.
  - exact Htwo.
Defined.

(** ** SegmentDetail: which record each accessor reads *)

Lemma segment_detail_attrs_ok (self : ref) (route effort segment : value) (s : state) :
  heap s !! self
    = Some (OSegmentDetail (mkSegmentDetail route (Some effort) (Some segment))) ->
  SegmentDetail._effort_attr self s = (Ret effort, s) /\
  SegmentDetail._segment_attr self s = (Ret segment, s).
Proof.
  intros Hself. unfold SegmentDetail._effort_attr, SegmentDetail._segment_attr.
  now rewrite !(bind_ret _ _ _ _ _ (get_segment_detail_ok _ _ _ Hself)).
Qed.

(** X9: on a built segment detail, [elapsed_time], [moving_time],
    [average_speed], [maximum_speed] and [average_watts] read the effort
    record, and [distance], [average_grade], [climb_category] and
    [elevations] read the route record, each under its camel-case key.
    [elevations] is the triple of the low, high and gain values, and raises
    the [KeyError] of the first of the three keys that the route lacks. *)
Theorem segment_detail_accessors (self : ref) (route effort : value)
    (d : gmap string value) (s : state)
    (Hself : heap s !! self
             = Some (OSegmentDetail (mkSegmentDetail route (Some effort) (Some (VDict d))))) :
  (SegmentDetail.elapsed_time self s = (project effort ["elapsedTime"], s) /\
   SegmentDetail.moving_time self s = (project effort ["movingTime"], s) /\
   SegmentDetail.average_speed self s = (project effort ["averageSpeed"], s) /\
   SegmentDetail.maximum_speed self s = (project effort ["maximumSpeed"], s) /\
   SegmentDetail.average_watts self s = (project effort ["averageWatts"], s) /\
   SegmentDetail.distance self s = (project (VDict d) ["distance"], s) /\
   SegmentDetail.average_grade self s = (project (VDict d) ["averageGrade"], s) /\
   SegmentDetail.climb_category self s = (project (VDict d) ["climbCategory"], s)) /\
  (forall lo hi gain,
     d !! "elevationLow" = Some lo -> d !! "elevationHigh" = Some hi ->
     d !! "elevationGain" = Some gain ->
     SegmentDetail.elevations self s = (Ret (lo, hi, gain), s)) /\
  (d !! "elevationLow" = None ->
     SegmentDetail.elevations self s = (Raise (KeyError "elevationLow"), s)) /\
  (forall lo, d !! "elevationLow" = Some lo -> d !! "elevationHigh" = None ->
     SegmentDetail.elevations self s = (Raise (KeyError "elevationHigh"), s)) /\
  (forall lo hi, d !! "elevationLow" = Some lo -> d !! "elevationHigh" = Some hi ->
     d !! "elevationGain" = None ->
     SegmentDetail.elevations self s = (Raise (KeyError "elevationGain"), s)).
Proof.
  destruct (segment_detail_attrs_ok _ _ _ _ _ Hself) as [He Hs].
  split; [|split; [|split; [|split]]].
  - unfold SegmentDetail.elapsed_time, SegmentDetail.moving_time,
      SegmentDetail.average_speed, SegmentDetail.maximum_speed,
      SegmentDetail.average_watts, SegmentDetail.distance,
      SegmentDetail.average_grade, SegmentDetail.climb_category.
    rewrite !(bind_ret _ _ _ _ _ He), !(bind_ret _ _ _ _ _ Hs).
    unfold lift. rewrite <- !project_1. repeat split.
  - intros lo hi gain Hlo Hhi Hgain. unfold SegmentDetail.elevations.
    rewrite (bind_ret _ _ _ _ _ Hs). cbn [getitem]. rewrite Hlo, bind_lift_ret.
    rewrite (bind_ret _ _ _ _ _ Hs). cbn [getitem]. rewrite Hhi, bind_lift_ret.
    rewrite (bind_ret _ _ _ _ _ Hs). cbn [getitem]. now rewrite Hgain, bind_lift_ret.
  - intros Hlo. unfold SegmentDetail.elevations.
    rewrite (bind_ret _ _ _ _ _ Hs). cbn [getitem]. now rewrite Hlo.
  - intros lo Hlo Hhi. unfold SegmentDetail.elevations.
    rewrite (bind_ret _ _ _ _ _ Hs). cbn [getitem]. rewrite Hlo, bind_lift_ret.
    rewrite (bind_ret _ _ _ _ _ Hs). cbn [getitem]. now rewrite Hhi.
  - intros lo hi Hlo Hhi Hgain. unfold SegmentDetail.elevations.
    rewrite (bind_ret _ _ _ _ _ Hs). cbn [getitem]. rewrite Hlo, bind_lift_ret.
    rewrite (bind_ret _ _ _ _ _ Hs). cbn [getitem]. rewrite Hhi, bind_lift_ret.
    rewrite (bind_ret _ _ _ _ _ Hs). cbn [getitem]. now rewrite Hgain.
Qed.

Lemma segment_detail_accessors_witness :
  heap hawk_detailed !! 1%nat
    = Some (OSegmentDetail (mkSegmentDetail (VInt 609) (Some effort_record)
                              (Some route_record))) /\
  SegmentDetail.moving_time 1%nat hawk_detailed = (Ret (VInt 93), hawk_detailed) /\
  SegmentDetail.distance 1%nat hawk_detailed = (Ret (VInt 2700), hawk_detailed) /\
  SegmentDetail.average_watts 1%nat hawk_detailed
    = (Raise (KeyError "averageWatts"), hawk_detailed) /\
  SegmentDetail.elevations 1%nat hawk_detailed
    = (Raise (KeyError "elevationGain"), hawk_detailed).
Proof.
  split; [reflexivity|].
  destruct (segment_detail_accessors 1%nat (VInt 609) effort_record
              (list_to_map [("distance", VInt 2700); ("averageGrade", VInt 5);
                            ("elevationLow", VInt 40); ("elevationHigh", VInt 180)])
              hawk_detailed eq_refl)
    as ((_ & Hm & _ & _ & Hw & Hd & _) & _ & _ & _ & Hgain).
  split; [exact Hm|]. split; [exact Hd|]. split; [exact Hw|].
  exact (Hgain (VInt 40) (VInt 180) eq_refl eq_refl eq_refl).
Defined.

(** ** StravaObject.load: one request, and the errors it lets through *)

(** Whatever the service answers, [load] makes exactly one request,
    for the base URL followed by the path, never a second one, and touches
    no instance; what it returns or raises depends only on that answer. *)
Lemma load_single_request `{Env} (url : string) (key : option string) (s : state) :
  snd (StravaObject.load url key s)
    = mkState ((BASE_API +:+ url) :: requests s) (heap s) /\
  fst (StravaObject.load url key s) = fetch url key (requests s) /\
  forall h, fst (StravaObject.load url key (mkState (requests s) h))
            = fst (StravaObject.load url key s).
Proof.
  split; [apply load_state|]. split; [apply load_fetch|].
  intros h. now rewrite !load_fetch.
Qed.

(** X11: two failures of a fetched response are not turned into
    [APIError]: the exception of reading and decoding the body as UTF-8
    propagates as it is, and a result key asked of a decoded body that is
    not a mapping raises [TypeError]. *)
Theorem load_unconverted_errors `{Env} (url : string) (s : state) :
  let r := urlopen (requests s) (BASE_API +:+ url) in
  let s' := mkState ((BASE_API +:+ url) :: requests s) (heap s) in
  (forall key e, r = DecodeRaises e -> StravaObject.load url key s = (Raise e, s')) /\
  (forall k v, r = Loads v -> is_mapping v = false ->
     StravaObject.load url (Some k) s = (Raise TypeError, s')).
Proof.
  cbv zeta. unfold StravaObject.load. split.
  - intros key e ->. reflexivity.
  - intros k v -> Hv. now destruct v.
Qed.

Lemma load_unconverted_errors_witness :
  @StravaObject.load (double (scripted [not_text]) 1) "/rides/1" (Some "ride") empty_state
    = (Raise (UnicodeDecodeError "'utf-8' codec can't decode byte 0xff in position 0"),
       mkState [BASE_API +:+ "/rides/1"] []) /\
  @StravaObject.load (double (scripted [Loads (VList [])]) 1) "/rides/1" (Some "ride")
     empty_state
    = (Raise TypeError, mkState [BASE_API +:+ "/rides/1"] []).
Proof.
  split.
  - exact (proj1 (@load_unconverted_errors (double (scripted [not_text]) 1) "/rides/1"
                    empty_state) (Some "ride") _ eq_refl).
  - exact (proj2 (@load_unconverted_errors (double (scripted [Loads (VList [])]) 1)
                    "/rides/1" empty_state) "ride" (VList []) eq_refl eq_refl).
Defined.

(** ** RideStream on a body that is not a mapping *)

(** X14: the tolerance of the stream accessors stops at mappings.  Every
    accessor is [try_get_values] at its key, and on a snapshot that is
    [None], a boolean or a number it raises [TypeError]; on a list it
    returns the empty list unless an element equals the key, and then
    subscripting the list raises [TypeError]; on a string it returns the
    empty list unless the key occurs in it, and then it raises
    [TypeError]. *)
Theorem stream_accessor_off_mapping `{Env} (self : ref) (oid a : value) (key : string)
    (s : state)
    (Hself : heap s !! self = Some (ORideStream (mkRideStream oid (Some a)))) :
  (is_scalar a = true ->
     RideStream.try_get_values self key s = (Raise TypeError, s)) /\
  (forall l, a = VList l ->
     RideStream.try_get_values self key s
       = (if existsb (fun x => py_eq x (VStr key)) l then Raise TypeError
          else Ret (VList []), s)) /\
  (forall t, a = VStr t ->
     RideStream.try_get_values self key s
       = (match String.index 0 key t with
          | Some _ => Raise TypeError
          | None => Ret (VList [])
          end, s)).
Proof.
  assert (Hrun : RideStream.try_get_values self key s
                 = (b <- lift (contains a key) ;;
                    if (b : bool) then lift (getitem a key) else ret (VList [])) s).
  { unfold RideStream.try_get_values.
    now rewrite (bind_ret _ _ _ _ _ (get_stream_ok _ _ _ Hself)). }
  rewrite Hrun. split; [|split].
  - intros Ha. now destruct a.
  - intros l ->. cbn [contains]. rewrite bind_lift_ret.
    now destruct (existsb _ l).
  - intros t ->. cbn [contains]. rewrite bind_lift_ret.
    now destruct (String.index 0 key t).
Qed.

Lemma stream_accessor_off_mapping_witness :
  heap (one_stream VNone) !! 0%nat = Some (ORideStream (mkRideStream (VInt 1) (Some VNone))) /\
  @RideStream.altitude (double (canned []) 1) 0%nat (one_stream VNone)
    = (Raise TypeError, one_stream VNone) /\
  @RideStream.altitude (double (canned []) 1) 0%nat (one_stream (VList []))
    = (Ret (VList []), one_stream (VList [])) /\
  @RideStream.altitude (double (canned []) 1) 0%nat (one_stream (VStr "no altitude"))
    = (Raise TypeError, one_stream (VStr "no altitude")).
Proof.
  split; [reflexivity|]. split; [|split].
  - exact (proj1 (@stream_accessor_off_mapping (double (canned []) 1) 0%nat (VInt 1) VNone
                    "altitude" (one_stream VNone) eq_refl) eq_refl).
  - exact (proj1 (proj2 (@stream_accessor_off_mapping (double (canned []) 1) 0%nat (VInt 1)
                           (VList []) "altitude" (one_stream (VList [])) eq_refl))
             [] eq_refl).
  - exact (proj2 (proj2 (@stream_accessor_off_mapping (double (canned []) 1) 0%nat (VInt 1)
                           (VStr "no altitude") "altitude"
                           (one_stream (VStr "no altitude")) eq_refl))
             "no altitude" eq_refl).
Defined.

(** ** What an access of Ride.detail leaves alone *)

Lemma keeps_ret {A} (r : ref) (a : A) : keeps r (ret a).
Proof. now intros s x. Qed.

Lemma keeps_lift {A} (r : ref) (x : res A) : keeps r (lift x).
Proof. now intros s y. Qed.

Lemma keeps_bind {A B} (r : ref) (c : M A) (k : A -> M B) :
  keeps r c -> (forall a, keeps r (k a)) -> keeps r (bind c k).
Proof.
  intros Hc Hk s x Hx. unfold bind. specialize (Hc s x Hx).
  destruct (c s) as [[a|e] s']; [now apply Hk | exact Hc].
Qed.

Lemma keeps_for_each {A B} (r : ref) (xs : list A) (body : A -> B -> M B) (acc : B) :
  (forall x b, In x xs -> keeps r (body x b)) -> keeps r (for_each xs body acc).
Proof.
  revert acc. induction xs as [|x xs IH]; intros acc Hbody; cbn [for_each].
  - apply keeps_ret.
  - apply keeps_bind; [apply Hbody; now left|].
    intros acc'. apply IH. intros y b Hy. apply Hbody. now right.
Qed.

Lemma ride_detail_attr_state (d : ref) (s : state) : snd (RideDetail._attr d s) = s.
Proof.
  unfold RideDetail._attr, bind, get_detail.
  destruct (heap s !! d) as [[| | |o| |]|]; try reflexivity.
  now destruct (RideDetail_attr o).
Qed.

Lemma keeps_detail_field (r d : ref) (k : string) :
  keeps r (x <- RideDetail._attr d ;; lift (getitem x k)).
Proof.
  intros s x Hx. unfold bind. pose proof (ride_detail_attr_state d s) as Hs.
  destruct (RideDetail._attr d s) as [[a|e] s']; simpl in *; now subst.
Qed.

Lemma keeps_ride_detail `{Env} (r self : ref) : r <> self -> keeps r (Ride.detail self).
Proof.
  intros Hne s x Hx. pose proof (lookup_lt_Some _ _ _ Hx) as Hlt.
  destruct (heap s !! self) as [[|o| | | |]|] eqn:Hself;
    try (unfold Ride.detail, bind, get_ride; now rewrite Hself).
  destruct (Ride_detail o) as [d|] eqn:Hd.
  - now rewrite (ride_detail_cached _ _ _ _ Hself Hd).
  - rewrite (ride_detail_first _ _ _ Hself Hd). cbv zeta.
    destruct (fetch _ _ _); cbn [snd heap].
    + rewrite list_lookup_insert_ne by congruence. now apply lookup_app_l_Some.
    + now apply lookup_app_l_Some.
Qed.

(** X15: an access of the detail of one ride never changes another
    instance: every other instance of the heap is as it was, the ride
    itself keeps its id, name, segments and stream, and at most one
    instance is added. *)
Theorem ride_detail_touches_only_its_ride `{Env} (self : ref) (s : state) :
  let s1 := snd (Ride.detail self s) in
  (forall r x, r <> self -> heap s !! r = Some x -> heap s1 !! r = Some x) /\
  (forall o, heap s !! self = Some (ORide o) ->
     exists d, heap s1 !! self
               = Some (ORide (mkRide (Ride_id o) (Ride_name o) d
                                (Ride_segments o) (Ride_stream o)))) /\
  (length (heap s) <= length (heap s1) <= length (heap s) + 1)%nat.
Proof.
  cbv zeta. split; [|split].
  - intros r x Hne Hx. now apply keeps_ride_detail.
  - intros o Hself. pose proof (lookup_lt_Some _ _ _ Hself) as Hlt.
    destruct (Ride_detail o) as [d|] eqn:Hd.
    + rewrite (ride_detail_cached _ _ _ _ Hself Hd). exists (Some d).
      cbn [snd]. rewrite Hself, <- Hd. now destruct o.
    + rewrite (ride_detail_first _ _ _ Hself Hd). cbv zeta.
      destruct (fetch _ _ _); cbn [snd heap].
      * eexists. apply list_lookup_insert_eq. rewrite length_app. lia.
      * exists None. rewrite (lookup_old _ _ _ _ Hself), <- Hd. now destruct o.
  - destruct (heap s !! self) as [[|o| | | |]|] eqn:Hself;
      try (unfold Ride.detail, bind, get_ride; rewrite Hself; cbn [snd]; lia).
    destruct (Ride_detail o) as [d|] eqn:Hd.
    + rewrite (ride_detail_cached _ _ _ _ Hself Hd). cbn [snd]. lia.
    + rewrite (ride_detail_first _ _ _ Hself Hd). cbv zeta.
      destruct (fetch _ _ _); cbn [snd heap];
        rewrite ?length_insert, length_app; cbn [length]; lia.
Qed.

Lemma ride_detail_touches_only_its_ride_witness :
  heap two_loops !! 1%nat = Some (ORide (mkRide (VInt 2) (VStr "Back") None [] None)) /\
  heap (snd (@Ride.detail (double loop_service 1) 0%nat two_loops)) !! 1%nat
    = Some (ORide (mkRide (VInt 2) (VStr "Back") None [] None)).
Proof.
  split; [reflexivity|].
  exact (proj1 (@ride_detail_touches_only_its_ride (double loop_service 1) 0%nat two_loops)
           1%nat _ ltac:(discriminate) eq_refl).
Defined.

(** ** Athlete.ride_stats: all or nothing *)

Lemma keeps_stats_body `{Env} (r ride : ref) (stats : gmap string float) :
  r <> ride -> keeps r (stats_body ride stats).
Proof.
  intros Hne. unfold stats_body, RideDetail.moving_time, RideDetail.distance.
  repeat first
    [ now apply keeps_ride_detail
    | apply keeps_detail_field | apply keeps_lift | apply keeps_ret
    | apply keeps_bind; [|intros ?] ].
Qed.

Lemma stats_step_raises `{Env} (r : ref) (p : value * value) (stats : gmap string float)
    (s : state) (e : exn) :
  heap s !! r = Some (fresh_ride p) ->
  match fetch ("/rides/" +:+ py_str p.1) (Some "ride") (requests s) with
  | Ret record => match getitem record "movingTime" with
                  | Ret t => to_float t
                  | Raise x => Raise x
                  end
  | Raise x => Raise x
  end = Raise e ->
  exists s1, stats_body r stats s = (Raise e, s1) /\ requests s1 = detail_url p :: requests s.
Proof.
  intros Hr Hfail. pose proof (lookup_lt_Some _ _ _ Hr) as Hlt.
  pose proof (ride_detail_first r _ s Hr eq_refl) as Hfirst.
  cbv zeta in Hfirst. cbn [fresh_ride Ride_id Ride_name Ride_segments Ride_stream] in Hfirst.
  unfold stats_body.
  rewrite (iadd_run _ _ _ _ float_of_one), bind_lift_ret.
  destruct (fetch _ _ _) as [record|x].
  - set (s' := mkState _ (<[r := _]> _)) in Hfirst.
    assert (Hdet : heap s' !! length (heap s)
                   = Some (ORideDetail (mkRideDetail p.1 (Some record)))).
    { subst s'. cbn [heap]. rewrite list_lookup_insert_ne by lia. apply lookup_fresh. }
    exists s'. split; [|reflexivity].
    rewrite (bind_ret _ _ _ _ _ Hfirst). unfold RideDetail.moving_time.
    rewrite bind_assoc, (bind_ret _ _ _ _ _ (ride_detail_attr_ok _ _ _ _ Hdet)).
    destruct (getitem record "movingTime") as [t|x].
    + rewrite bind_lift_ret. unfold iadd, float_add. rewrite Hfail. reflexivity.
    + injection Hfail as ->. reflexivity.
  - injection Hfail as ->. eexists. split; [apply bind_raise; exact Hfirst|]. reflexivity.
Qed.

(** X13: [ride_stats] returns totals only if every listed ride can be
    added.  When the rides before some ride have their details and the
    detail of that ride cannot be fetched, or lacks "movingTime", or has a
    moving time that is not a number, [ride_stats] raises that exception
    and returns nothing; it has requested the listing, the details up to
    that ride, and none of the rides after it. *)
Theorem ride_stats_all_or_nothing `{Env} (self : ref) (oid mt dist v : value) (m d : float)
    (days start : Z) (s : state) (entries : list value)
    (before after : list (value * value)) (p : value * value) (e : exn)
    (Hself : heap s !! self
             = Some (OAthlete (mkAthlete oid ("/rides?athleteId=" +:+ py_str oid))))
    (Hdelta : timedelta days = Ret days)
    (Hstart : date_sub today days = Ret start)
    (Hresp : urlopen (requests s)
               (BASE_API +:+ "/rides?athleteId=" +:+ py_str oid
                  +:+ "&startDate=" +:+ isoformat start) = Loads v)
    (Hkey : getitem v "rides" = Ret (VList entries))
    (Hentries : Forall2 entry_of entries (before ++ p :: after))
    (Hdetails : details_are before mt dist)
    (Hm : to_float mt = Ret m)
    (Hd : to_float dist = Ret d)
    (Hfail : forall log,
       match fetch ("/rides/" +:+ py_str p.1) (Some "ride") log with
       | Ret record => match getitem record "movingTime" with
                       | Ret t => to_float t
                       | Raise x => Raise x
                       end
       | Raise x => Raise x
       end = Raise e) :
  exists s1,
    Athlete.ride_stats self days s = (Raise e, s1) /\
    requests s1
      = detail_url p :: rev (map detail_url before)
          ++ (BASE_API +:+ "/rides?athleteId=" +:+ py_str oid
                +:+ "&startDate=" +:+ isoformat start) :: requests s.
Proof.
  set (url := "/rides?athleteId=" +:+ py_str oid +:+ "&startDate=" +:+ isoformat start) in *.
  pose proof (rides_run self _ (Some start) s v entries _ Hself Hresp Hkey Hentries)
    as Hrides.
  cbn [Athlete_url] in Hrides. fold url in Hrides.
  set (s0 := mkState ((BASE_API +:+ url) :: requests s)
               (heap s ++ map fresh_ride (before ++ p :: after))) in *.
  assert (Hfresh : forall k q, (before ++ p :: after) !! k = Some q ->
            heap s0 !! (length (heap s) + k)%nat = Some (fresh_ride q)).
  { intros k q Hk. subst s0. cbn [heap]. rewrite lookup_app_r by lia.
    replace (length (heap s) + k - length (heap s))%nat with k by lia.
    now rewrite list_lookup_fmap, Hk. }
  destruct (stats_loop mt dist m d Hm Hd before (length (heap s)) ∅ s0)
    as (stats & s1 & Hrun & _ & _ & _ & Hlog); [|exact Hdetails|].
  { intros k q Hk. apply Hfresh. now apply lookup_app_l_Some. }
  assert (Hp : heap s1 !! (length (heap s) + length before)%nat = Some (fresh_ride p)).
  { replace s1 with (snd (for_each (seq (length (heap s)) (length before)) stats_body ∅ s0))
      by now rewrite Hrun.
    apply keeps_for_each.
    - intros r b Hr. apply keeps_stats_body. apply in_seq in Hr. lia.
    - apply Hfresh. now apply list_lookup_middle. }
  destruct (stats_step_raises _ p stats s1 e Hp (Hfail (requests s1)))
    as (s2 & Hstep & Hlog2).
  exists s2. split.
  - unfold Athlete.ride_stats.
    rewrite Hdelta, bind_lift_ret, Hstart, bind_lift_ret.
    rewrite (bind_ret _ _ _ _ _ Hrides).
    rewrite length_app. cbn [length]. rewrite seq_app, for_each_app.
    change (for_each (seq (length (heap s)) (length before)) _ ∅ s0)
      with (for_each (seq (length (heap s)) (length before)) stats_body ∅ s0).
    rewrite (bind_ret _ _ _ _ _ Hrun). cbn [seq for_each].
    apply bind_raise. exact Hstep.
  - rewrite Hlog2, Hlog. reflexivity.
Qed.

Lemma second_untimed_details :
  @details_are (double second_untimed 734503) [(VInt 1, VStr "Out")]
    (VInt 3600) (VInt 30000).
Proof.
  intros log p [<-|[]]; exists hour_ride; repeat split.
Defined.

Lemma ride_stats_all_or_nothing_witness :
  Forall2 entry_of two_entries ([(VInt 1, VStr "Out")] ++ (VInt 2, VStr "Back") :: []) /\
  exists s1,
    @Athlete.ride_stats (double second_untimed 734503) 0%nat 7 (mkState [] [athlete_7])
      = (Raise (KeyError "movingTime"), s1) /\
    requests s1 = [BASE_API +:+ "/rides/2"; BASE_API +:+ "/rides/1";
                   BASE_API +:+ "/rides?athleteId=7&startDate=2011-12-25"].
Proof.
  assert (Hentries : Forall2 entry_of two_entries
                       ([(VInt 1, VStr "Out")] ++ (VInt 2, VStr "Back") :: [])).
  { repeat constructor. }
  split; [exact Hentries|].
  exact (@ride_stats_all_or_nothing (double second_untimed 734503) 0%nat (VInt 7)
           (VInt 3600) (VInt 30000) (dict [("rides", VList two_entries)])
           3600%float 30000%float 7 734496 (mkState [] [athlete_7])
           two_entries [(VInt 1, VStr "Out")] [] (VInt 2, VStr "Back")
           (KeyError "movingTime")
           eq_refl eq_refl eq_refl eq_refl eq_refl Hentries second_untimed_details
           eq_refl eq_refl (fun log => eq_refl)).
Defined.

(** ** No dangling reference *)

Lemma closed_iff (h : list obj) :
  closed h = true <->
  (forall i o r, h !! i = Some o -> In r (refs o) -> (r < length h)%nat).
Proof.
  split.
  - intros Hc i o r Hi Hr. exact (closed_spec h i r o Hc Hi Hr).
  - intros Hall. unfold closed. apply forallb_forall. intros o Ho.
    apply list_elem_of_In, list_elem_of_lookup_1 in Ho as [i Hi].
    apply forallb_forall. intros r Hr. apply Nat.ltb_lt. exact (Hall i o r Hi Hr).
Qed.

Lemma closed_snoc (h : list obj) (o : obj) :
  closed h = true -> (forall r, In r (refs o) -> (r <= length h)%nat) ->
  closed (h ++ [o]) = true.
Proof.
  rewrite !closed_iff. intros Hc Ho i x r Hi Hr. rewrite length_app. cbn [length].
  destruct (decide (i < length h)%nat) as [Hlt|Hge].
  - rewrite lookup_app_l in Hi by assumption. specialize (Hc i x r Hi Hr). lia.
  - apply lookup_lt_Some in Hi as Hlen. rewrite length_app in Hlen. cbn [length] in Hlen.
    assert (i = length h) as -> by lia.
    rewrite lookup_fresh in Hi. injection Hi as <-. specialize (Ho r Hr). lia.
Qed.

Lemma closed_insert (h : list obj) (i : ref) (o : obj) :
  closed h = true -> (forall r, In r (refs o) -> (r < length h)%nat) ->
  closed (<[i := o]> h) = true.
Proof.
  rewrite !closed_iff. intros Hc Ho j x r Hj Hr. rewrite length_insert.
  destruct (decide (i = j)) as [->|Hne].
  - pose proof (lookup_lt_Some _ _ _ Hj) as Hlt. rewrite length_insert in Hlt.
    rewrite list_lookup_insert_eq in Hj by assumption. injection Hj as <-. now apply Ho.
  - rewrite list_lookup_insert_ne in Hj by assumption. exact (Hc j x r Hj Hr).
Qed.

Lemma closed_app_fresh_rides (h : list obj) (ins : list (value * value)) :
  closed h = true -> closed (h ++ map fresh_ride ins) = true.
Proof.
  revert h. induction ins as [|p ins IH]; intros h Hc.
  - now rewrite app_nil_r.
  - cbn [map]. change (fresh_ride p :: map fresh_ride ins)
      with ([fresh_ride p] ++ map fresh_ride ins).
    rewrite app_assoc. apply IH.
    apply closed_snoc; [exact Hc|]. intros r [].
Qed.

Lemma rides_loop_appends (entries : list value) :
  forall (out : list ref) (s : state),
  exists ins, heap (snd (for_each entries rides_body out s)) = heap s ++ map fresh_ride ins.
Proof.
  induction entries as [|e entries IH]; intros out s.
  - exists []. cbn [for_each map]. now rewrite app_nil_r.
  - cbn [for_each]. unfold rides_body at 1.
    destruct (getitem e "id") as [i|x]; [|exists []; now rewrite app_nil_r].
    rewrite bind_assoc, bind_lift_ret.
    destruct (getitem e "name") as [n|x]; [|exists []; now rewrite app_nil_r].
    rewrite bind_assoc, bind_lift_ret. unfold Ride.new.
    rewrite bind_assoc. unfold bind at 1, alloc at 1. rewrite bind_ret_l.
    destruct (IH (out ++ [length (heap s)])
                (mkState (requests s) (heap s ++ [ORide (mkRide i n None [] None)])))
      as [ins Hins].
    exists ((i, n) :: ins). etransitivity; [exact Hins|].
    cbn [heap map]. now rewrite <- app_assoc.
Qed.

(** X17: the heap never gets a dangling reference.  If every reference
    held by an instance points to an instance of the heap, this is still so
    after [Athlete.rides], after an access of [detail] or [stream] of a
    ride, and after an access of [detail] of a built segment, whatever the
    service answered and whether the call returned or raised; and
    [Athlete.rides] only ever adds new rides to the heap. *)
Theorem heap_stays_closed `{Env} (self : ref) (s : state)
    (Hclosed : closed (heap s) = true) :
  (forall start,
     closed (heap (snd (Athlete.rides self start s))) = true /\
     exists ins, heap (snd (Athlete.rides self start s)) = heap s ++ map fresh_ride ins) /\
  closed (heap (snd (Ride.detail self s))) = true /\
  closed (heap (snd (Ride.stream self s))) = true /\
  (forall eid g t c,
     heap s !! self = Some (OSegment (mkSegment eid (Some g) (Some t) (Some c))) ->
     closed (heap (snd (Segment.detail self s))) = true).
Proof.
  split; [|split; [|split]].
  - intros start.
    assert (Happ : exists ins,
              heap (snd (Athlete.rides self start s)) = heap s ++ map fresh_ride ins).
    { unfold Athlete.rides, bind at 1, get_athlete.
      destruct (heap s !! self) as [[o| | | | |]|];
        try (exists []; now rewrite app_nil_r).
      unfold bind at 1. rewrite load_run_fetch.
      destruct (fetch _ _ _) as [listing|x]; [|exists []; now rewrite app_nil_r].
      unfold bind at 1, lift at 1.
      destruct (iter listing) as [entries|x]; [|exists []; now rewrite app_nil_r].
      exact (rides_loop_appends entries [] _). }
    split; [|exact Happ]. destruct Happ as [ins ->]. now apply closed_app_fresh_rides.
  - destruct (heap s !! self) as [[|o| | | |]|] eqn:Hself;
      try (unfold Ride.detail, bind, get_ride; now rewrite Hself).
    pose proof (lookup_lt_Some _ _ _ Hself) as Hlt.
    destruct (Ride_detail o) as [d|] eqn:Hd.
    + now rewrite (ride_detail_cached _ _ _ _ Hself Hd).
    + rewrite (ride_detail_first _ _ _ Hself Hd). cbv zeta.
      destruct (fetch _ _ _); cbn [snd heap].
      * apply closed_insert; [apply closed_snoc; [exact Hclosed|intros r []]|].
        intros r Hr. rewrite length_app. cbn [length refs Ride_detail Ride_segments
                                               Ride_stream option_list app] in *.
        destruct Hr as [<-|Hr]; [lia|].
        assert (r < length (heap s))%nat; [|lia].
        apply (closed_spec _ self r _ Hclosed Hself). cbn [refs]. rewrite Hd. exact Hr.
      * apply closed_snoc; [exact Hclosed|intros r []].
  - destruct (heap s !! self) as [[|o| | | |]|] eqn:Hself;
      try (unfold Ride.stream, bind, get_ride; now rewrite Hself).
    pose proof (lookup_lt_Some _ _ _ Hself) as Hlt.
    destruct (Ride_stream o) as [d|] eqn:Hd.
    + now rewrite (ride_stream_cached _ _ _ _ Hself Hd).
    + rewrite (ride_stream_first _ _ _ Hself Hd). cbv zeta.
      destruct (fetch _ _ _); cbn [snd heap].
      * apply closed_insert; [apply closed_snoc; [exact Hclosed|intros r []]|].
        intros r Hr. rewrite length_app. cbn [length refs Ride_detail Ride_segments
                                               Ride_stream] in *.
        apply in_app_or in Hr as [Hr|Hr];
          [|apply in_app_or in Hr as [Hr|Hr]; [|destruct Hr as [<-|[]]; lia]].
        -- assert (r < length (heap s))%nat; [|lia].
           apply (closed_spec _ self r _ Hclosed Hself). cbn [refs].
           apply in_or_app. now left.
        -- assert (r < length (heap s))%nat; [|lia].
           apply (closed_spec _ self r _ Hclosed Hself). cbn [refs].
           apply in_or_app. right. apply in_or_app. now left.
      * apply closed_snoc; [exact Hclosed|intros r []].
  - intros eid g t c Hself. pose proof (lookup_lt_Some _ _ _ Hself) as Hlt.
    destruct c as [d|].
    + now rewrite (segment_detail_cached _ _ d _ Hself eq_refl).
    + destruct (getitem g "id") as [route|x] eqn:Hroute.
      * rewrite (segment_detail_run _ _ _ _ _ _ Hself Hroute).
        rewrite segment_detail_new_run. cbv zeta.
        destruct (fetch _ (Some "effort") _) as [ea|e1];
          [|cbn [snd heap]; apply closed_snoc; [exact Hclosed|intros r []]].
        destruct (fetch _ (Some "segment") _) as [sa|e2];
          [|cbn [snd heap]; apply closed_snoc; [exact Hclosed|intros r []]].
        cbn [snd heap]. apply closed_insert;
          [apply closed_snoc; [exact Hclosed|intros r []]|].
        intros r [<-|[]]. rewrite length_app. cbn [length]. lia.
      * unfold Segment.detail.
        rewrite (bind_ret _ _ _ _ _ (get_segment_ok _ _ _ Hself)).
        cbn [attr Segment_detail Segment_segment]. rewrite !bind_ret_l.
        unfold bind, lift. now rewrite Hroute.
Qed.

Lemma heap_stays_closed_witness :
  closed (heap (mkState [] [OSegment hawk_segment])) = true /\
  closed (heap (snd (@Segment.detail (double route_missing 1) 0%nat
                       (mkState [] [OSegment hawk_segment])))) = true.
Proof.
  split; [reflexivity|].
  exact (proj2 (proj2 (proj2 (@heap_stays_closed (double route_missing 1) 0%nat
                                (mkState [] [OSegment hawk_segment]) eq_refl)))
           (VInt 31) hawk_hill (VInt 95) None eq_refl).
Defined.

(** ** Athlete.ride_stats: nothing is kept between calls *)

Lemma ride_stats_keeps_athlete `{Env} (self : ref) (o : AthleteObj) (days start : Z)
    (s : state) (v : value) (entries : list value) (ins : list (value * value)) :
  heap s !! self = Some (OAthlete o) ->
  timedelta days = Ret days -> date_sub today days = Ret start ->
  urlopen (requests s) (BASE_API +:+ listing_path o (Some start)) = Loads v ->
  getitem v "rides" = Ret (VList entries) ->
  Forall2 entry_of entries ins ->
  heap (snd (Athlete.ride_stats self days s)) !! self = Some (OAthlete o).
Proof.
  intros Hself Hdelta Hstart Hresp Hkey Hentries.
  pose proof (lookup_lt_Some _ _ _ Hself) as Hlt.
  unfold Athlete.ride_stats.
  rewrite Hdelta, bind_lift_ret, Hstart, bind_lift_ret.
  rewrite (bind_ret _ _ _ _ _
             (rides_run_path self o (Some start) s v entries ins Hself Hresp Hkey Hentries)).
  apply (keeps_for_each self (seq (length (heap s)) (length ins)) stats_body).
  - intros r b Hr. apply keeps_stats_body. apply in_seq in Hr. lia.
  - cbn [heap]. now apply lookup_app_l_Some.
Qed.

(** X18: [ride_stats] keeps nothing between calls.  A second call, as the
    example script makes to print the moving time after the number of
    rides, requests the listing again and, because the rides it lists are
    new instances, the detail of every ride again. *)
Theorem ride_stats_recomputed `{Env} (self : ref) (oid mt dist v1 v2 : value) (m d : float)
    (days start : Z) (s : state) (entries1 entries2 : list value)
    (ins1 ins2 : list (value * value))
    (Hself : heap s !! self
             = Some (OAthlete (mkAthlete oid ("/rides?athleteId=" +:+ py_str oid))))
    (Hdelta : timedelta days = Ret days)
    (Hstart : date_sub today days = Ret start)
    (Hm : to_float mt = Ret m)
    (Hd : to_float dist = Ret d) :
  let listing := BASE_API +:+ "/rides?athleteId=" +:+ py_str oid
                   +:+ "&startDate=" +:+ isoformat start in
  let log1 := rev (map detail_url ins1) ++ listing :: requests s in
  urlopen (requests s) listing = Loads v1 ->
  getitem v1 "rides" = Ret (VList entries1) ->
  Forall2 entry_of entries1 ins1 ->
  details_are ins1 mt dist ->
  urlopen log1 listing = Loads v2 ->
  getitem v2 "rides" = Ret (VList entries2) ->
  Forall2 entry_of entries2 ins2 ->
  details_are ins2 mt dist ->
  exists first second s2,
    (a <- Athlete.ride_stats self days ;; b <- Athlete.ride_stats self days ;; ret (a, b)) s
      = (Ret (first, second), s2) /\
    requests s2 = rev (map detail_url ins2) ++ listing :: log1 /\
    read first "rides" = add_times (length ins1) 1 0 /\
    read second "rides" = add_times (length ins2) 1 0.
Proof.
  intros listing log1 Hresp1 Hkey1 Hentries1 Hdetails1 Hresp2 Hkey2 Hentries2 Hdetails2.
  destruct (ride_stats_run self oid mt dist v1 m d days start s entries1 ins1
              Hself Hdelta Hstart Hresp1 Hkey1 Hentries1 Hdetails1 Hm Hd)
    as (first & s1 & Hrun1 & Hr1 & _ & _ & Hlog1).
  fold listing in Hlog1. fold log1 in Hlog1.
  assert (Hself1 : heap s1 !! self
                   = Some (OAthlete (mkAthlete oid ("/rides?athleteId=" +:+ py_str oid)))).
  { replace s1 with (snd (Athlete.ride_stats self days s)) by now rewrite Hrun1.
    now apply (ride_stats_keeps_athlete self _ days start s v1 entries1 ins1). }
  rewrite <- Hlog1 in Hresp2.
  destruct (ride_stats_run self oid mt dist v2 m d days start s1 entries2 ins2
              Hself1 Hdelta Hstart Hresp2 Hkey2 Hentries2 Hdetails2 Hm Hd)
    as (second & s2 & Hrun2 & Hr2 & _ & _ & Hlog2).
  fold listing in Hlog2. rewrite Hlog1 in Hlog2.
  exists first, second, s2. split; [|now repeat split].
  now rewrite (bind_ret _ _ _ _ _ Hrun1), (bind_ret _ _ _ _ _ Hrun2).
Qed.

Lemma ride_stats_recomputed_witness :
  Forall2 entry_of two_entries [(VInt 1, VStr "Out"); (VInt 2, VStr "Back")] /\
  exists first second s2,
    (a <- @Athlete.ride_stats (double two_rides 734503) 0%nat 7 ;;
     b <- @Athlete.ride_stats (double two_rides 734503) 0%nat 7 ;; ret (a, b))
      (mkState [] [athlete_7])
      = (Ret (first, second), s2) /\
    requests s2
      = [BASE_API +:+ "/rides/2"; BASE_API +:+ "/rides/1";
         BASE_API +:+ "/rides?athleteId=7&startDate=2011-12-25";
         BASE_API +:+ "/rides/2"; BASE_API +:+ "/rides/1";
         BASE_API +:+ "/rides?athleteId=7&startDate=2011-12-25"].
Proof.
  assert (Hentries : Forall2 entry_of two_entries [(VInt 1, VStr "Out"); (VInt 2, VStr "Back")]).
  { repeat constructor. }
  split; [exact Hentries|].
  destruct (@ride_stats_recomputed (double two_rides 734503) 0%nat (VInt 7)
              (VInt 3600) (VInt 30000) (dict [("rides", VList two_entries)])
              (dict [("rides", VList two_entries)]) 3600%float 30000%float 7 734496
              (mkState [] [athlete_7]) two_entries two_entries
              [(VInt 1, VStr "Out"); (VInt 2, VStr "Back")]
              [(VInt 1, VStr "Out"); (VInt 2, VStr "Back")]
              eq_refl eq_refl eq_refl eq_refl eq_refl
              eq_refl eq_refl Hentries two_rides_details
              eq_refl eq_refl Hentries two_rides_details)
    as (first & second & s2 & Hrun & Hlog & _).
  exists first, second, s2. split; [exact Hrun | exact Hlog].
Defined.

(** ** Segment: the embedded route is checked when it is used *)

(** X10: a segment is built from whatever its entry has under "segment",
    and that value is only looked into later.  When it has no "id" (or is
    not a mapping), the access of [detail] raises the [KeyError] (or
    [TypeError]) of that lookup before any request is made, and leaves the
    segment as it was; [name] is the lookup of "name" in it and raises in
    the same way. *)
Theorem segment_route_checked_late `{Env} (self : ref) (eid g t : value) (s : state)
    (Hself : heap s !! self = Some (OSegment (mkSegment eid (Some g) (Some t) (Some None)))) :
  (forall e, getitem g "id" = Raise e -> Segment.detail self s = (Raise e, s)) /\
  Segment.name self s = (getitem g "name", s) /\
  (forall d, g = VDict d -> d !! "id" = None ->
     Segment.detail self s = (Raise (KeyError "id"), s)) /\
  (is_mapping g = false -> Segment.detail self s = (Raise TypeError, s)).
Proof.
  assert (Hdetail : forall e, getitem g "id" = Raise e ->
            Segment.detail self s = (Raise e, s)).
  { intros e He. unfold Segment.detail.
    rewrite (bind_ret _ _ _ _ _ (get_segment_ok _ _ _ Hself)).
    cbn [attr Segment_detail Segment_segment]. rewrite !bind_ret_l.
    unfold bind, lift. now rewrite He. }
  split; [exact Hdetail|]. split; [|split].
  - unfold Segment.name. now rewrite (bind_ret _ _ _ _ _ (get_segment_ok _ _ _ Hself)).
  - intros d -> Hid. apply Hdetail. cbn [getitem]. now rewrite Hid.
  - intros Hg. apply Hdetail. now destruct g.
Qed.

Lemma segment_route_checked_late_witness :
  heap (mkState [] [OSegment unnamed_route]) !! 0%nat = Some (OSegment unnamed_route) /\
  @Segment.detail (double hawk_service 1) 0%nat (mkState [] [OSegment unnamed_route])
    = (Raise (KeyError "id"), mkState [] [OSegment unnamed_route]) /\
  Segment.name 0%nat (mkState [] [OSegment unnamed_route])
    = (Ret (VStr "Hawk Hill"), mkState [] [OSegment unnamed_route]).
Proof.
  split; [reflexivity|].
  destruct (@segment_route_checked_late (double hawk_service 1) 0%nat (VInt 31)
              (dict [("name", VStr "Hawk Hill")]) (VInt 95)
              (mkState [] [OSegment unnamed_route]) eq_refl)
    as (_ & Hname & Hid & _).
  split; [|exact Hname].
  exact (Hid (list_to_map [("name", VStr "Hawk Hill")]) eq_refl eq_refl).
Defined.
